(** * Bank ledger simulator: the bookkeeping core of [main.py]

    A shallow embedding of the classes [Transaction] and [BankAccount] and of
    the functions [find_account_by_number], [list_accounts_brief],
    [create_account], [deactivate_account] and [main_menu], followed by the
    properties of the account model and of whole sessions.

    Python integers are unbounded, so amounts and balances are [Z].  Account
    objects are mutable and shared between the module-level list [accounts]
    and the callers that hold them, so they live in a store ([heap]) and are
    designated by references.  The two sources of non-determinism,
    [uuid.uuid4()] and [datetime.now(timezone.utc)], and the two text
    channels, [input] and [print], are part of the state that every function
    threads through.  Exceptions are results: [EOFError] of [input], and
    [ValueError] of an integer that has too many digits to be written, which
    the messages of [deposit], [withdraw], the listings and the two
    [__str__] methods can raise. *)

From Stdlib Require Import ZArith NArith Ascii String Lia.
From stdpp Require Import base tactics option list strings pretty.

Local Open Scope Z_scope.
Local Open Scope string_scope.

(** ** Data model *)

(** [uuid.UUID], by its 128-bit integer value ([UUID.int]). *)
Definition UUID : Type := N.

(** An aware [datetime] in UTC, by its microseconds since the epoch. *)
Definition datetime : Type := Z.

Module Transaction.
(** The fields that [Transaction.__init__] assigns, in that order. *)
Record t : Type := mk
  { id : UUID;
    type : string;
    sender_name : option string;
    receiver_name : option string;
    amount : Z;
    status : string;
    timestamp : datetime }.
End Transaction.

Module BankAccount.
(** The attributes of a [BankAccount] object. *)
Record t : Type := mk
  { id : UUID;
    name : string;
    account_number : string;
    balance : Z;
    created_at : datetime;
    transactions : list Transaction.t;
    is_closed : bool }.

(** [BankAccount.__init__]: the five arguments are stored, the log starts
    empty and the account starts open. *)
Definition init (id : UUID) (name account_number : string) (balance : Z)
    (created_at : datetime) : t :=
  mk id name account_number balance created_at [] false.

(** Attribute assignments [self.balance = v] and the like. *)
Definition set_balance (v : Z) (a : t) : t :=
  mk (id a) (name a) (account_number a) v (created_at a)
     (transactions a) (is_closed a).

Definition set_name (v : string) (a : t) : t :=
  mk (id a) v (account_number a) (balance a) (created_at a)
     (transactions a) (is_closed a).

Definition set_is_closed (v : bool) (a : t) : t :=
  mk (id a) (name a) (account_number a) (balance a) (created_at a)
     (transactions a) v.

Definition set_transactions (v : list Transaction.t) (a : t) : t :=
  mk (id a) (name a) (account_number a) (balance a) (created_at a)
     v (is_closed a).
End BankAccount.

(** A reference to an account object: its position in the store. *)
Definition ref : Type := nat.
Bind Scope nat_scope with ref.

(** ** The state of a run *)

Record World : Type := mkWorld
  { heap : list BankAccount.t;      (* every account object ever built *)
    accounts : list ref;            (* the module-level list [accounts] *)
    stdin : list string;            (* the lines still to be read *)
    stdout : list string;           (* what was written, one entry per call *)
    entropy : nat -> UUID;          (* the value of the k-th [uuid4()] *)
    uuid_calls : nat;               (* how many [uuid4()] calls were made *)
    wallclock : nat -> datetime;    (* the value of the k-th [now()] *)
    clock_reads : nat }.            (* how many [now()] calls were made *)

Definition with_heap (h : list BankAccount.t) (w : World) : World :=
  mkWorld h (accounts w) (stdin w) (stdout w)
          (entropy w) (uuid_calls w) (wallclock w) (clock_reads w).

Definition with_accounts (l : list ref) (w : World) : World :=
  mkWorld (heap w) l (stdin w) (stdout w)
          (entropy w) (uuid_calls w) (wallclock w) (clock_reads w).

Definition with_stdin (l : list string) (w : World) : World :=
  mkWorld (heap w) (accounts w) l (stdout w)
          (entropy w) (uuid_calls w) (wallclock w) (clock_reads w).

Definition with_stdout (l : list string) (w : World) : World :=
  mkWorld (heap w) (accounts w) (stdin w) l
          (entropy w) (uuid_calls w) (wallclock w) (clock_reads w).

Definition with_uuid_calls (k : nat) (w : World) : World :=
  mkWorld (heap w) (accounts w) (stdin w) (stdout w)
          (entropy w) k (wallclock w) (clock_reads w).

Definition with_clock_reads (k : nat) (w : World) : World :=
  mkWorld (heap w) (accounts w) (stdin w) (stdout w)
          (entropy w) (uuid_calls w) (wallclock w) k.

(** ** Exceptions and the monad of the program *)

Inductive exn : Type :=
  | EOFError        (* [input] at the end of the input *)
  | ValueError      (* an integer too long to be written in decimal *)
  | DanglingRef     (* no Python counterpart: a reference outside the store *)
  | OutOfFuel.      (* no Python counterpart: a loop cut short by the model *)

(** A computation runs from a world to a result, or an exception, and the
    world it leaves behind. *)
Definition M (A : Type) : Type := World -> (exn + A) * World.

Definition ret {A : Type} (x : A) : M A := fun w => (inr x, w).

Definition raise {A : Type} (e : exn) : M A := fun w => (inl e, w).

Definition bind {A B : Type} (m : M A) (k : A -> M B) : M B :=
  fun w =>
    match m w with
    | (inr x, w') => k x w'
    | (inl e, w') => (inl e, w')
    end.

Declare Scope prog_scope.
Delimit Scope prog_scope with prog.
Bind Scope prog_scope with M.

Notation "x <- m ;; k" := (bind m (fun x => k))
  (at level 100, m at next level, right associativity) : prog_scope.
Notation "m ;; k" := (bind m (fun _ => k))
  (at level 100, k at level 200, right associativity) : prog_scope.

Local Open Scope prog_scope.

(** [print(s)] *)
Definition print (s : string) : M unit :=
  fun w => (inr tt, with_stdout (stdout w ++ [s]) w).

(** [input(prompt)]: the prompt is written, then one line is read. *)
Definition input (prompt : string) : M string :=
  fun w =>
    let w1 := with_stdout (stdout w ++ [prompt]) w in
    match stdin w1 with
    | [] => (inl EOFError, w1)
    | line :: rest => (inr line, with_stdin rest w1)
    end.

(** [uuid.uuid4()] *)
Definition uuid4 : M UUID :=
  fun w => (inr (entropy w (uuid_calls w)), with_uuid_calls (S (uuid_calls w)) w).

(** [datetime.now(timezone.utc)] *)
Definition now_utc : M datetime :=
  fun w => (inr (wallclock w (clock_reads w)),
            with_clock_reads (S (clock_reads w)) w).

(** Reading the object behind a reference. *)
Definition load (self : ref) : M BankAccount.t :=
  fun w =>
    match heap w !! self with
    | Some a => (inr a, w)
    | None => (inl DanglingRef, w)
    end.

(** [self.attr]: reading an attribute. *)
Definition getattr {A : Type} (attr : BankAccount.t -> A) (self : ref) : M A :=
  a <- load self ;; ret (attr a).

(** [self.attr = v]: the object behind [self] is updated in place. *)
Definition setattr (upd : BankAccount.t -> BankAccount.t) (self : ref) : M unit :=
  a <- load self ;;
  fun w => (inr tt, with_heap (<[self := upd a]> (heap w)) w).

(** Building a new object: it is placed at the end of the store. *)
Definition new (a : BankAccount.t) : M ref :=
  fun w => (inr (length (heap w)), with_heap (heap w ++ [a]) w).

(** [accounts.append(acc)]: the list holds the reference, so what is done
    to the object afterwards is seen through the list too. *)
Definition accounts_append (acc : ref) : M unit :=
  fun w => (inr tt, with_accounts (accounts w ++ [acc]) w).

(** The decimal digits of an integer, with its sign. *)
Definition str (n : Z) : string := pretty n.

(** CPython writes an integer in decimal only if it has no more digits
    than [sys.get_int_max_str_digits()], which is 4300 unless it is set
    otherwise, and the program does not set it.  Beyond that the
    conversion raises [ValueError]. *)
Definition max_str_digits : nat := 4300.

(** [at_most_digits k n]: the natural number [n] has at most [k] decimal
    digits. *)
Fixpoint at_most_digits (k : nat) (n : Z) : bool :=
  match k with
  | O => false
  | S k' => bool_decide (n < 10) || at_most_digits k' (n / 10)
  end.

(** The integer [n] can be written: the limit counts the digits, not the
    sign. *)
Definition printable (n : Z) : bool :=
  at_most_digits max_str_digits (Z.abs n).

Arguments printable : simpl never.

(** [{n}] inside an f-string, for an integer [n]. *)
Definition format_int (n : Z) : M string :=
  if printable n then ret (str n) else raise ValueError.

(** ** The methods of [BankAccount] *)

Definition record_transaction (self : ref) (t_type : string)
    (sender_name receiver_name : option string) (amount : Z)
    (status : string) : M Transaction.t :=
  u <- uuid4 ;;
  ts <- now_utc ;;
  let t := Transaction.mk u t_type sender_name receiver_name amount status ts in
  log <- getattr BankAccount.transactions self ;;
  setattr (BankAccount.set_transactions (log ++ [t])) self ;;
  ret t.

Definition deposit (self : ref) (amount : Z) : M unit :=
  closed <- getattr BankAccount.is_closed self ;;
  if closed then
    print "This account is closed. Operation not allowed."
  else if bool_decide (amount <= 0) then
    print "Amount must be positive." ;;
    nm <- getattr BankAccount.name self ;;
    record_transaction self "deposit" None (Some nm) amount "failed" ;;
    ret tt
  else
    b <- getattr BankAccount.balance self ;;
    setattr (BankAccount.set_balance (b + amount)) self ;;
    nm <- getattr BankAccount.name self ;;
    record_transaction self "deposit" None (Some nm) amount "completed" ;;
    shown_amount <- format_int amount ;;
    b' <- getattr BankAccount.balance self ;;
    shown_balance <- format_int b' ;;
    print ("Deposited " +:+ shown_amount +:+ ". New balance: "
           +:+ shown_balance).

Definition withdraw (self : ref) (amount : Z) : M unit :=
  closed <- getattr BankAccount.is_closed self ;;
  if closed then
    print "This account is closed. Operation not allowed."
  else if bool_decide (amount <= 0) then
    print "Amount must be positive." ;;
    nm <- getattr BankAccount.name self ;;
    record_transaction self "withdraw" (Some nm) None amount "failed" ;;
    ret tt
  else
    b <- getattr BankAccount.balance self ;;
    if bool_decide (amount > b) then
      print "Insufficient funds." ;;
      nm <- getattr BankAccount.name self ;;
      record_transaction self "withdraw" (Some nm) None amount "failed" ;;
      ret tt
    else
      setattr (BankAccount.set_balance (b - amount)) self ;;
      nm <- getattr BankAccount.name self ;;
      record_transaction self "withdraw" (Some nm) None amount "completed" ;;
      shown_amount <- format_int amount ;;
      b' <- getattr BankAccount.balance self ;;
      shown_balance <- format_int b' ;;
      print ("Withdrawn " +:+ shown_amount +:+ ". New balance: "
             +:+ shown_balance).

Definition close_account (self : ref) : M unit :=
  closed <- getattr BankAccount.is_closed self ;;
  if closed then
    print "Account is already closed."
  else
    nm <- getattr BankAccount.name self ;;
    b <- getattr BankAccount.balance self ;;
    record_transaction self "close" (Some nm) None b "completed" ;;
    setattr (BankAccount.set_balance 0) self ;;
    setattr (BankAccount.set_is_closed true) self ;;
    nm' <- getattr BankAccount.name self ;;
    setattr (BankAccount.set_name (nm' +:+ " (Closed)")) self ;;
    num <- getattr BankAccount.account_number self ;;
    print ("Account " +:+ num +:+ " has been closed and balance reset to zero.").

(** ** Account creation *)

(** [UUID.hex]: the 128-bit value as 32 lowercase hexadecimal digits. *)
Definition hex_digit (d : N) : ascii :=
  match d with
  | 0 => "0" | 1 => "1" | 2 => "2" | 3 => "3" | 4 => "4" | 5 => "5"
  | 6 => "6" | 7 => "7" | 8 => "8" | 9 => "9" | 10 => "a" | 11 => "b"
  | 12 => "c" | 13 => "d" | 14 => "e" | _ => "f"
  end%N%char.

Fixpoint hex_digits (width : nat) (n : N) (low : string) : string :=
  match width with
  | O => low
  | S width' => hex_digits width' (n / 16)%N (String (hex_digit (n mod 16)%N) low)
  end.

Definition hex (u : UUID) : string := hex_digits 32 u "".

(** [s.upper()] on ASCII text (it is applied to hexadecimal digits only). *)
Definition upper_char (c : ascii) : ascii :=
  let n := nat_of_ascii c in
  if bool_decide (97 <= n <= 122)%nat then ascii_of_nat (n - 32) else c.

Fixpoint upper (s : string) : string :=
  match s with
  | EmptyString => EmptyString
  | String c s' => String (upper_char c) (upper s')
  end.

Section Creation.

(** The two built-ins applied to what the user types.  [int] is Python's
    [int(text)], with [None] for [ValueError]; [strip] is [text.strip()].
    Their results on arbitrary Unicode text are no part of this program,
    so everything below holds whatever they return. *)
Variable int : string -> option Z.
Variable strip : string -> string.

(** The loop [while True: try: balance = int(input(..)); break
    except ValueError: print(..)].  Every round reads one line, so a
    budget of one round more than there are lines is never used up: the
    loop ends sooner, on an integer or on [EOFError]. *)
Fixpoint read_initial_balance (fuel : nat) : M Z :=
  match fuel with
  | O => raise OutOfFuel
  | S fuel' =>
      line <- input "Initial balance: " ;;
      match int line with
      | Some balance => ret balance
      | None => print "Enter an integer." ;; read_initial_balance fuel'
      end
  end.

Definition create_account : M ref :=
  print "Create a new account." ;;
  name <- (line <- input "Account holder name: " ;; ret (strip line)) ;;
  typed <- (line <- input "Account number (press Enter to auto-generate): " ;;
            ret (strip line)) ;;
  account_number <-
    (if bool_decide (typed = "") then
       u <- uuid4 ;;
       let generated := upper (substring 0 10 (hex u)) in
       print ("Generated account number: " +:+ generated) ;;
       ret generated
     else ret typed) ;;
  balance <- (fun w => read_initial_balance (S (length (stdin w))) w) ;;
  u <- uuid4 ;;
  ts <- now_utc ;;
  acc <- new (BankAccount.init u name account_number balance ts) ;;
  accounts_append acc ;;
  (if bool_decide (balance > 0) then
     nm <- getattr BankAccount.name acc ;;
     record_transaction acc "deposit" None (Some nm) balance "completed" ;;
     ret tt
   else ret tt) ;;
  num <- getattr BankAccount.account_number acc ;;
  print ("Account " +:+ num +:+ " created successfully.") ;;
  ret acc.

End Creation.

(** ** Sequences of operations on one account *)

(** The three commands of the menu that change an account. *)
Inductive op : Type :=
  | Deposit (amount : Z)
  | Withdraw (amount : Z)
  | Close.

Definition run_op (self : ref) (o : op) : M unit :=
  match o with
  | Deposit amount => deposit self amount
  | Withdraw amount => withdraw self amount
  | Close => close_account self
  end.

Fixpoint run_ops (self : ref) (os : list op) : M unit :=
  match os with
  | [] => ret tt
  | o :: os' => run_op self o ;; run_ops self os'
  end.

(** ** Plain ASCII input, for running examples *)

(** [int(text)] and [text.strip()] on ASCII text.  [int] takes an optional
    sign and decimal digits, a single underscore being allowed between two
    digits, with blanks before and after, and refuses more digits than
    [max_str_digits].  The blanks that [int] skips are the six of C's
    [isspace]; [strip] removes the separators 28 to 31 as well.  On text
    outside ASCII, where Python knows more digits and more blanks,
    [ascii_int] refuses and [ascii_strip] removes nothing. *)
Definition digit_value (c : ascii) : option Z :=
  let n := nat_of_ascii c in
  if bool_decide (48 <= n <= 57)%nat then Some (Z.of_nat (n - 48)) else None.

(** The digits of a literal, from the left: [acc] is the value read so
    far, [count] the number of digits read and [after_digit] tells whether
    the last character was a digit, which an underscore needs on both
    sides. *)
Fixpoint decimal (s : string) (acc : Z) (count : nat) (after_digit : bool)
    : option (Z * nat) :=
  match s with
  | EmptyString => if after_digit then Some (acc, count) else None
  | String c s' =>
      match digit_value c with
      | Some d => decimal s' (10 * acc + d) (S count) true
      | None =>
          if after_digit && Ascii.eqb c "_"%char then decimal s' acc count false
          else None
      end
  end.

Definition unsigned_decimal (s : string) : option Z :=
  match decimal s 0 0 false with
  | Some (n, count) => if (count <=? max_str_digits)%nat then Some n else None
  | None => None
  end.

Definition is_blank (c : ascii) : bool :=
  let n := nat_of_ascii c in
  bool_decide (n = 32 \/ 9 <= n <= 13 \/ 28 <= n <= 31)%nat.

Definition is_c_space (c : ascii) : bool :=
  let n := nat_of_ascii c in
  bool_decide (n = 32 \/ 9 <= n <= 13)%nat.

Fixpoint lstrip_with (blank : ascii -> bool) (s : string) : string :=
  match s with
  | EmptyString => EmptyString
  | String c s' => if blank c then lstrip_with blank s' else s
  end.

Definition strip_with (blank : ascii -> bool) (s : string) : string :=
  String.rev (lstrip_with blank (String.rev (lstrip_with blank s))).

Definition ascii_strip (s : string) : string := strip_with is_blank s.

Definition ascii_int (text : string) : option Z :=
  match strip_with is_c_space text with
  | String "-" s => Z.opp <$> unsigned_decimal s
  | String "+" s => unsigned_decimal s
  | s => unsigned_decimal s
  end.

(** ** Listing, searching and the menu *)

(** Reading the module-level list [accounts]. *)
Definition get_accounts : M (list ref) := fun w => (inr (accounts w), w).

(** [for x in l: body(x)], for a list that the body does not change. *)
Fixpoint for_each {A : Type} (body : A -> M unit) (l : list A) : M unit :=
  match l with
  | [] => ret tt
  | x :: l' => body x ;; for_each body l'
  end.

(** [enumerate(l, start=i)] *)
Fixpoint enumerate {A : Type} (i : nat) (l : list A) : list (nat * A) :=
  match l with
  | [] => []
  | x :: l' => (i, x) :: enumerate (S i) l'
  end.

(** [needle in hay], for two strings. *)
Fixpoint is_substring (needle hay : string) : bool :=
  String.prefix needle hay
  || match hay with
     | EmptyString => false
     | String _ hay' => is_substring needle hay'
     end.

(** [x or '-'], for an optional name: both [None] and the empty string are
    false values. *)
Definition or_dash (x : option string) : string :=
  match x with
  | Some s => if bool_decide (s = "") then "-" else s
  | None => "-"
  end.

(** [str(u)] for a [uuid.UUID]: the 32 hexadecimal digits in groups of
    8, 4, 4, 4 and 12. *)
Definition uuid_str (u : UUID) : string :=
  let h := hex u in
  substring 0 8 h +:+ "-" +:+ substring 8 4 h +:+ "-" +:+ substring 12 4 h
  +:+ "-" +:+ substring 16 4 h +:+ "-" +:+ substring 20 12 h.

(** The line feed, and the text of the menu (a triple-quoted literal). *)
Definition nl : string := String (ascii_of_nat 10) EmptyString.

Definition menu_text : string :=
  "=== Bank System Menu ===" +:+ nl +:+
  "1. Create New Account" +:+ nl +:+
  "2. View All Accounts" +:+ nl +:+
  "3. Search Account" +:+ nl +:+
  "4. Deposit" +:+ nl +:+
  "5. Withdraw" +:+ nl +:+
  "6. View Transactions" +:+ nl +:+
  "7. Close Account" +:+ nl +:+
  "8. Exit" +:+ nl +:+
  "========================".

(** [BankAccount.__str__] *)
Definition BankAccount_str (a : BankAccount.t) : M string :=
  let status := if BankAccount.is_closed a then "CLOSED" else "ACTIVE" in
  shown_balance <- format_int (BankAccount.balance a) ;;
  ret ("Account(" +:+ BankAccount.name a +:+ ", No."
       +:+ BankAccount.account_number a +:+ ", balance=" +:+ shown_balance
       +:+ ", status=" +:+ status +:+ ")").

(** [find_account_by_number]: the first account of the list with that
    number, or [None]. *)
Fixpoint find_account_by_number (account_number : string) (accs : list ref)
    : M (option ref) :=
  match accs with
  | [] => ret None
  | acc :: accs' =>
      num <- getattr BankAccount.account_number acc ;;
      if bool_decide (num = account_number) then ret (Some acc)
      else find_account_by_number account_number accs'
  end.

(** [list_accounts_brief] *)
Definition list_accounts_brief (accs : list ref) : M unit :=
  match accs with
  | [] => print "No accounts yet."
  | _ =>
      for_each
        (fun '(i, acc) =>
           closed <- getattr BankAccount.is_closed acc ;;
           let status := if closed : bool then "CLOSED" else "ACTIVE" in
           shown_i <- format_int (Z.of_nat i) ;;
           nm <- getattr BankAccount.name acc ;;
           num <- getattr BankAccount.account_number acc ;;
           b <- getattr BankAccount.balance acc ;;
           shown_balance <- format_int b ;;
           print (shown_i +:+ ". " +:+ nm +:+ " | No. " +:+ num
                  +:+ " | Balance: " +:+ shown_balance +:+ " | " +:+ status))
        (enumerate 1 accs)
  end.

(** How the main loop was left without an exception of the commands
    themselves: by [break] after choice 8, or because [int(..)] refused the
    text typed at an amount prompt, a [ValueError] that nothing catches. *)
Inductive ending : Type :=
  | Break
  | UncaughtValueError.

Section Menu.

(** The built-ins applied to text of the user or of the records: [int] and
    [strip] as for [create_account], [lower] for [text.lower()], [upper_text]
    for [text.upper()] and [isoformat] for [datetime.isoformat()].  What
    follows holds whatever they return. *)
Variable int : string -> option Z.
Variable strip : string -> string.
Variable lower : string -> string.
Variable upper_text : string -> string.
Variable isoformat : datetime -> string.

(** [Transaction.__str__] *)
Definition Transaction_str (t : Transaction.t) : M string :=
  shown_amount <- format_int (Transaction.amount t) ;;
  ret (isoformat (Transaction.timestamp t) +:+ " | "
       +:+ upper_text (Transaction.type t) +:+ " | "
       +:+ shown_amount +:+ " | "
       +:+ Transaction.status t +:+ " | from: "
       +:+ or_dash (Transaction.sender_name t) +:+ " to: "
       +:+ or_dash (Transaction.receiver_name t) +:+ " | id: "
       +:+ uuid_str (Transaction.id t)).

(** [BankAccount.show_transactions] *)
Definition show_transactions (self : ref) : M unit :=
  nm <- getattr BankAccount.name self ;;
  num <- getattr BankAccount.account_number self ;;
  print ("=== Transactions for " +:+ nm +:+ " (" +:+ num +:+ ") ===") ;;
  log <- getattr BankAccount.transactions self ;;
  match log with
  | [] => print "No transactions."
  | _ => for_each (fun t => line <- Transaction_str t ;; print line) log
  end ;;
  print "===============================".

(** [deactivate_account] *)
Definition deactivate_account : M unit :=
  accs <- get_accounts ;;
  list_accounts_brief accs ;;
  acc_num <- (line <- input "Enter account number to deactivate: " ;;
              ret (strip line)) ;;
  accs <- get_accounts ;;
  found <- find_account_by_number acc_num accs ;;
  match found with
  | None => print "Account not found."
  | Some acc =>
      nm <- getattr BankAccount.name acc ;;
      confirm <- (line <- input ("Are you sure you want to close " +:+ nm
                                 +:+ "? (yes/no): ") ;;
                  ret (lower line)) ;;
      if bool_decide (confirm = "yes") then close_account acc
      else print "Operation cancelled."
  end.

(** The list comprehension of the search command: the accounts, in order,
    whose lowered name or number contains [term]. *)
Fixpoint search_accounts (term : string) (accs : list ref) : M (list ref) :=
  match accs with
  | [] => ret []
  | acc :: accs' =>
      nm <- getattr BankAccount.name acc ;;
      num <- getattr BankAccount.account_number acc ;;
      found <- search_accounts term accs' ;;
      if is_substring term (lower nm) || is_substring term (lower num)
      then ret (acc :: found) else ret found
  end.

(** [main_menu]: the loop [while True].  Every round reads at least the
    choice, so as for the balance loop a budget of one round more than there
    are lines of input is never used up. *)
Fixpoint main_menu_loop (fuel : nat) : M ending :=
  match fuel with
  | O => raise OutOfFuel
  | S fuel' =>
      print (nl +:+ menu_text) ;;
      choice <- (line <- input "Enter your choice: " ;; ret (strip line)) ;;
      if bool_decide (choice = "1") then
        create_account int strip ;;
        main_menu_loop fuel'
      else if bool_decide (choice = "2") then
        accs <- get_accounts ;;
        list_accounts_brief accs ;;
        input "Press Enter to return..." ;;
        main_menu_loop fuel'
      else if bool_decide (choice = "3") then
        term <- (line <- input "Enter name or account number: " ;;
                 ret (lower (strip line))) ;;
        accs <- get_accounts ;;
        found <- search_accounts term accs ;;
        match found with
        | [] => print "No results."
        | _ => for_each (fun acc => a <- load acc ;;
                                    line <- BankAccount_str a ;; print line)
                        found
        end ;;
        input "Press Enter to return..." ;;
        main_menu_loop fuel'
      else if bool_decide (choice = "4") then
        accs <- get_accounts ;;
        list_accounts_brief accs ;;
        num <- (line <- input "Enter account number: " ;; ret (strip line)) ;;
        accs <- get_accounts ;;
        found <- find_account_by_number num accs ;;
        match found with
        | Some acc =>
            line <- input "Deposit amount: " ;;
            match int line with
            | Some amt => deposit acc amt ;; main_menu_loop fuel'
            | None => ret UncaughtValueError
            end
        | None => print "Account not found." ;; main_menu_loop fuel'
        end
      else if bool_decide (choice = "5") then
        accs <- get_accounts ;;
        list_accounts_brief accs ;;
        num <- (line <- input "Enter account number: " ;; ret (strip line)) ;;
        accs <- get_accounts ;;
        found <- find_account_by_number num accs ;;
        match found with
        | Some acc =>
            line <- input "Withdraw amount: " ;;
            match int line with
            | Some amt => withdraw acc amt ;; main_menu_loop fuel'
            | None => ret UncaughtValueError
            end
        | None => print "Account not found." ;; main_menu_loop fuel'
        end
      else if bool_decide (choice = "6") then
        accs <- get_accounts ;;
        list_accounts_brief accs ;;
        num <- (line <- input "Enter account number: " ;; ret (strip line)) ;;
        accs <- get_accounts ;;
        found <- find_account_by_number num accs ;;
        match found with
        | Some acc =>
            show_transactions acc ;;
            input "Press Enter to return..." ;;
            main_menu_loop fuel'
        | None => print "Account not found." ;; main_menu_loop fuel'
        end
      else if bool_decide (choice = "7") then
        deactivate_account ;;
        main_menu_loop fuel'
      else if bool_decide (choice = "8") then
        print "Exiting system." ;;
        ret Break
      else
        print "Invalid choice." ;;
        main_menu_loop fuel'
  end.

Definition main_menu : M ending :=
  fun w => main_menu_loop (S (length (stdin w))) w.

End Menu.

(** [text.lower()] on ASCII text, for running examples. *)
Definition lower_char (c : ascii) : ascii :=
  let n := nat_of_ascii c in
  if bool_decide (65 <= n <= 90)%nat then ascii_of_nat (n + 32) else c.

Fixpoint ascii_lower (s : string) : string :=
  match s with
  | EmptyString => EmptyString
  | String c s' => String (lower_char c) (ascii_lower s')
  end.

(** * Vocabulary of the statements *)

(** The transaction that a call of [record_transaction] builds in [w]: its
    identifier and its time stamp are the next ones that [w] hands out. *)
Definition next_transaction (w : World) (t_type : string)
    (sender_name receiver_name : option string) (amount : Z)
    (status : string) : Transaction.t :=
  Transaction.mk (entropy w (uuid_calls w)) t_type sender_name receiver_name
                 amount status (wallclock w (clock_reads w)).

(** [self.transactions.append(t)], on the object. *)
Definition log_one (t : Transaction.t) (a : BankAccount.t) : BankAccount.t :=
  BankAccount.set_transactions (BankAccount.transactions a ++ [t]) a.

(** The world after a call that logs one transaction: the object behind
    [self] has become [a'], [msgs] were printed, one identifier and one clock
    reading were used. *)
Definition committed (self : ref) (a' : BankAccount.t) (msgs : list string)
    (w : World) : World :=
  mkWorld (<[self := a']> (heap w)) (accounts w) (stdin w) (stdout w ++ msgs)
          (entropy w) (S (uuid_calls w)) (wallclock w) (S (clock_reads w)).

(** The object that [close_account] leaves behind an open account [a], given
    the transaction [t] that it logged. *)
Definition closed_from (a : BankAccount.t) (t : Transaction.t) : BankAccount.t :=
  BankAccount.mk (BankAccount.id a) (BankAccount.name a +:+ " (Closed)")
                 (BankAccount.account_number a) 0 (BankAccount.created_at a)
                 (BankAccount.transactions a ++ [t]) true.

(** ** The effect of each method on the object it is called on *)

(** The three methods, read as functions on the object: what the object
    behind [self] has become when the call returns.  [w] is the world of the
    call, which provides the identifier and the time stamp of the logged
    transaction. *)
Definition after_deposit (w : World) (a : BankAccount.t) (amount : Z)
    : BankAccount.t :=
  let nm := Some (BankAccount.name a) in
  if BankAccount.is_closed a then a
  else if bool_decide (amount <= 0) then
    log_one (next_transaction w "deposit" None nm amount "failed") a
  else
    log_one (next_transaction w "deposit" None nm amount "completed")
            (BankAccount.set_balance (BankAccount.balance a + amount) a).

Definition after_withdraw (w : World) (a : BankAccount.t) (amount : Z)
    : BankAccount.t :=
  let nm := Some (BankAccount.name a) in
  if BankAccount.is_closed a then a
  else if bool_decide (amount <= 0) then
    log_one (next_transaction w "withdraw" nm None amount "failed") a
  else if bool_decide (amount > BankAccount.balance a) then
    log_one (next_transaction w "withdraw" nm None amount "failed") a
  else
    log_one (next_transaction w "withdraw" nm None amount "completed")
            (BankAccount.set_balance (BankAccount.balance a - amount) a).

Definition after_close (w : World) (a : BankAccount.t) : BankAccount.t :=
  if BankAccount.is_closed a then a
  else closed_from a (next_transaction w "close" (Some (BankAccount.name a)) None
                                       (BankAccount.balance a) "completed").

Definition after_op (w : World) (a : BankAccount.t) (o : op) : BankAccount.t :=
  match o with
  | Deposit amount => after_deposit w a amount
  | Withdraw amount => after_withdraw w a amount
  | Close => after_close w a
  end.

(** The last line of an accepted [deposit] or [withdraw] writes the amount
    and the new balance [b].  [report] is the result of the call and what
    it prints: nothing, when one of the two integers is too long. *)
Definition report (verb : string) (amount b : Z) : (exn + unit) * list string :=
  if printable amount && printable b
  then (inr tt, [verb +:+ str amount +:+ ". New balance: " +:+ str b])
  else (inl ValueError, []).

(** The result of a call that writes integers at its end: it returned, or
    an integer was too long to be written. *)
Definition returned_or_unprintable {A : Type} (r : exn + A) : Prop :=
  match r with
  | inr _ => True
  | inl e => e = ValueError
  end.

(** A call came to its end with such a result [r], replaced the object
    behind [self] by [a'] and left the rest of the store, the list of
    accounts and the input alone. *)
Definition ends_with {A : Type} (m : M A) (w : World) (self : ref)
    (a' : BankAccount.t) (r : exn + A) (w' : World) : Prop :=
  m w = (r, w')
  /\ returned_or_unprintable r
  /\ heap w' = <[self := a']> (heap w)
  /\ accounts w' = accounts w
  /\ stdin w' = stdin w.

(** ** Account creation *)

(** The outcome of a call is a returned value, or [EOFError] because the
    input ran out; it is no exception of another kind. *)
Definition returns_or_eof {A : Type} (outcome : (exn + A) * World) : Prop :=
  match outcome.1 with
  | inr _ => True
  | inl e => e = EOFError
  end.

(** What the balance loop writes while it reads the lines [bad], none of
    which is an integer, and then one that is. *)
Fixpoint balance_dialogue (bad : list string) : list string :=
  match bad with
  | [] => ["Initial balance: "]
  | _ :: bad' => "Initial balance: " :: "Enter an integer." :: balance_dialogue bad'
  end.

(** The object that [create_account] builds in [w] from the holder name,
    the account number typed (empty for a generated one) and the initial
    balance.  A generated number uses one identifier before the account
    takes its own. *)
Definition created_account (w : World) (name typed : string) (balance : Z)
    : BankAccount.t :=
  let k := if bool_decide (typed = "") then S (uuid_calls w) else uuid_calls w in
  BankAccount.mk
    (entropy w k) name
    (if bool_decide (typed = "")
     then upper (substring 0 10 (hex (entropy w (uuid_calls w))))
     else typed)
    balance (wallclock w (clock_reads w))
    (if bool_decide (balance > 0)
     then [Transaction.mk (entropy w (S k)) "deposit" None (Some name) balance
                          "completed" (wallclock w (S (clock_reads w)))]
     else [])
    false.

(** ** The log *)

(** The log [log'] is [log] itself or [log] with one transaction appended. *)
Definition grown_by_at_most_one (log log' : list Transaction.t) : Prop :=
  log' = log \/ exists t : Transaction.t, log' = (log ++ [t])%list.

(** A call returns, or stops because an integer is too long to be written;
    either way the log of every account of the store is afterwards what it
    was or what it was with one more transaction at the end. *)
Definition appends_at_most_one {A : Type} (m : M A) (w : World) : Prop :=
  returned_or_unprintable (m w).1
  /\ forall (r : ref) (ar : BankAccount.t),
       heap w !! r = Some ar ->
       exists ar' : BankAccount.t,
         heap (m w).2 !! r = Some ar'
         /\ grown_by_at_most_one (BankAccount.transactions ar)
                                 (BankAccount.transactions ar').

(** The statement of C6 as the specification words it, for one call: the
    deposit leaves the balance alone and appends a failed transaction. *)
Definition deposit_logs_failed (w : World) (self : ref) (a : BankAccount.t)
    (amount : Z) : Prop :=
  exists (w' : World) (a' : BankAccount.t) (t : Transaction.t),
    deposit self amount w = (inr tt, w')
    /\ heap w' !! self = Some a'
    /\ BankAccount.balance a' = BankAccount.balance a
    /\ BankAccount.transactions a' = (BankAccount.transactions a ++ [t])%list
    /\ Transaction.status t = "failed".

(** ** Worlds for the examples *)

Definition alice : BankAccount.t :=
  BankAccount.init 1311768467294899695%N "Alice" "ACC-1" 100 1700000000000000.

Definition bob_closed : BankAccount.t :=
  BankAccount.mk 81985529216486895%N "Bob (Closed)" "ACC-2" 0 1700000000000001
    [Transaction.mk 3%N "deposit" None (Some "Bob") 40 "completed" 1700000000000002;
     Transaction.mk 4%N "close" (Some "Bob") None 40 "completed" 1700000000000003]
    true.

(** Two accounts in the store, Alice's open and Bob's closed; nothing typed
    and nothing printed yet. *)
Definition demo_world : World :=
  mkWorld [alice; bob_closed] [0%nat; 1%nat] [] []
          (fun k => (1000 + N.of_nat k)%N) 0
          (fun k => 1700000000000100 + Z.of_nat k) 0.

(** An empty session where the user is about to type a name, an empty
    account number, a line that is no integer and then [-50]. *)
Definition creation_world : World :=
  mkWorld [] [] ["Carol"; ""; "fifty"; "-50"] []
          (fun k => (81985529216486895 * N.of_nat (S k) * 2 ^ 60)%N) 0
          (fun k => 1700000000000100 + Z.of_nat k) 0.

(** ** The log as a ledger *)

(** What a transaction adds to the balance: a completed deposit adds its
    amount, a completed withdrawal or closure takes it away, and a failed
    transaction changes nothing. *)
Definition signed_amount (t : Transaction.t) : Z :=
  if bool_decide (Transaction.status t = "completed") then
    if bool_decide (Transaction.type t = "deposit") then Transaction.amount t
    else if bool_decide (Transaction.type t = "withdraw") then - Transaction.amount t
    else if bool_decide (Transaction.type t = "close") then - Transaction.amount t
    else 0
  else 0.

Fixpoint ledger_total (log : list Transaction.t) : Z :=
  match log with
  | [] => 0
  | t :: log' => signed_amount t + ledger_total log'
  end.

(** The part of the balance that the log does not account for. *)
Definition unlogged (a : BankAccount.t) : Z :=
  BankAccount.balance a - ledger_total (BankAccount.transactions a).

(** A transaction as the methods write them: one of three types and two
    statuses; a deposit names its receiver and no sender, the others name the
    sender and no receiver; a closure is always completed; a completed
    deposit or withdrawal has a positive amount. *)
Definition regular_transaction (t : Transaction.t) : Prop :=
  (Transaction.type t = "deposit" /\ Transaction.sender_name t = None
   /\ is_Some (Transaction.receiver_name t)
   \/ Transaction.type t = "withdraw" /\ Transaction.receiver_name t = None
      /\ is_Some (Transaction.sender_name t)
   \/ Transaction.type t = "close" /\ Transaction.receiver_name t = None
      /\ is_Some (Transaction.sender_name t)
      /\ Transaction.status t = "completed")
  /\ (Transaction.status t = "completed" \/ Transaction.status t = "failed")
  /\ (Transaction.status t = "completed" -> Transaction.type t <> "close" ->
      0 < Transaction.amount t).

(** The closure is recorded once, last, and exactly in a closed account. *)
Definition closure_recorded_last (a : BankAccount.t) : Prop :=
  if BankAccount.is_closed a then
    exists (before : list Transaction.t) (t : Transaction.t),
      BankAccount.transactions a = (before ++ [t])%list
      /\ Transaction.type t = "close"
      /\ Forall (fun t' => Transaction.type t' <> "close") before
  else
    Forall (fun t' => Transaction.type t' <> "close") (BankAccount.transactions a).

(** A text of exactly [n] characters, each a digit or a letter from A to F. *)
Fixpoint upper_hex_text (n : nat) (s : string) : Prop :=
  match n, s with
  | O, EmptyString => True
  | S n', String c s' =>
      ((48 <= nat_of_ascii c <= 57)%nat \/ (65 <= nat_of_ascii c <= 70)%nat)
      /\ upper_hex_text n' s'
  | _, _ => False
  end.

(** ** What a session may do to the store *)

(** A reference that designates an object, and a list [accounts] that holds
    such references only. *)
Definition valid (w : World) (r : ref) : Prop := is_Some (heap w !! r).

Definition registry_ok (w : World) : Prop := Forall (valid w) (accounts w).

(** What may have happened to an account between two moments: its
    identifier, number and creation time are the same; its log has grown at
    the end only; once closed it is the same object value for ever; it has
    its first name as long as it is open and that name with the closure
    marker once it is closed; the part of the balance that the log does not
    account for is the same; a balance that was not negative is not
    negative. *)
Definition account_evolves (a a' : BankAccount.t) : Prop :=
  BankAccount.id a' = BankAccount.id a
  /\ BankAccount.account_number a' = BankAccount.account_number a
  /\ BankAccount.created_at a' = BankAccount.created_at a
  /\ BankAccount.transactions a `prefix_of` BankAccount.transactions a'
  /\ (BankAccount.is_closed a = true -> a' = a)
  /\ (BankAccount.is_closed a' = false -> BankAccount.name a' = BankAccount.name a)
  /\ (BankAccount.is_closed a = false -> BankAccount.is_closed a' = true ->
      BankAccount.name a' = BankAccount.name a +:+ " (Closed)")
  /\ unlogged a' = unlogged a
  /\ (0 <= BankAccount.balance a -> 0 <= BankAccount.balance a').

(** What may have happened to the world: input was consumed from the front,
    accounts were added at the end of the list, and every object that was in
    the store is still there, evolved. *)
Definition evolves (w w' : World) : Prop :=
  stdin w' `suffix_of` stdin w
  /\ accounts w `prefix_of` accounts w'
  /\ forall (r : ref) (a : BankAccount.t),
       heap w !! r = Some a ->
       exists a' : BankAccount.t, heap w' !! r = Some a' /\ account_evolves a a'.

(** An account as the program leaves them: closed only with a zero balance,
    the closure recorded last, regular entries in the log, and a balance
    that is not more than the total of the log. *)
Definition sound_account (a : BankAccount.t) : Prop :=
  (BankAccount.is_closed a = true -> BankAccount.balance a = 0)
  /\ closure_recorded_last a
  /\ Forall regular_transaction (BankAccount.transactions a)
  /\ unlogged a <= 0.

(** A store of sound accounts with a sound registry. *)
Definition store_ok (w : World) : Prop :=
  registry_ok w /\ Forall sound_account (heap w).

(** A condition on the world that no evolution invalidates. *)
Definition stable (pre : World -> Prop) : Prop :=
  forall w w' : World, evolves w w' -> pre w -> pre w'.

(** From a world with a sound store that satisfies [pre], the call only
    makes the world evolve and keeps the store sound; it returns a value
    that satisfies [V] in the new world, or raises [EOFError] or
    [ValueError] and nothing else. *)
Definition keeps {A : Type} (pre : World -> Prop) (m : M A)
    (V : A -> World -> Prop) : Prop :=
  forall w : World,
    store_ok w -> pre w ->
    evolves w (m w).2
    /\ store_ok (m w).2
    /\ match (m w).1 with
       | inr x => V x (m w).2
       | inl e => e = EOFError \/ e = ValueError
       end.

(** The call ends with the result [r] and only writes [lines]: the rest of
    the world is the same. *)
Definition only_prints {A : Type} (m : M A) (w : World) (r : exn + A)
    (lines : list string) : Prop :=
  m w = (r, with_stdout (stdout w ++ lines) w).

(** Every number that [list_accounts_brief] has to write for the list
    [accs] can be written: the positions, which go up to the length of the
    list, and the balance of every account of the list. *)
Definition listing_printable (w : World) (accs : list ref) : Prop :=
  printable (Z.of_nat (length accs)) = true
  /\ Forall (fun r : ref =>
               exists a : BankAccount.t,
                 heap w !! r = Some a
                 /\ printable (BankAccount.balance a) = true)
            accs.

(** The line that [list_accounts_brief] writes for the account [a] at
    position [i], the text of [BankAccount.__str__] and the text of
    [Transaction.__str__], when their numbers can be written. *)
Definition account_line (i : nat) (a : BankAccount.t) : string :=
  str (Z.of_nat i) +:+ ". " +:+ BankAccount.name a +:+ " | No. "
  +:+ BankAccount.account_number a +:+ " | Balance: "
  +:+ str (BankAccount.balance a) +:+ " | "
  +:+ (if BankAccount.is_closed a then "CLOSED" else "ACTIVE").

Definition account_text (a : BankAccount.t) : string :=
  "Account(" +:+ BankAccount.name a +:+ ", No."
  +:+ BankAccount.account_number a +:+ ", balance="
  +:+ str (BankAccount.balance a) +:+ ", status="
  +:+ (if BankAccount.is_closed a then "CLOSED" else "ACTIVE") +:+ ")".

Definition transaction_line (upper_text : string -> string)
    (isoformat : datetime -> string) (t : Transaction.t) : string :=
  isoformat (Transaction.timestamp t) +:+ " | "
  +:+ upper_text (Transaction.type t) +:+ " | "
  +:+ str (Transaction.amount t) +:+ " | "
  +:+ Transaction.status t +:+ " | from: "
  +:+ or_dash (Transaction.sender_name t) +:+ " to: "
  +:+ or_dash (Transaction.receiver_name t) +:+ " | id: "
  +:+ uuid_str (Transaction.id t).

(** How a call of [create_account] in [w] may end: with [EOFError], the input
    being used up and nothing registered, or with a new object at the end of
    the store and its reference at the end of [accounts]. *)
Definition creation_outcome (w : World) (out : (exn + ref) * World) : Prop :=
  stdin out.2 `suffix_of` stdin w
  /\ (forall (r : ref) (a : BankAccount.t),
        heap w !! r = Some a -> heap out.2 !! r = Some a)
  /\ match out.1 with
     | inl e =>
         e = EOFError /\ heap out.2 = heap w /\ accounts out.2 = accounts w
         /\ stdin out.2 = []
     | inr acc =>
         acc = length (heap w)
         /\ (exists a : BankAccount.t,
               heap out.2 = (heap w ++ [a])%list /\ sound_account a)
         /\ accounts out.2 = (accounts w ++ [acc])%list
     end.

(** The object behind [r] carries the account number [num]. *)
Definition has_number (w : World) (num : string) (r : ref) : Prop :=
  exists a : BankAccount.t,
    heap w !! r = Some a /\ BankAccount.account_number a = num.

(** ** More worlds for the examples *)

(** The least natural number too long to be written: a one followed by
    [max_str_digits] zeros. *)
Definition too_long : Z := 10 ^ Z.of_nat max_str_digits.

(** A vault that holds exactly that much, alone in the store. *)
Definition vault : BankAccount.t :=
  BankAccount.init 7%N "Vault" "ACC-7" too_long 1700000000000000.

Definition vault_world : World :=
  mkWorld [vault] [0%nat] [] []
          (fun k => N.of_nat k) 0 (fun k => Z.of_nat k) 0.

(** An empty session where the user is about to open an account for Dana,
    numbered ACC-9, with 120 on it. *)
Definition opening_world : World :=
  mkWorld [] [] ["Dana"; "ACC-9"; "120"] []
          (fun k => (81985529216486895 * N.of_nat (S k) * 2 ^ 60)%N) 0
          (fun k => 1700000000000100 + 3 * Z.of_nat k) 0.

(** A session that starts with an empty store: the user opens two accounts,
    moves money, looks around, closes the first account, and leaves. *)
Definition session_world : World :=
  mkWorld [] []
          ["1"; "Alice"; "A1"; "100"; "1"; "Bob"; ""; "x"; "0"; "4"; "A1"; "50";
           "5"; "a1"; "5"; "A1"; "500"; "3"; "a"; ""; "6"; "A1"; ""; "7"; "A1";
           "YES"; "2"; ""; "9"; "4"; "A1"; "5"; "8"; "never read"] []
          (fun k => (81985529216486895 * N.of_nat (S k) * 2 ^ 60)%N) 0
          (fun k => Z.of_nat k) 0.

(** A session that starts with Bob's closed account in the store. *)
Definition bob_world : World :=
  mkWorld [bob_closed] [0%nat]
          ["4"; "ACC-2"; "10"; "7"; "ACC-2"; "yes"; "1"; "Bob"; "ACC-2"; "5";
           "4"; "ACC-2"; "ten"] []
          (fun k => N.of_nat k) 0 (fun k => Z.of_nat k) 0.

(** * Properties *)

(** ** Running the primitives *)

Lemma bind_run {A B : Type} (m : M A) (k : A -> M B) (w w' : World) (x : A) :
  m w = (inr x, w') -> bind m k w = k x w'.
Proof. intros E. unfold bind. rewrite E. reflexivity. Qed.

Lemma getattr_run {A : Type} (attr : BankAccount.t -> A) (self : ref)
    (a : BankAccount.t) (w : World) :
  heap w !! self = Some a -> getattr attr self w = (inr (attr a), w).
Proof. intros E. unfold getattr, bind, load, ret. rewrite E. reflexivity. Qed.

Lemma setattr_run (upd : BankAccount.t -> BankAccount.t) (self : ref)
    (a : BankAccount.t) (w : World) :
  heap w !! self = Some a ->
  setattr upd self w = (inr tt, with_heap (<[self := upd a]> (heap w)) w).
Proof. intros E. unfold setattr, bind, load. rewrite E. reflexivity. Qed.

Lemma heap_updated (self : ref) (a a' : BankAccount.t) (h : list BankAccount.t) :
  h !! self = Some a -> <[self := a']> h !! self = Some a'.
Proof. intros E. apply list_lookup_insert_eq. eapply lookup_lt_Some, E. Qed.

Lemma record_transaction_run (self : ref) (a : BankAccount.t) (w : World)
    (t_type : string) (sender_name receiver_name : option string)
    (amount : Z) (status : string) :
  heap w !! self = Some a ->
  let t := next_transaction w t_type sender_name receiver_name amount status in
  record_transaction self t_type sender_name receiver_name amount status w
  = (inr t,
     committed self
       (log_one t a) [] w).
Proof.
  intros E t. unfold record_transaction.
  unfold bind at 1. unfold uuid4 at 1.
  unfold bind at 1. unfold now_utc at 1.
  erewrite bind_run by (apply getattr_run; exact E).
  erewrite bind_run by (apply setattr_run; exact E).
  unfold ret, committed. cbn. rewrite app_nil_r. reflexivity.
Qed.

(** ** Integers that can be written *)

Lemma at_most_digits_le (k : nat) :
  forall n m : Z,
    0 <= n <= m -> at_most_digits k m = true -> at_most_digits k n = true.
Proof.
  induction k as [|k IH]; intros n m Hnm; cbn [at_most_digits]; [auto|].
  rewrite !orb_true_iff, !bool_decide_eq_true. intros [Hm|Hm].
  - left. lia.
  - right. apply (IH (n / 10) (m / 10)); [|exact Hm].
    split; [apply Z.div_pos; lia | apply Z.div_le_mono; lia].
Qed.

(** An integer that is not negative is printable as soon as a larger one
    is. *)
Lemma printable_le (n m : Z) :
  0 <= n <= m -> printable m = true -> printable n = true.
Proof.
  intros Hnm. unfold printable. rewrite !Z.abs_eq by lia.
  apply at_most_digits_le, Hnm.
Qed.

Lemma at_most_digits_spec (k : nat) :
  forall n : Z,
    0 <= n -> at_most_digits (S k) n = true <-> n < 10 ^ Z.of_nat (S k).
Proof.
  induction k as [|k IH]; intros n Hn.
  - change (at_most_digits 1 n) with (bool_decide (n < 10) || false).
    rewrite orb_false_r, bool_decide_eq_true.
    change (10 ^ Z.of_nat 1) with 10. reflexivity.
  - change (at_most_digits (S (S k)) n)
      with (bool_decide (n < 10) || at_most_digits (S k) (n / 10)).
    rewrite orb_true_iff, bool_decide_eq_true, IH by (apply Z.div_pos; lia).
    rewrite (Nat2Z.inj_succ (S k)), Z.pow_succ_r by lia.
    assert (Hpow : 0 < 10 ^ Z.of_nat (S k)) by (apply Z.pow_pos_nonneg; lia).
    remember (10 ^ Z.of_nat (S k)) as bound eqn:Hbound. clear Hbound.
    pose proof (Z.div_mod n 10 ltac:(lia)) as Hdiv.
    pose proof (Z.mod_pos_bound n 10 ltac:(lia)) as Hmod.
    remember (n / 10) as q eqn:Hq. remember (n mod 10) as d eqn:Hd.
    clear Hq Hd. lia.
Qed.

(** The integers that can be written are those below [too_long] in
    absolute value. *)
Lemma printable_spec (n : Z) :
  printable n = true <-> Z.abs n < too_long.
Proof.
  unfold printable, too_long. destruct max_str_digits as [|k] eqn:Hk;
    [discriminate Hk|].
  apply at_most_digits_spec. lia.
Qed.

Lemma too_long_pos : 0 < too_long.
Proof. apply Z.pow_pos_nonneg; lia. Qed.

Lemma too_long_unprintable : printable too_long = false.
Proof.
  destruct (printable too_long) eqn:Hp; [|reflexivity].
  apply printable_spec in Hp. pose proof too_long_pos. lia.
Qed.

(** ** Running the methods: one equation per path *)

Ltac lookup_now :=
  cbn [heap with_heap with_stdout committed];
  repeat (eapply heap_updated); eassumption.

Ltac run_getattr := erewrite bind_run by (apply getattr_run; lookup_now).
Ltac run_setattr := erewrite bind_run by (apply setattr_run; lookup_now).
Ltac run_record :=
  erewrite bind_run by (apply record_transaction_run; lookup_now).
Ltac run_print := unfold bind at 1; unfold print at 1.
Ltac run_done :=
  unfold ret, print, committed, next_transaction;
  cbn [heap accounts stdin stdout entropy uuid_calls wallclock clock_reads
       with_heap with_stdout andb fst snd];
  rewrite ?list_insert_insert_eq, ?app_nil_r, <- ?app_assoc;
  reflexivity.
Ltac run_raise := unfold bind at 1; unfold raise at 1; run_done.

Lemma deposit_closed_run (self : ref) (a : BankAccount.t) (w : World) (amount : Z) :
  heap w !! self = Some a -> BankAccount.is_closed a = true ->
  deposit self amount w
  = (inr tt,
     with_stdout (stdout w ++ ["This account is closed. Operation not allowed."]) w).
Proof.
  intros E C. unfold deposit. run_getattr. rewrite C. reflexivity.
Qed.

Lemma deposit_rejected_run (self : ref) (a : BankAccount.t) (w : World) (amount : Z) :
  heap w !! self = Some a -> BankAccount.is_closed a = false -> amount <= 0 ->
  let t := next_transaction w "deposit" None (Some (BankAccount.name a))
                            amount "failed" in
  deposit self amount w
  = (inr tt,
     committed self
       (log_one t a)
       ["Amount must be positive."] w).
Proof.
  intros E C Hle t. unfold deposit. run_getattr. rewrite C.
  rewrite bool_decide_eq_true_2 by exact Hle.
  run_print. run_getattr. run_record. run_done.
Qed.

Lemma deposit_accepted_run (self : ref) (a : BankAccount.t) (w : World) (amount : Z) :
  heap w !! self = Some a -> BankAccount.is_closed a = false -> 0 < amount ->
  let t := next_transaction w "deposit" None (Some (BankAccount.name a))
                            amount "completed" in
  let out := report "Deposited " amount (BankAccount.balance a + amount) in
  deposit self amount w
  = (out.1,
     committed self
       (log_one t (BankAccount.set_balance (BankAccount.balance a + amount) a))
       out.2 w).
Proof.
  intros E C Hpos t out. unfold deposit. run_getattr. rewrite C.
  rewrite bool_decide_eq_false_2 by lia.
  run_getattr. run_setattr. run_getattr. run_record.
  subst out. unfold report, format_int.
  destruct (printable amount); [|run_raise].
  unfold bind at 1. unfold ret at 1. run_getattr.
  cbn [BankAccount.balance log_one BankAccount.set_transactions
       BankAccount.set_balance].
  destruct (printable (BankAccount.balance a + amount)); [|run_raise].
  unfold bind at 1. unfold ret at 1. run_done.
Qed.

Lemma withdraw_closed_run (self : ref) (a : BankAccount.t) (w : World) (amount : Z) :
  heap w !! self = Some a -> BankAccount.is_closed a = true ->
  withdraw self amount w
  = (inr tt,
     with_stdout (stdout w ++ ["This account is closed. Operation not allowed."]) w).
Proof.
  intros E C. unfold withdraw. run_getattr. rewrite C. reflexivity.
Qed.

Lemma withdraw_nonpositive_run (self : ref) (a : BankAccount.t) (w : World)
    (amount : Z) :
  heap w !! self = Some a -> BankAccount.is_closed a = false -> amount <= 0 ->
  let t := next_transaction w "withdraw" (Some (BankAccount.name a)) None
                            amount "failed" in
  withdraw self amount w
  = (inr tt,
     committed self
       (log_one t a)
       ["Amount must be positive."] w).
Proof.
  intros E C Hle t. unfold withdraw. run_getattr. rewrite C.
  rewrite bool_decide_eq_true_2 by exact Hle.
  run_print. run_getattr. run_record. run_done.
Qed.

Lemma withdraw_insufficient_run (self : ref) (a : BankAccount.t) (w : World)
    (amount : Z) :
  heap w !! self = Some a -> BankAccount.is_closed a = false ->
  0 < amount -> amount > BankAccount.balance a ->
  let t := next_transaction w "withdraw" (Some (BankAccount.name a)) None
                            amount "failed" in
  withdraw self amount w
  = (inr tt,
     committed self
       (log_one t a)
       ["Insufficient funds."] w).
Proof.
  intros E C Hpos Hgt t. unfold withdraw. run_getattr. rewrite C.
  rewrite bool_decide_eq_false_2 by lia.
  run_getattr. rewrite bool_decide_eq_true_2 by exact Hgt.
  run_print. run_getattr. run_record. run_done.
Qed.

Lemma withdraw_accepted_run (self : ref) (a : BankAccount.t) (w : World)
    (amount : Z) :
  heap w !! self = Some a -> BankAccount.is_closed a = false ->
  0 < amount -> amount <= BankAccount.balance a ->
  let t := next_transaction w "withdraw" (Some (BankAccount.name a)) None
                            amount "completed" in
  let out := report "Withdrawn " amount (BankAccount.balance a - amount) in
  withdraw self amount w
  = (out.1,
     committed self
       (log_one t (BankAccount.set_balance (BankAccount.balance a - amount) a))
       out.2 w).
Proof.
  intros E C Hpos Hle t out. unfold withdraw. run_getattr. rewrite C.
  rewrite bool_decide_eq_false_2 by lia.
  run_getattr. rewrite bool_decide_eq_false_2 by lia.
  run_setattr. run_getattr. run_record.
  subst out. unfold report, format_int.
  destruct (printable amount); [|run_raise].
  unfold bind at 1. unfold ret at 1. run_getattr.
  cbn [BankAccount.balance log_one BankAccount.set_transactions
       BankAccount.set_balance].
  destruct (printable (BankAccount.balance a - amount)); [|run_raise].
  unfold bind at 1. unfold ret at 1. run_done.
Qed.

Lemma close_closed_run (self : ref) (a : BankAccount.t) (w : World) :
  heap w !! self = Some a -> BankAccount.is_closed a = true ->
  close_account self w
  = (inr tt, with_stdout (stdout w ++ ["Account is already closed."]) w).
Proof.
  intros E C. unfold close_account. run_getattr. rewrite C. reflexivity.
Qed.

Lemma close_open_run (self : ref) (a : BankAccount.t) (w : World) :
  heap w !! self = Some a -> BankAccount.is_closed a = false ->
  let t := next_transaction w "close" (Some (BankAccount.name a)) None
                            (BankAccount.balance a) "completed" in
  close_account self w
  = (inr tt,
     committed self (closed_from a t)
       ["Account " +:+ BankAccount.account_number a
          +:+ " has been closed and balance reset to zero."] w).
Proof.
  intros E C t. unfold close_account. run_getattr. rewrite C.
  run_getattr. run_getattr. run_record.
  run_setattr. run_setattr. run_getattr. run_setattr. run_getattr.
  run_done.
Qed.

Lemma committed_lookup (self : ref) (a a' : BankAccount.t) (msgs : list string)
    (w : World) :
  heap w !! self = Some a -> heap (committed self a' msgs w) !! self = Some a'.
Proof. intros E. cbn. eapply heap_updated, E. Qed.

Lemma committed_lookup_other (self r : ref) (a' : BankAccount.t)
    (msgs : list string) (w : World) :
  r <> self -> heap (committed self a' msgs w) !! r = heap w !! r.
Proof. intros Hne. cbn. apply list_lookup_insert_ne. congruence. Qed.

(** ** Running account creation *)

Lemma input_run (prompt line : string) (rest : list string) (w : World) :
  stdin w = line :: rest ->
  input prompt w = (inr line, with_stdin rest (with_stdout (stdout w ++ [prompt]) w)).
Proof. intros E. unfold input. cbn. rewrite E. reflexivity. Qed.

Lemma lookup_new (h : list BankAccount.t) (a : BankAccount.t) :
  (h ++ [a])%list !! length h = Some a.
Proof. apply list_lookup_middle. reflexivity. Qed.

Lemma insert_new (h : list BankAccount.t) (a a' : BankAccount.t) :
  <[length h := a']> (h ++ [a])%list = (h ++ [a'])%list.
Proof.
  rewrite insert_app_r_alt by lia. rewrite Nat.sub_diag. reflexivity.
Qed.

Section CreationFacts.

Variable int : string -> option Z.
Variable strip : string -> string.

Lemma read_initial_balance_run (bad : list string) :
  forall (fuel : nat) (w : World) (good : string) (rest : list string) (b : Z),
    stdin w = (bad ++ good :: rest)%list ->
    Forall (fun line => int line = None) bad ->
    int good = Some b ->
    (length bad < fuel)%nat ->
    read_initial_balance int fuel w
    = (inr b, with_stdin rest (with_stdout (stdout w ++ balance_dialogue bad) w)).
Proof.
  induction bad as [|line bad IH]; intros fuel w good rest b Hin Hbad Hgood Hfuel.
  - destruct fuel as [|fuel]; [lia|]. cbn [read_initial_balance].
    erewrite bind_run by (apply input_run; exact Hin).
    rewrite Hgood. reflexivity.
  - destruct fuel as [|fuel]; [cbn in Hfuel; lia|]. cbn [read_initial_balance].
    erewrite bind_run by (apply input_run; exact Hin).
    inversion Hbad as [|? ? Hline Hbad']; subst.
    rewrite Hline. run_print.
    erewrite IH; [| reflexivity | exact Hbad' | exact Hgood | cbn in Hfuel; lia].
    cbn [heap accounts stdin stdout entropy uuid_calls wallclock clock_reads
         with_stdin with_stdout balance_dialogue].
    rewrite <- !app_assoc. reflexivity.
Qed.

(** The loop never stops for lack of budget when the budget exceeds the
    number of lines left: it returns an integer or raises [EOFError]. *)
Lemma read_initial_balance_total (fuel : nat) :
  forall (w : World),
    (length (stdin w) < fuel)%nat ->
    (exists b w', read_initial_balance int fuel w = (inr b, w'))
    \/ (exists w', read_initial_balance int fuel w = (inl EOFError, w')).
Proof.
  induction fuel as [|fuel IH]; intros w Hfuel; [lia|].
  cbn [read_initial_balance].
  destruct (stdin w) as [|line rest] eqn:Hin.
  - right. unfold bind, input. cbn [stdin with_stdout]. rewrite Hin.
    eexists. reflexivity.
  - erewrite bind_run by (apply input_run; exact Hin).
    destruct (int line) as [b|].
    + left. eexists _, _. reflexivity.
    + run_print. apply IH. cbn in *. lia.
Qed.

(** The steps of [create_account] from the balance loop on. *)
Local Ltac create_tail Hbad Hgood :=
  unfold bind at 1; cbv beta;
  erewrite read_initial_balance_run;
    [| cbn; reflexivity | exact Hbad | exact Hgood
     | cbn; rewrite length_app; cbn; lia];
  unfold bind at 1; unfold uuid4 at 1;
  unfold bind at 1; unfold now_utc at 1;
  unfold bind at 1; unfold new at 1;
  unfold bind at 1; unfold accounts_append at 1;
  cbn [heap accounts stdin stdout entropy uuid_calls wallclock clock_reads
       with_heap with_stdout with_stdin with_accounts with_uuid_calls
       with_clock_reads];
  match goal with
  | |- context [bool_decide (?b > 0)] => destruct (bool_decide (b > 0))
  end;
  [ erewrite bind_run
      by (erewrite bind_run by (apply getattr_run; cbn; apply lookup_new);
          erewrite bind_run by (apply record_transaction_run; cbn; apply lookup_new);
          reflexivity)
  | unfold ret at 1; unfold bind at 1 ];
  (erewrite bind_run
     by (apply getattr_run; cbn; rewrite ?insert_new; apply lookup_new));
  run_print; unfold ret;
  (eexists; split; [reflexivity|]);
  cbn; rewrite ?insert_new; auto.

Lemma create_account_run (w : World) (line1 line2 good : string)
    (bad rest : list string) (b : Z) :
  stdin w = (line1 :: line2 :: bad ++ good :: rest)%list ->
  Forall (fun line => int line = None) bad ->
  int good = Some b ->
  exists w' : World,
    create_account int strip w = (inr (length (heap w)), w')
    /\ heap w' = (heap w ++ [created_account w (strip line1) (strip line2) b])%list
    /\ accounts w' = (accounts w ++ [length (heap w)])%list
    /\ stdin w' = rest.
Proof.
  intros Hin Hbad Hgood. unfold create_account. run_print.
  erewrite bind_run
    by (erewrite bind_run by (apply input_run; cbn; exact Hin); reflexivity).
  erewrite bind_run
    by (erewrite bind_run by (apply input_run; cbn; reflexivity); reflexivity).
  unfold created_account.
  destruct (bool_decide (strip line2 = "")) eqn:Hgen.
  - unfold bind at 1. unfold bind at 1. unfold uuid4 at 1.
    run_print. unfold ret at 1. create_tail Hbad Hgood.
  - unfold ret at 1. unfold bind at 1. create_tail Hbad Hgood.
Qed.

(** [create_account] always comes to an end: it returns the new account, or
    the input ran out and [EOFError] is raised.  The budget of the balance
    loop is never the reason to stop, and no reference dangles. *)
Lemma create_account_total (w : World) :
  returns_or_eof (create_account int strip w).
Proof.
  unfold create_account. run_print.
  destruct (stdin w) as [|line1 [|line2 rest]] eqn:Hin.
  - unfold bind, input. cbn. rewrite Hin. reflexivity.
  - erewrite bind_run
      by (erewrite bind_run by (apply input_run; cbn; exact Hin); reflexivity).
    unfold bind, input. cbn. reflexivity.
  - erewrite bind_run
      by (erewrite bind_run by (apply input_run; cbn; exact Hin); reflexivity).
    erewrite bind_run
      by (erewrite bind_run by (apply input_run; cbn; reflexivity); reflexivity).
    assert (Htail : forall (number : string) (w0 : World),
      returns_or_eof
        ((balance <- (fun w => read_initial_balance int (S (length (stdin w))) w) ;;
          u <- uuid4 ;;
          ts <- now_utc ;;
          acc <- new (BankAccount.init u (strip line1) number balance ts) ;;
          accounts_append acc ;;
          (if bool_decide (balance > 0) then
             nm <- getattr BankAccount.name acc ;;
             record_transaction acc "deposit" None (Some nm) balance "completed" ;;
             ret tt
           else ret tt) ;;
          num <- getattr BankAccount.account_number acc ;;
          print ("Account " +:+ num +:+ " created successfully.") ;;
          ret acc) w0)).
    { intros number w0. unfold bind at 1. cbv beta.
      destruct (read_initial_balance_total (S (length (stdin w0))) w0)
        as [(b & w1 & Hb)|(w1 & He)]; [lia | rewrite Hb | rewrite He].
      - unfold bind at 1; unfold uuid4 at 1.
        unfold bind at 1; unfold now_utc at 1.
        unfold bind at 1; unfold new at 1.
        unfold bind at 1; unfold accounts_append at 1.
        cbn [heap accounts stdin stdout entropy uuid_calls wallclock clock_reads
             with_heap with_accounts with_uuid_calls with_clock_reads].
        destruct (bool_decide (b > 0)).
        + erewrite bind_run
            by (erewrite bind_run by (apply getattr_run; cbn; apply lookup_new);
                erewrite bind_run
                  by (apply record_transaction_run; cbn; apply lookup_new);
                reflexivity).
          erewrite bind_run
            by (apply getattr_run; cbn; rewrite insert_new; apply lookup_new).
          run_print. exact I.
        + unfold ret at 1. unfold bind at 1.
          erewrite bind_run by (apply getattr_run; cbn; apply lookup_new).
          run_print. exact I.
      - reflexivity. }
    destruct (bool_decide (strip line2 = "")).
    + unfold bind at 1. unfold bind at 1. unfold uuid4 at 1.
      run_print. unfold ret at 1. apply Htail.
    + unfold ret at 1. unfold bind at 1. apply Htail.
Qed.

End CreationFacts.

Lemma ends_with_lookup {A : Type} (m : M A) (w w' : World) (self : ref)
    (a a' : BankAccount.t) (r : exn + A) :
  heap w !! self = Some a -> ends_with m w self a' r w' ->
  heap w' !! self = Some a'.
Proof.
  intros E (_ & _ & Hh & _). rewrite Hh. eapply heap_updated, E.
Qed.

Lemma ends_with_other {A : Type} (m : M A) (w w' : World) (self r : ref)
    (a' : BankAccount.t) (res : exn + A) :
  r <> self -> ends_with m w self a' res w' -> heap w' !! r = heap w !! r.
Proof.
  intros Hne (_ & _ & Hh & _). rewrite Hh. apply list_lookup_insert_ne. congruence.
Qed.

Lemma printed_ends (m : M unit) (w : World) (self : ref) (a : BankAccount.t)
    (msg : string) :
  heap w !! self = Some a ->
  m w = (inr tt, with_stdout (stdout w ++ [msg]) w) ->
  ends_with m w self a (inr tt) (with_stdout (stdout w ++ [msg]) w).
Proof.
  intros E Hrun. repeat split; [exact Hrun|].
  cbn. symmetry. apply list_insert_id, E.
Qed.

Lemma committed_ends {A : Type} (m : M A) (w : World) (self : ref)
    (a' : BankAccount.t) (msgs : list string) (r : exn + A) :
  m w = (r, committed self a' msgs w) ->
  returned_or_unprintable r ->
  ends_with m w self a' r (committed self a' msgs w).
Proof. intros Hrun Hr. repeat split; assumption. Qed.

Lemma report_result (verb : string) (amount b : Z) :
  returned_or_unprintable (report verb amount b).1.
Proof. unfold report. destruct (printable amount && printable b); reflexivity. Qed.

Lemma deposit_summary (w : World) (self : ref) (a : BankAccount.t) (amount : Z) :
  heap w !! self = Some a ->
  exists (r : exn + unit) (w' : World),
    ends_with (deposit self amount) w self (after_deposit w a amount) r w'.
Proof.
  intros E. unfold after_deposit.
  destruct (BankAccount.is_closed a) eqn:C.
  - eexists _, _. eapply printed_ends; [exact E|].
    eapply deposit_closed_run; eassumption.
  - case_bool_decide as Hle; eexists _, _; eapply committed_ends.
    + apply deposit_rejected_run; assumption.
    + exact I.
    + apply deposit_accepted_run; [assumption..|lia].
    + apply report_result.
Qed.

Lemma withdraw_summary (w : World) (self : ref) (a : BankAccount.t) (amount : Z) :
  heap w !! self = Some a ->
  exists (r : exn + unit) (w' : World),
    ends_with (withdraw self amount) w self (after_withdraw w a amount) r w'.
Proof.
  intros E. unfold after_withdraw.
  destruct (BankAccount.is_closed a) eqn:C.
  - eexists _, _. eapply printed_ends; [exact E|].
    eapply withdraw_closed_run; eassumption.
  - case_bool_decide as Hle; [|case_bool_decide as Hgt];
      eexists _, _; eapply committed_ends.
    + apply withdraw_nonpositive_run; assumption.
    + exact I.
    + apply withdraw_insufficient_run; [assumption..|lia|assumption].
    + exact I.
    + apply withdraw_accepted_run; [assumption..|lia|lia].
    + apply report_result.
Qed.

Lemma close_summary (w : World) (self : ref) (a : BankAccount.t) :
  heap w !! self = Some a ->
  exists w' : World,
    ends_with (close_account self) w self (after_close w a) (inr tt) w'.
Proof.
  intros E. unfold after_close.
  destruct (BankAccount.is_closed a) eqn:C.
  - eexists. eapply printed_ends; [exact E|].
    eapply close_closed_run; eassumption.
  - eexists; eapply committed_ends; [|exact I].
    apply close_open_run; assumption.
Qed.

Lemma run_op_summary (w : World) (self : ref) (a : BankAccount.t) (o : op) :
  heap w !! self = Some a ->
  exists (r : exn + unit) (w' : World),
    ends_with (run_op self o) w self (after_op w a o) r w'.
Proof.
  intros E. destruct o as [amount|amount|]; cbn [run_op after_op].
  - apply deposit_summary, E.
  - apply withdraw_summary, E.
  - eexists. apply close_summary, E.
Qed.

(** ** Sequences of calls *)

(** A sequence of calls stops at the first one that does not return.  A
    relation between the object before and after one call that is
    reflexive and transitive extends to every sequence of calls, however it
    ends; the other objects of the store are not touched. *)
Lemma run_ops_related (R : BankAccount.t -> BankAccount.t -> Prop) :
  (forall a, R a a) ->
  (forall a b c, R a b -> R b c -> R a c) ->
  (forall w a o, R a (after_op w a o)) ->
  forall (os : list op) (w : World) (self : ref) (a : BankAccount.t),
    heap w !! self = Some a ->
    exists (r : exn + unit) (w' : World) (a' : BankAccount.t),
      run_ops self os w = (r, w')
      /\ returned_or_unprintable r
      /\ heap w' !! self = Some a'
      /\ R a a'
      /\ (forall r : ref, r <> self -> heap w' !! r = heap w !! r).
Proof.
  intros Hrefl Htrans Hstep os.
  induction os as [|o os IH]; intros w self a E.
  - exists (inr tt), w, a. repeat split; auto.
  - destruct (run_op_summary w self a o E) as (r1 & w1 & Hret).
    pose proof (ends_with_lookup _ _ _ _ _ _ _ E Hret) as E1.
    destruct Hret as (Hrun & Hr1 & Hh & _).
    assert (Hfar : forall r : ref, r <> self -> heap w1 !! r = heap w !! r).
    { intros r Hne. rewrite Hh. apply list_lookup_insert_ne. congruence. }
    cbn [run_ops]. destruct r1 as [e|[]].
    + exists (inl e), w1, (after_op w a o).
      unfold bind. rewrite Hrun. repeat split; auto.
    + destruct (IH w1 self _ E1) as (r & w' & a' & Hrun' & Hr & E' & HR & Hothers).
      exists r, w', a'. erewrite bind_run by exact Hrun.
      repeat split; [exact Hrun' | exact Hr | exact E' | eauto |].
      intros r' Hne. rewrite Hothers by exact Hne. apply Hfar, Hne.
Qed.

(** A property of the object that every call preserves holds after every
    sequence of calls. *)
Lemma run_ops_invariant (P : BankAccount.t -> Prop) :
  (forall w a o, P a -> P (after_op w a o)) ->
  forall (os : list op) (w : World) (self : ref) (a : BankAccount.t),
    heap w !! self = Some a -> P a ->
    exists (r : exn + unit) (w' : World) (a' : BankAccount.t),
      run_ops self os w = (r, w') /\ heap w' !! self = Some a' /\ P a'.
Proof.
  intros Hstep os w self a E HP.
  destruct (run_ops_related (fun a a' => P a -> P a')) with (os := os) (w := w)
    (self := self) (a := a) as (r & w' & a' & Hrun & _ & E' & HR & _); auto.
  exists r, w', a'. auto.
Qed.

(** ** The balance *)

Lemma after_op_nonneg (w : World) (a : BankAccount.t) (o : op) :
  0 <= BankAccount.balance a -> 0 <= BankAccount.balance (after_op w a o).
Proof.
  intros Hnn. destruct o as [amount|amount|]; cbn [after_op];
    unfold after_deposit, after_withdraw, after_close;
    destruct (BankAccount.is_closed a); repeat case_bool_decide; cbn; lia.
Qed.

(** From a non-negative balance no sequence of deposits, withdrawals and
    closures reaches a negative one. *)
Lemma run_ops_nonneg (os : list op) (w : World) (self : ref) (a : BankAccount.t) :
  heap w !! self = Some a -> 0 <= BankAccount.balance a ->
  exists (r : exn + unit) (w' : World) (a' : BankAccount.t),
    run_ops self os w = (r, w') /\ heap w' !! self = Some a'
    /\ 0 <= BankAccount.balance a'.
Proof.
  apply (run_ops_invariant (fun a => 0 <= BankAccount.balance a)).
  intros; apply after_op_nonneg; assumption.
Qed.

(** A closed account has a zero balance, provided it had when the sequence
    started (as a new account has: it is open). *)
Lemma after_op_closed_zero (w : World) (a : BankAccount.t) (o : op) :
  (BankAccount.is_closed a = true -> BankAccount.balance a = 0) ->
  BankAccount.is_closed (after_op w a o) = true ->
  BankAccount.balance (after_op w a o) = 0.
Proof.
  intros Hinv. destruct o as [amount|amount|]; cbn [after_op];
    unfold after_deposit, after_withdraw, after_close;
    destruct (BankAccount.is_closed a) eqn:C; repeat case_bool_decide; cbn;
    auto; congruence.
Qed.

Lemma run_ops_closed_zero (os : list op) (w : World) (self : ref)
    (a : BankAccount.t) :
  heap w !! self = Some a ->
  (BankAccount.is_closed a = true -> BankAccount.balance a = 0) ->
  exists (r : exn + unit) (w' : World) (a' : BankAccount.t),
    run_ops self os w = (r, w') /\ heap w' !! self = Some a'
    /\ (BankAccount.is_closed a' = true -> BankAccount.balance a' = 0).
Proof.
  apply (run_ops_invariant
           (fun a => BankAccount.is_closed a = true -> BankAccount.balance a = 0)).
  intros; apply after_op_closed_zero; assumption.
Qed.

(** * The claims *)

(** C2.  On an open account, [deposit(amount)] with [amount > 0] increases
    the balance by exactly [amount] and appends exactly one transaction to
    the log: a deposit, completed, of that amount, whose receiver is the
    name of the account holder and whose sender is none.  The call then
    returns, unless the amount or the new balance has more digits than can
    be written: the message that reports them then raises [ValueError],
    with the balance and the log already updated. *)
Theorem deposit_open_positive (w : World) (self : ref) (a : BankAccount.t)
    (amount : Z) :
  heap w !! self = Some a ->
  BankAccount.is_closed a = false ->
  amount > 0 ->
  exists (r : exn + unit) (w' : World) (a' : BankAccount.t) (t : Transaction.t),
    deposit self amount w = (r, w')
    /\ r = (if printable amount && printable (BankAccount.balance a + amount)
            then inr tt else inl ValueError)
    /\ heap w' !! self = Some a'
    /\ BankAccount.balance a' = BankAccount.balance a + amount
    /\ BankAccount.transactions a' = (BankAccount.transactions a ++ [t])%list
    /\ Transaction.type t = "deposit"
    /\ Transaction.status t = "completed"
    /\ Transaction.amount t = amount
    /\ Transaction.receiver_name t = Some (BankAccount.name a)
    /\ Transaction.sender_name t = None.
Proof.
  intros E C Hpos.
  eexists _, _, _, _. split.
  - apply deposit_accepted_run; [exact E | exact C | lia].
  - split; [unfold report; destruct (_ && _); reflexivity|].
    split; [eapply committed_lookup, E|]. cbn. repeat split.
Qed.

Lemma deposit_open_positive_witness :
  exists (w' : World) (a' : BankAccount.t) (t : Transaction.t),
    deposit 0 50 demo_world = (inr tt, w')
    /\ heap w' !! 0%nat = Some a'
    /\ BankAccount.balance a' = BankAccount.balance alice + 50
    /\ BankAccount.transactions a' = (BankAccount.transactions alice ++ [t])%list
    /\ Transaction.type t = "deposit"
    /\ Transaction.status t = "completed"
    /\ Transaction.amount t = 50
    /\ Transaction.receiver_name t = Some (BankAccount.name alice)
    /\ Transaction.sender_name t = None.
Proof.
  destruct (deposit_open_positive demo_world 0 alice 50)
    as (r & w' & a' & t & Hrun & Hr & Hstore);
    [reflexivity | reflexivity | lia |].
  exists w', a', t. split; [rewrite Hrun, Hr; reflexivity | exact Hstore].
Defined.

(** C3.  On an open account, [withdraw(amount)] with [0 < amount <= balance]
    decreases the balance by exactly [amount] and appends one completed
    withdraw transaction of that amount whose sender is the account holder
    and whose receiver is none; the call then returns, unless the amount or
    the new balance has more digits than can be written, in which case the
    message that reports them raises [ValueError] with the balance and the
    log already updated.  With [amount > balance] the call returns, leaves
    the balance as it is and appends one failed transaction. *)
Theorem withdraw_open (w : World) (self : ref) (a : BankAccount.t) (amount : Z) :
  heap w !! self = Some a ->
  BankAccount.is_closed a = false ->
  (0 < amount <= BankAccount.balance a ->
   exists (r : exn + unit) (w' : World) (a' : BankAccount.t) (t : Transaction.t),
     withdraw self amount w = (r, w')
     /\ r = (if printable amount && printable (BankAccount.balance a - amount)
             then inr tt else inl ValueError)
     /\ heap w' !! self = Some a'
     /\ BankAccount.balance a' = BankAccount.balance a - amount
     /\ BankAccount.transactions a' = (BankAccount.transactions a ++ [t])%list
     /\ Transaction.type t = "withdraw"
     /\ Transaction.status t = "completed"
     /\ Transaction.amount t = amount
     /\ Transaction.sender_name t = Some (BankAccount.name a)
     /\ Transaction.receiver_name t = None)
  /\ (amount > BankAccount.balance a ->
      exists (w' : World) (a' : BankAccount.t) (t : Transaction.t),
        withdraw self amount w = (inr tt, w')
        /\ heap w' !! self = Some a'
        /\ BankAccount.balance a' = BankAccount.balance a
        /\ BankAccount.transactions a' = (BankAccount.transactions a ++ [t])%list
        /\ Transaction.type t = "withdraw"
        /\ Transaction.status t = "failed").
Proof.
  intros E C. split.
  - intros [Hpos Hle]. eexists _, _, _, _. split.
    + apply withdraw_accepted_run; [exact E | exact C | lia | lia].
    + split; [unfold report; destruct (_ && _); reflexivity|].
      split; [eapply committed_lookup, E|]. cbn. repeat split.
  - intros Hgt. destruct (Z_le_gt_dec amount 0) as [Hle|Hpos].
    + eexists _, _, _. split.
      * apply withdraw_nonpositive_run; [exact E | exact C | exact Hle].
      * split; [eapply committed_lookup, E|]. cbn. repeat split.
    + eexists _, _, _. split.
      * apply withdraw_insufficient_run; [exact E | exact C | lia | exact Hgt].
      * split; [eapply committed_lookup, E|]. cbn. repeat split.
Qed.

Lemma withdraw_open_witness :
  (exists (w' : World) (a' : BankAccount.t) (t : Transaction.t),
     withdraw 0 30 demo_world = (inr tt, w')
     /\ heap w' !! 0%nat = Some a'
     /\ BankAccount.balance a' = 70
     /\ BankAccount.transactions a' = [t]
     /\ Transaction.status t = "completed")
  /\ (exists (w' : World) (a' : BankAccount.t) (t : Transaction.t),
        withdraw 0 200 demo_world = (inr tt, w')
        /\ heap w' !! 0%nat = Some a'
        /\ BankAccount.balance a' = 100
        /\ BankAccount.transactions a' = [t]
        /\ Transaction.status t = "failed").
Proof.
  split.
  - destruct (withdraw_open demo_world 0 alice 30) as [Hok _];
      [reflexivity | reflexivity |].
    destruct Hok as (r & w' & a' & t & Hrun & Hr & E' & Hb & Hlog & _ & Hst & _);
      [cbn; lia|].
    exists w', a', t. rewrite Hrun, Hr. auto.
  - destruct (withdraw_open demo_world 0 alice 200) as [_ Hko];
      [reflexivity | reflexivity |].
    destruct Hko as (w' & a' & t & Hrun & E' & Hb & Hlog & _ & Hst);
      [cbn; lia|].
    exists w', a', t. auto.
Defined.

(** C4.  Closing an open account appends exactly one completed close
    transaction whose amount is the balance before the call, sets the
    balance to 0, sets the closed flag and appends the marker [" (Closed)"]
    to the name.  Closing it again prints a message and nothing else: the
    store, the identifiers and clock readings used, and the input are the
    same, so no transaction is appended and no object changes. *)
Theorem close_account_then_again (w : World) (self : ref) (a : BankAccount.t) :
  heap w !! self = Some a ->
  BankAccount.is_closed a = false ->
  exists (w' : World) (a' : BankAccount.t) (t : Transaction.t),
    close_account self w = (inr tt, w')
    /\ heap w' !! self = Some a'
    /\ BankAccount.transactions a' = (BankAccount.transactions a ++ [t])%list
    /\ Transaction.type t = "close"
    /\ Transaction.status t = "completed"
    /\ Transaction.amount t = BankAccount.balance a
    /\ BankAccount.balance a' = 0
    /\ BankAccount.is_closed a' = true
    /\ BankAccount.name a' = BankAccount.name a +:+ " (Closed)"
    /\ close_account self w'
       = (inr tt, with_stdout (stdout w' ++ ["Account is already closed."]) w').
Proof.
  intros E C.
  eexists _, _, _. split; [apply close_open_run; [exact E | exact C]|].
  split; [eapply committed_lookup, E|].
  repeat split.
  eapply close_closed_run; [eapply committed_lookup, E | reflexivity].
Qed.

Lemma close_account_then_again_witness :
  exists (w' : World) (a' : BankAccount.t) (t : Transaction.t),
    close_account 0 demo_world = (inr tt, w')
    /\ heap w' !! 0%nat = Some a'
    /\ BankAccount.transactions a' = [t]
    /\ Transaction.type t = "close"
    /\ Transaction.status t = "completed"
    /\ Transaction.amount t = 100
    /\ BankAccount.balance a' = 0
    /\ BankAccount.is_closed a' = true
    /\ BankAccount.name a' = "Alice (Closed)"
    /\ close_account 0 w'
       = (inr tt, with_stdout (stdout w' ++ ["Account is already closed."]) w').
Proof.
  apply (close_account_then_again demo_world 0 alice); reflexivity.
Defined.

(** On a closed account every sequence of calls leaves the store, and the
    numbers of identifiers and clock readings used, as they were. *)
Lemma run_ops_closed (os : list op) :
  forall (w : World) (self : ref) (a : BankAccount.t),
    heap w !! self = Some a ->
    BankAccount.is_closed a = true ->
    exists w' : World,
      run_ops self os w = (inr tt, w')
      /\ heap w' = heap w
      /\ uuid_calls w' = uuid_calls w
      /\ clock_reads w' = clock_reads w.
Proof.
  induction os as [|o os IH]; intros w self a E C.
  - exists w. repeat split.
  - assert (exists msg, run_op self o w
                        = (inr tt, with_stdout (stdout w ++ [msg]) w))
      as (msg & Hrun).
    { destruct o as [amount|amount|]; eexists; cbn [run_op].
      - eapply deposit_closed_run; eassumption.
      - eapply withdraw_closed_run; eassumption.
      - eapply close_closed_run; eassumption. }
    destruct (IH (with_stdout (stdout w ++ [msg]) w) self a E C)
      as (w' & Hrest & Hh & Hu & Hc).
    exists w'. cbn [run_ops]. erewrite bind_run by exact Hrun.
    repeat split; assumption.
Qed.

(** C5.  On a closed account, [deposit(amount)], [withdraw(amount)] and
    [close_account()] each return normally and leave the whole store as it
    was: the object is the same, so its balance (which [close_account] set to
    0) and its log are the same, and no identifier or clock reading was used
    to build a transaction.  The same holds after any sequence of such
    calls. *)
Theorem closed_account_frozen (w : World) (self : ref) (a : BankAccount.t)
    (amount : Z) :
  heap w !! self = Some a ->
  BankAccount.is_closed a = true ->
  (exists w1 w2 w3 : World,
     deposit self amount w = (inr tt, w1)
     /\ withdraw self amount w = (inr tt, w2)
     /\ close_account self w = (inr tt, w3)
     /\ Forall (fun w' : World =>
                  heap w' = heap w
                  /\ heap w' !! self = Some a
                  /\ uuid_calls w' = uuid_calls w
                  /\ clock_reads w' = clock_reads w)
               [w1; w2; w3])
  /\ (forall os : list op,
        exists w' : World,
          run_ops self os w = (inr tt, w')
          /\ heap w' !! self = Some a
          /\ uuid_calls w' = uuid_calls w
          /\ clock_reads w' = clock_reads w).
Proof.
  intros E C. split.
  - eexists _, _, _.
    split; [eapply deposit_closed_run; eassumption|].
    split; [eapply withdraw_closed_run; eassumption|].
    split; [eapply close_closed_run; eassumption|].
    repeat constructor; exact E.
  - intros os. destruct (run_ops_closed os w self a E C) as (w' & Hrun & Hh & Hu & Hc).
    exists w'. rewrite Hh. auto.
Qed.

Lemma closed_account_frozen_witness :
  (exists w1 w2 w3 : World,
     deposit 1 25 demo_world = (inr tt, w1)
     /\ withdraw 1 25 demo_world = (inr tt, w2)
     /\ close_account 1 demo_world = (inr tt, w3)
     /\ Forall (fun w' : World =>
                  heap w' = heap demo_world
                  /\ heap w' !! 1%nat = Some bob_closed
                  /\ uuid_calls w' = uuid_calls demo_world
                  /\ clock_reads w' = clock_reads demo_world)
               [w1; w2; w3])
  /\ (forall os : list op,
        exists w' : World,
          run_ops 1 os demo_world = (inr tt, w')
          /\ heap w' !! 1%nat = Some bob_closed
          /\ uuid_calls w' = uuid_calls demo_world
          /\ clock_reads w' = clock_reads demo_world).
Proof.
  apply (closed_account_frozen demo_world 1 bob_closed 25); reflexivity.
Defined.

(** C6, counterexample.  Bob's account is closed, and depositing 25 into it
    appends nothing: the log still holds the initial deposit and the close
    transaction, and no third one. *)
Lemma deposit_on_closed_logs_failed_fails :
  heap demo_world !! 1%nat = Some bob_closed
  /\ BankAccount.is_closed bob_closed = true
  /\ ~ deposit_logs_failed demo_world 1 bob_closed 25.
Proof.
  split; [reflexivity|]. split; [reflexivity|].
  intros (w' & a' & t & Hrun & E' & _ & Hlog & _).
  rewrite (deposit_closed_run 1 bob_closed demo_world 25 eq_refl eq_refl) in Hrun.
  injection Hrun as <-. cbn in E'. injection E' as <-.
  discriminate Hlog.
Qed.

(** C6, as the code has it.  On a closed account [deposit(amount)] returns
    normally, prints that the account is closed and stops there: the balance
    is the same and the log is the same, no transaction (failed or
    completed) being appended. *)
Theorem deposit_on_closed_logs_nothing (w : World) (self : ref)
    (a : BankAccount.t) (amount : Z) :
  heap w !! self = Some a ->
  BankAccount.is_closed a = true ->
  exists (w' : World) (a' : BankAccount.t),
    deposit self amount w = (inr tt, w')
    /\ heap w' !! self = Some a'
    /\ BankAccount.balance a' = BankAccount.balance a
    /\ BankAccount.transactions a' = BankAccount.transactions a
    /\ stdout w' = (stdout w ++ ["This account is closed. Operation not allowed."])%list.
Proof.
  intros E C. eexists _, a.
  split; [eapply deposit_closed_run; eassumption|].
  repeat split. exact E.
Qed.

Lemma deposit_on_closed_logs_nothing_witness :
  exists (w' : World) (a' : BankAccount.t),
    deposit 1 25 demo_world = (inr tt, w')
    /\ heap w' !! 1%nat = Some a'
    /\ BankAccount.balance a' = BankAccount.balance bob_closed
    /\ BankAccount.transactions a' = BankAccount.transactions bob_closed
    /\ stdout w'
       = (stdout demo_world ++ ["This account is closed. Operation not allowed."])%list.
Proof.
  apply (deposit_on_closed_logs_nothing demo_world 1 bob_closed 25); reflexivity.
Defined.

(** C7.  On an open account, [deposit(amount)] with [amount <= 0] returns
    normally (no exception), leaves the balance as it is and appends exactly
    one transaction, whose status is failed; so does [withdraw(amount)]. *)
Theorem nonpositive_amount_fails_quietly (w : World) (self : ref)
    (a : BankAccount.t) (amount : Z) :
  heap w !! self = Some a ->
  BankAccount.is_closed a = false ->
  amount <= 0 ->
  (exists (w' : World) (a' : BankAccount.t) (t : Transaction.t),
     deposit self amount w = (inr tt, w')
     /\ heap w' !! self = Some a'
     /\ BankAccount.balance a' = BankAccount.balance a
     /\ BankAccount.transactions a' = (BankAccount.transactions a ++ [t])%list
     /\ Transaction.type t = "deposit"
     /\ Transaction.status t = "failed")
  /\ (exists (w' : World) (a' : BankAccount.t) (t : Transaction.t),
        withdraw self amount w = (inr tt, w')
        /\ heap w' !! self = Some a'
        /\ BankAccount.balance a' = BankAccount.balance a
        /\ BankAccount.transactions a' = (BankAccount.transactions a ++ [t])%list
        /\ Transaction.type t = "withdraw"
        /\ Transaction.status t = "failed").
Proof.
  intros E C Hle. split; eexists _, _, _; (split; [|split]).
  - apply deposit_rejected_run; [exact E | exact C | exact Hle].
  - eapply committed_lookup, E.
  - repeat split.
  - apply withdraw_nonpositive_run; [exact E | exact C | exact Hle].
  - eapply committed_lookup, E.
  - repeat split.
Qed.

Lemma nonpositive_amount_fails_quietly_witness :
  (exists (w' : World) (a' : BankAccount.t) (t : Transaction.t),
     deposit 0 (-5) demo_world = (inr tt, w')
     /\ heap w' !! 0%nat = Some a'
     /\ BankAccount.balance a' = BankAccount.balance alice
     /\ BankAccount.transactions a' = (BankAccount.transactions alice ++ [t])%list
     /\ Transaction.type t = "deposit"
     /\ Transaction.status t = "failed")
  /\ (exists (w' : World) (a' : BankAccount.t) (t : Transaction.t),
        withdraw 0 (-5) demo_world = (inr tt, w')
        /\ heap w' !! 0%nat = Some a'
        /\ BankAccount.balance a' = BankAccount.balance alice
        /\ BankAccount.transactions a' = (BankAccount.transactions alice ++ [t])%list
        /\ Transaction.type t = "withdraw"
        /\ Transaction.status t = "failed").
Proof.
  apply (nonpositive_amount_fails_quietly demo_world 0 alice (-5));
    [reflexivity | reflexivity | lia].
Defined.

Lemma after_op_log (w : World) (a : BankAccount.t) (o : op) :
  grown_by_at_most_one (BankAccount.transactions a)
                       (BankAccount.transactions (after_op w a o)).
Proof.
  destruct o as [amount|amount|]; cbn [after_op];
    unfold after_deposit, after_withdraw, after_close;
    destruct (BankAccount.is_closed a); repeat case_bool_decide;
    (left; reflexivity) || (right; eexists; reflexivity).
Qed.

Lemma ends_with_appends {A : Type} (m : M A) (w w' : World) (self : ref)
    (a a' : BankAccount.t) (res : exn + A) :
  heap w !! self = Some a ->
  ends_with m w self a' res w' ->
  grown_by_at_most_one (BankAccount.transactions a) (BankAccount.transactions a') ->
  appends_at_most_one m w.
Proof.
  intros E Hret Hlog.
  pose proof (ends_with_lookup _ _ _ _ _ _ _ E Hret) as E'.
  destruct Hret as (Hrun & Hres & Hh & _).
  unfold appends_at_most_one. rewrite Hrun. split; [exact Hres|].
  cbn [snd]. intros r ar Er. destruct (decide (r = self)) as [->|Hne].
  - exists a'. split; [exact E'|]. congruence.
  - exists ar. split; [|left; reflexivity].
    rewrite Hh, list_lookup_insert_ne by congruence. exact Er.
Qed.

(** C8.  Each of [deposit], [withdraw], [close_account] and
    [record_transaction] leaves the log of every account unchanged or with
    exactly one new transaction at the end, whether the call returns or
    stops at an integer too long to be written; over any sequence of calls,
    which ends with the first call that does not return, the log that was
    there is still there, in the same order, at the front of the new
    log. *)
Theorem log_append_only (w : World) (self : ref) (a : BankAccount.t) :
  heap w !! self = Some a ->
  (forall amount : Z, appends_at_most_one (deposit self amount) w)
  /\ (forall amount : Z, appends_at_most_one (withdraw self amount) w)
  /\ appends_at_most_one (close_account self) w
  /\ (forall (t_type : string) (sender_name receiver_name : option string)
             (amount : Z) (status : string),
        appends_at_most_one
          (record_transaction self t_type sender_name receiver_name amount status) w
        /\ exists (t : Transaction.t) (w' : World) (a' : BankAccount.t),
             record_transaction self t_type sender_name receiver_name amount status w
             = (inr t, w')
             /\ heap w' !! self = Some a'
             /\ BankAccount.transactions a' = (BankAccount.transactions a ++ [t])%list)
  /\ (forall os : list op,
        exists (r : exn + unit) (w' : World) (a' : BankAccount.t)
               (added : list Transaction.t),
          run_ops self os w = (r, w')
          /\ returned_or_unprintable r
          /\ heap w' !! self = Some a'
          /\ BankAccount.transactions a' = (BankAccount.transactions a ++ added)%list
          /\ forall r : ref, r <> self -> heap w' !! r = heap w !! r).
Proof.
  intros E. split; [|split; [|split; [|split]]].
  - intros amount. destruct (deposit_summary w self a amount E) as (r & w' & Hret).
    eapply ends_with_appends; [exact E | exact Hret |].
    apply (after_op_log w a (Deposit amount)).
  - intros amount. destruct (withdraw_summary w self a amount E) as (r & w' & Hret).
    eapply ends_with_appends; [exact E | exact Hret |].
    apply (after_op_log w a (Withdraw amount)).
  - destruct (close_summary w self a E) as (w' & Hret).
    eapply ends_with_appends; [exact E | exact Hret |].
    apply (after_op_log w a Close).
  - intros t_type sender_name receiver_name amount status. split.
    + eapply ends_with_appends; [exact E | |].
      * eapply committed_ends; [apply record_transaction_run; exact E | exact I].
      * right. eexists. reflexivity.
    + eexists _, _, _. split; [apply record_transaction_run; exact E|].
      split; [eapply committed_lookup, E | reflexivity].
  - intros os.
    destruct (run_ops_related
                (fun a a' => exists added,
                     BankAccount.transactions a'
                     = (BankAccount.transactions a ++ added)%list))
      with (os := os) (w := w) (self := self) (a := a)
      as (r & w' & a' & Hrun & Hr & E' & (added & Hlog) & Hothers).
    + intros b. exists []. rewrite app_nil_r. reflexivity.
    + intros b c d (l1 & H1) (l2 & H2). exists (l1 ++ l2)%list.
      rewrite H2, H1, app_assoc. reflexivity.
    + intros w0 b o. destruct (after_op_log w0 b o) as [Heq|(t & Heq)].
      * exists []. rewrite Heq, app_nil_r. reflexivity.
      * exists [t]. exact Heq.
    + exact E.
    + exists r, w', a', added. auto.
Qed.

Lemma log_append_only_witness :
  appends_at_most_one (deposit 0 50) demo_world
  /\ appends_at_most_one (withdraw 0 500) demo_world
  /\ appends_at_most_one (close_account 0) demo_world
  /\ exists (r : exn + unit) (w' : World) (a' : BankAccount.t)
            (added : list Transaction.t),
       run_ops 0 [Deposit 50; Withdraw 200; Close; Deposit 1] demo_world = (r, w')
       /\ returned_or_unprintable r
       /\ heap w' !! 0%nat = Some a'
       /\ BankAccount.transactions a' = (BankAccount.transactions alice ++ added)%list.
Proof.
  destruct (log_append_only demo_world 0 alice) as (Hd & Hw & Hc & _ & Hseq);
    [reflexivity|].
  split; [apply Hd|]. split; [apply Hw|]. split; [exact Hc|].
  destruct (Hseq [Deposit 50; Withdraw 200; Close; Deposit 1])
    as (r & w' & a' & added & Hrun & Hr & E' & Hlog & _).
  exists r, w', a', added. auto.
Defined.

(** C9.  [create_account] accepts whatever integer is typed as the initial
    balance.  When the user types a name, an account number, any number of
    lines that are no integers and then an integer [b], the call returns a
    new account that is registered in [accounts], is open and has balance
    [b], negative or not.  Its log is empty when [b <= 0], and holds exactly
    one completed deposit of [b] to the account holder when [b > 0]. *)
Theorem create_account_any_balance (int : string -> option Z)
    (strip : string -> string) (w : World) (line1 line2 good : string)
    (bad rest : list string) (b : Z) :
  stdin w = (line1 :: line2 :: bad ++ good :: rest)%list ->
  Forall (fun line => int line = None) bad ->
  int good = Some b ->
  exists (w' : World) (acc : ref) (a : BankAccount.t),
    create_account int strip w = (inr acc, w')
    /\ heap w' !! acc = Some a
    /\ accounts w' = (accounts w ++ [acc])%list
    /\ BankAccount.name a = strip line1
    /\ BankAccount.balance a = b
    /\ BankAccount.is_closed a = false
    /\ (b <= 0 -> BankAccount.transactions a = [])
    /\ (b > 0 ->
        exists t : Transaction.t,
          BankAccount.transactions a = [t]
          /\ Transaction.type t = "deposit"
          /\ Transaction.status t = "completed"
          /\ Transaction.amount t = b
          /\ Transaction.receiver_name t = Some (strip line1)
          /\ Transaction.sender_name t = None).
Proof.
  intros Hin Hbad Hgood.
  destruct (create_account_run int strip w line1 line2 good bad rest b
              Hin Hbad Hgood) as (w' & Hrun & Hh & Hacc & _).
  exists w', (length (heap w)), (created_account w (strip line1) (strip line2) b).
  split; [exact Hrun|].
  split; [rewrite Hh; apply lookup_new|].
  split; [exact Hacc|].
  unfold created_account. cbn. repeat split.
  - intros Hle. rewrite bool_decide_eq_false_2 by lia. reflexivity.
  - intros Hpos. rewrite bool_decide_eq_true_2 by exact Hpos.
    eexists. repeat split.
Qed.

Lemma create_account_any_balance_witness :
  exists (w' : World) (acc : ref) (a : BankAccount.t),
    create_account ascii_int ascii_strip creation_world = (inr acc, w')
    /\ heap w' !! acc = Some a
    /\ BankAccount.name a = "Carol"
    /\ BankAccount.balance a = -50
    /\ BankAccount.is_closed a = false
    /\ BankAccount.transactions a = [].
Proof.
  destruct (create_account_any_balance ascii_int ascii_strip creation_world
              "Carol" "" "-50" ["fifty"] [] (-50))
    as (w' & acc & a & Hrun & E & _ & Hname & Hbal & Hopen & Hempty & _).
  - reflexivity.
  - repeat constructor.
  - reflexivity.
  - exists w', acc, a. repeat split; try assumption. apply Hempty. lia.
Defined.

Lemma after_op_frame (w : World) (a : BankAccount.t) (o : op) :
  BankAccount.id (after_op w a o) = BankAccount.id a
  /\ BankAccount.account_number (after_op w a o) = BankAccount.account_number a
  /\ BankAccount.created_at (after_op w a o) = BankAccount.created_at a
  /\ (o <> Close ->
      BankAccount.name (after_op w a o) = BankAccount.name a
      /\ BankAccount.is_closed (after_op w a o) = BankAccount.is_closed a).
Proof.
  destruct o as [amount|amount|]; cbn [after_op];
    unfold after_deposit, after_withdraw, after_close;
    destruct (BankAccount.is_closed a) eqn:C; repeat case_bool_decide;
    cbn; (split; [|split; [|split]]); try reflexivity;
    intros Hne; (split; [reflexivity | assumption || reflexivity]) || congruence.
Qed.

(** C10.  [deposit] and [withdraw] never change the identifier, the name, the
    account number, the creation time or the closed flag of the account;
    [close_account] never changes the identifier, the account number or the
    creation time.  This holds for every amount and every account, open or
    closed, whether [deposit] and [withdraw] return or stop at an integer
    too long to be written. *)
Theorem methods_frame (w : World) (self : ref) (a : BankAccount.t) (amount : Z) :
  heap w !! self = Some a ->
  (forall m : M unit,
      m = deposit self amount \/ m = withdraw self amount ->
      exists (r : exn + unit) (w' : World) (a' : BankAccount.t),
        m w = (r, w')
        /\ returned_or_unprintable r
        /\ heap w' !! self = Some a'
        /\ BankAccount.id a' = BankAccount.id a
        /\ BankAccount.name a' = BankAccount.name a
        /\ BankAccount.account_number a' = BankAccount.account_number a
        /\ BankAccount.created_at a' = BankAccount.created_at a
        /\ BankAccount.is_closed a' = BankAccount.is_closed a)
  /\ (exists (w' : World) (a' : BankAccount.t),
        close_account self w = (inr tt, w')
        /\ heap w' !! self = Some a'
        /\ BankAccount.id a' = BankAccount.id a
        /\ BankAccount.account_number a' = BankAccount.account_number a
        /\ BankAccount.created_at a' = BankAccount.created_at a).
Proof.
  intros E. split.
  - intros m Hm.
    assert (exists o, o <> Close /\ m = run_op self o) as (o & Hne & ->).
    { destruct Hm as [->| ->];
        [exists (Deposit amount) | exists (Withdraw amount)]; split;
        (discriminate || reflexivity). }
    destruct (run_op_summary w self a o E) as (r & w' & Hret).
    pose proof (ends_with_lookup _ _ _ _ _ _ _ E Hret) as E'.
    destruct Hret as (Hrun & Hr & _).
    destruct (after_op_frame w a o) as (Hid & Hnum & Hat & Hrest).
    destruct (Hrest Hne) as [Hname Hflag].
    exists r, w', (after_op w a o). auto 10.
  - destruct (close_summary w self a E) as (w' & Hret).
    pose proof (ends_with_lookup _ _ _ _ _ _ _ E Hret) as E'.
    destruct Hret as (Hrun & _).
    destruct (after_op_frame w a Close) as (Hid & Hnum & Hat & _).
    exists w', (after_close w a). auto 10.
Qed.

Lemma methods_frame_witness :
  (exists (r : exn + unit) (w' : World) (a' : BankAccount.t),
     deposit 0 50 demo_world = (r, w')
     /\ returned_or_unprintable r
     /\ heap w' !! 0%nat = Some a'
     /\ BankAccount.id a' = BankAccount.id alice
     /\ BankAccount.name a' = "Alice"
     /\ BankAccount.account_number a' = "ACC-1"
     /\ BankAccount.created_at a' = BankAccount.created_at alice
     /\ BankAccount.is_closed a' = false)
  /\ (exists (w' : World) (a' : BankAccount.t),
        close_account 0 demo_world = (inr tt, w')
        /\ heap w' !! 0%nat = Some a'
        /\ BankAccount.id a' = BankAccount.id alice
        /\ BankAccount.account_number a' = "ACC-1"
        /\ BankAccount.created_at a' = BankAccount.created_at alice).
Proof.
  destruct (methods_frame demo_world 0 alice 50) as [Hboth Hclose];
    [reflexivity|].
  split; [|exact Hclose].
  apply (Hboth (deposit 0 50)). left. reflexivity.
Defined.

(** After [create_account] with an initial balance that is not negative, the
    balance is not negative, and it stays so through every sequence of
    deposits, withdrawals and closures, however the sequence ends. *)
Lemma created_nonneg_stays_nonneg (int : string -> option Z)
    (strip : string -> string) (w : World) (line1 line2 good : string)
    (bad rest : list string) (b : Z) (os : list op) :
  stdin w = (line1 :: line2 :: bad ++ good :: rest)%list ->
  Forall (fun line => int line = None) bad ->
  int good = Some b ->
  0 <= b ->
  exists (w1 : World) (r : exn + unit) (w2 : World) (acc : ref)
         (a : BankAccount.t),
    create_account int strip w = (inr acc, w1)
    /\ run_ops acc os w1 = (r, w2)
    /\ heap w2 !! acc = Some a
    /\ 0 <= BankAccount.balance a.
Proof.
  intros Hin Hbad Hgood Hnn.
  destruct (create_account_run int strip w line1 line2 good bad rest b
              Hin Hbad Hgood) as (w1 & Hrun & Hh & _).
  destruct (run_ops_nonneg os w1 (length (heap w))
              (created_account w (strip line1) (strip line2) b))
    as (r & w2 & a & Hops & E & Hbal).
  - rewrite Hh. apply lookup_new.
  - exact Hnn.
  - exists w1, r, w2, (length (heap w)), a. auto.
Qed.

(** C1.  The balance can be negative: a user who types [-50] as the initial
    balance gets an account whose balance is -50, and a deposit of 20 then
    leaves it at -30.  (With an initial balance that is not negative the
    balance never becomes negative: [created_nonneg_stays_nonneg].) *)
Theorem balance_negative_after_creation :
  exists (w1 w2 : World) (acc : ref) (a1 a2 : BankAccount.t),
    create_account ascii_int ascii_strip creation_world = (inr acc, w1)
    /\ heap w1 !! acc = Some a1
    /\ BankAccount.balance a1 = -50
    /\ deposit acc 20 w1 = (inr tt, w2)
    /\ heap w2 !! acc = Some a2
    /\ BankAccount.balance a2 = -30
    /\ ~ 0 <= BankAccount.balance a1
    /\ ~ 0 <= BankAccount.balance a2.
Proof.
  destruct (create_account_run ascii_int ascii_strip creation_world
              "Carol" "" "-50" ["fifty"] [] (-50))
    as (w1 & Hrun & Hh & _); [reflexivity | repeat constructor | reflexivity |].
  cbn [heap creation_world length app] in Hh, Hrun.
  assert (E1 : heap w1 !! 0%nat
               = Some (created_account creation_world (ascii_strip "Carol")
                                       (ascii_strip "") (-50)))
    by (rewrite Hh; reflexivity).
  eexists w1, _, 0%nat, _, _.
  split; [exact Hrun|]. split; [exact E1|]. split; [reflexivity|].
  split; [rewrite (deposit_accepted_run _ _ _ 20 E1) by (reflexivity || lia);
          reflexivity|].
  split; [eapply committed_lookup, E1|].
  cbn. repeat split; lia.
Qed.

(** * Further properties of the methods *)

Lemma ledger_total_snoc (log : list Transaction.t) (t : Transaction.t) :
  ledger_total (log ++ [t]) = ledger_total log + signed_amount t.
Proof.
  induction log as [|t' log IH]; cbn [ledger_total app]; lia.
Qed.

Lemma after_op_unlogged (w : World) (a : BankAccount.t) (o : op) :
  unlogged (after_op w a o) = unlogged a.
Proof.
  unfold unlogged.
  destruct o as [amount|amount|]; cbn [after_op];
    unfold after_deposit, after_withdraw, after_close;
    destruct (BankAccount.is_closed a); repeat case_bool_decide;
    try reflexivity;
    cbn [log_one closed_from BankAccount.set_transactions BankAccount.set_balance
         BankAccount.balance BankAccount.transactions];
    rewrite ledger_total_snoc; unfold signed_amount, next_transaction;
    cbn [Transaction.status Transaction.type Transaction.amount];
    repeat case_bool_decide; try discriminate; try congruence; lia.
Qed.

(** From an account built by [create_account], every sequence of calls. *)
Lemma created_then_ops_related (R : BankAccount.t -> BankAccount.t -> Prop)
    (int : string -> option Z) (strip : string -> string) (w : World)
    (line1 line2 good : string) (bad rest : list string) (b : Z) (os : list op) :
  (forall a, R a a) ->
  (forall a1 a2 a3, R a1 a2 -> R a2 a3 -> R a1 a3) ->
  (forall w0 a o, R a (after_op w0 a o)) ->
  stdin w = (line1 :: line2 :: bad ++ good :: rest)%list ->
  Forall (fun line => int line = None) bad ->
  int good = Some b ->
  exists (w1 : World) (r : exn + unit) (w2 : World) (acc : ref)
         (a : BankAccount.t),
    create_account int strip w = (inr acc, w1)
    /\ run_ops acc os w1 = (r, w2)
    /\ returned_or_unprintable r
    /\ heap w2 !! acc = Some a
    /\ R (created_account w (strip line1) (strip line2) b) a.
Proof.
  intros Hrefl Htrans Hstep Hin Hbad Hgood.
  destruct (create_account_run int strip w line1 line2 good bad rest b
              Hin Hbad Hgood) as (w1 & Hrun & Hh & _).
  destruct (run_ops_related R Hrefl Htrans Hstep os w1 (length (heap w))
              (created_account w (strip line1) (strip line2) b))
    as (r & w2 & a & Hops & Hr & E & HR & _).
  - rewrite Hh. apply lookup_new.
  - exists w1, r, w2, (length (heap w)), a. auto.
Qed.

(** X1.  Whatever the calls and their order, and whether the last of them
    returns or stops at an integer too long to be written, the difference
    between the balance and the total of the log (completed deposits minus
    completed withdrawals and closures) stays what it was. *)
Theorem unlogged_constant (os : list op) (w : World) (self : ref)
    (a : BankAccount.t) :
  heap w !! self = Some a ->
  exists (r : exn + unit) (w' : World) (a' : BankAccount.t),
    run_ops self os w = (r, w')
    /\ returned_or_unprintable r
    /\ heap w' !! self = Some a'
    /\ BankAccount.balance a' - ledger_total (BankAccount.transactions a')
       = BankAccount.balance a - ledger_total (BankAccount.transactions a).
Proof.
  intros E.
  destruct (run_ops_related (fun a a' => unlogged a' = unlogged a))
    with (os := os) (w := w) (self := self) (a := a)
    as (r & w' & a' & Hrun & Hr & E' & HR & _); try congruence.
  - intros; apply after_op_unlogged.
  - exists r, w', a'. auto.
Qed.

Lemma unlogged_constant_witness :
  exists (r : exn + unit) (w' : World) (a' : BankAccount.t),
    run_ops 0 [Deposit 50; Withdraw 500; Withdraw 30; Deposit (-1); Close; Deposit 9]
            demo_world = (r, w')
    /\ returned_or_unprintable r
    /\ heap w' !! 0%nat = Some a'
    /\ BankAccount.balance a' - ledger_total (BankAccount.transactions a')
       = BankAccount.balance alice - ledger_total (BankAccount.transactions alice).
Proof.
  apply (unlogged_constant _ demo_world 0 alice). reflexivity.
Defined.

(** X2.  For an account created with an initial balance that is not
    negative, the balance is after every sequence of calls, however it
    ends, the total of its log: completed deposits minus completed
    withdrawals and closures. *)
Theorem balance_is_ledger_total (int : string -> option Z)
    (strip : string -> string) (w : World) (line1 line2 good : string)
    (bad rest : list string) (b : Z) (os : list op) :
  stdin w = (line1 :: line2 :: bad ++ good :: rest)%list ->
  Forall (fun line => int line = None) bad ->
  int good = Some b ->
  0 <= b ->
  exists (w1 : World) (r : exn + unit) (w2 : World) (acc : ref)
         (a : BankAccount.t),
    create_account int strip w = (inr acc, w1)
    /\ run_ops acc os w1 = (r, w2)
    /\ returned_or_unprintable r
    /\ heap w2 !! acc = Some a
    /\ BankAccount.balance a = ledger_total (BankAccount.transactions a).
Proof.
  intros Hin Hbad Hgood Hnn.
  destruct (created_then_ops_related (fun a a' => unlogged a' = unlogged a)
              int strip w line1 line2 good bad rest b os)
    as (w1 & r & w2 & acc & a & Hrun & Hops & Hr & E & HR); try congruence; try assumption.
  - intros; apply after_op_unlogged.
  - exists w1, r, w2, acc, a. repeat split; try assumption.
    revert HR. unfold unlogged, created_account.
    cbn [BankAccount.balance BankAccount.transactions].
    case_bool_decide; cbn [ledger_total]; unfold signed_amount;
      cbn [Transaction.status Transaction.type Transaction.amount];
      repeat case_bool_decide; try discriminate; try congruence; lia.
Qed.

Lemma balance_is_ledger_total_witness :
  exists (w1 : World) (r : exn + unit) (w2 : World) (acc : ref)
         (a : BankAccount.t),
    create_account ascii_int ascii_strip opening_world = (inr acc, w1)
    /\ run_ops acc [Withdraw 20; Deposit 5; Withdraw 1000; Close] w1 = (r, w2)
    /\ returned_or_unprintable r
    /\ heap w2 !! acc = Some a
    /\ BankAccount.balance a = ledger_total (BankAccount.transactions a).
Proof.
  apply (balance_is_ledger_total ascii_int ascii_strip opening_world
           "Dana" "ACC-9" "120" [] [] 120);
    [reflexivity | constructor | reflexivity | lia].
Defined.

Ltac regular_now :=
  unfold regular_transaction, next_transaction;
  cbn [Transaction.status Transaction.type Transaction.amount
       Transaction.sender_name Transaction.receiver_name];
  repeat split;
  try (intros; first [discriminate | congruence | lia]);
  eauto 8.

Lemma after_op_regular (w : World) (a : BankAccount.t) (o : op) :
  Forall regular_transaction (BankAccount.transactions a) ->
  Forall regular_transaction (BankAccount.transactions (after_op w a o)).
Proof.
  intros Hlog.
  destruct o as [amount|amount|]; cbn [after_op];
    unfold after_deposit, after_withdraw, after_close;
    destruct (BankAccount.is_closed a); repeat case_bool_decide;
    try exact Hlog;
    cbn [log_one closed_from BankAccount.set_transactions BankAccount.set_balance
         BankAccount.balance BankAccount.transactions];
    (apply Forall_app; split; [exact Hlog|]); apply Forall_singleton;
    regular_now.
Qed.

(** X3.  Every transaction in the log of an account that [create_account]
    built, after any sequence of calls, however it ends, is a regular one: its type is
    deposit, withdraw or close and its status completed or failed; a deposit
    names the receiver only and the others the sender only; a closure is
    completed; a completed deposit or withdrawal has a positive amount. *)
Theorem log_entries_regular (int : string -> option Z)
    (strip : string -> string) (w : World) (line1 line2 good : string)
    (bad rest : list string) (b : Z) (os : list op) :
  stdin w = (line1 :: line2 :: bad ++ good :: rest)%list ->
  Forall (fun line => int line = None) bad ->
  int good = Some b ->
  exists (w1 : World) (r : exn + unit) (w2 : World) (acc : ref)
         (a : BankAccount.t),
    create_account int strip w = (inr acc, w1)
    /\ run_ops acc os w1 = (r, w2)
    /\ returned_or_unprintable r
    /\ heap w2 !! acc = Some a
    /\ Forall regular_transaction (BankAccount.transactions a).
Proof.
  intros Hin Hbad Hgood.
  destruct (created_then_ops_related
              (fun a a' => Forall regular_transaction (BankAccount.transactions a) ->
                           Forall regular_transaction (BankAccount.transactions a'))
              int strip w line1 line2 good bad rest b os)
    as (w1 & r & w2 & acc & a & Hrun & Hops & Hr & E & HR); auto.
  - intros; apply after_op_regular; assumption.
  - exists w1, r, w2, acc, a. repeat split; try assumption.
    apply HR. unfold created_account. cbn [BankAccount.transactions].
    case_bool_decide; [apply Forall_singleton; regular_now | constructor].
Qed.

Lemma log_entries_regular_witness :
  exists (w1 : World) (r : exn + unit) (w2 : World) (acc : ref)
         (a : BankAccount.t),
    create_account ascii_int ascii_strip creation_world = (inr acc, w1)
    /\ run_ops acc [Deposit 70; Withdraw (-4); Withdraw 20; Close; Withdraw 1] w1
       = (r, w2)
    /\ returned_or_unprintable r
    /\ heap w2 !! acc = Some a
    /\ Forall regular_transaction (BankAccount.transactions a).
Proof.
  apply (log_entries_regular ascii_int ascii_strip creation_world
           "Carol" "" "-50" ["fifty"] [] (-50));
    [reflexivity | repeat constructor | reflexivity].
Defined.

Lemma after_op_closure_last (w : World) (a : BankAccount.t) (o : op) :
  closure_recorded_last a -> closure_recorded_last (after_op w a o).
Proof.
  unfold closure_recorded_last. intros Hlog.
  destruct o as [amount|amount|]; cbn [after_op];
    unfold after_deposit, after_withdraw, after_close;
    destruct (BankAccount.is_closed a) eqn:C; repeat case_bool_decide;
    rewrite ?C; try exact Hlog;
    cbn [log_one closed_from BankAccount.set_transactions BankAccount.set_balance
         BankAccount.balance BankAccount.transactions BankAccount.is_closed];
    rewrite ?C;
    try (apply Forall_app; split; [exact Hlog|]; apply Forall_singleton;
         cbn; discriminate).
  eexists _, _. split; [reflexivity|]. split; [reflexivity | exact Hlog].
Qed.

(** X4.  In the log of an account that [create_account] built, after any
    sequence of calls, however it ends, there is a close transaction exactly
    when the account is closed, and then there is one only and it is the
    last entry. *)
Theorem closure_is_last_entry (int : string -> option Z)
    (strip : string -> string) (w : World) (line1 line2 good : string)
    (bad rest : list string) (b : Z) (os : list op) :
  stdin w = (line1 :: line2 :: bad ++ good :: rest)%list ->
  Forall (fun line => int line = None) bad ->
  int good = Some b ->
  exists (w1 : World) (r : exn + unit) (w2 : World) (acc : ref)
         (a : BankAccount.t),
    create_account int strip w = (inr acc, w1)
    /\ run_ops acc os w1 = (r, w2)
    /\ returned_or_unprintable r
    /\ heap w2 !! acc = Some a
    /\ closure_recorded_last a.
Proof.
  intros Hin Hbad Hgood.
  destruct (created_then_ops_related
              (fun a a' => closure_recorded_last a -> closure_recorded_last a')
              int strip w line1 line2 good bad rest b os)
    as (w1 & r & w2 & acc & a & Hrun & Hops & Hr & E & HR); auto.
  - intros; apply after_op_closure_last; assumption.
  - exists w1, r, w2, acc, a. repeat split; try assumption.
    apply HR. unfold closure_recorded_last, created_account.
    cbn [BankAccount.transactions BankAccount.is_closed].
    case_bool_decide; [apply Forall_singleton; cbn; discriminate | constructor].
Qed.

Lemma closure_is_last_entry_witness :
  exists (w1 : World) (r : exn + unit) (w2 : World) (acc : ref)
         (a : BankAccount.t),
    create_account ascii_int ascii_strip opening_world = (inr acc, w1)
    /\ run_ops acc [Withdraw 20; Close; Deposit 5; Close] w1 = (r, w2)
    /\ returned_or_unprintable r
    /\ heap w2 !! acc = Some a
    /\ closure_recorded_last a.
Proof.
  apply (closure_is_last_entry ascii_int ascii_strip opening_world
           "Dana" "ACC-9" "120" [] [] 120);
    [reflexivity | constructor | reflexivity].
Defined.

(** One call either only prints, on a closed account, or logs exactly one
    transaction, stamped with the next identifier and the next clock
    reading of the world, before it returns or stops at an integer too long
    to be written. *)
Lemma run_op_outcome (w : World) (self : ref) (a : BankAccount.t) (o : op) :
  heap w !! self = Some a ->
  (exists msg : string,
      run_op self o w = (inr tt, with_stdout (stdout w ++ [msg]) w))
  \/ (exists (r : exn + unit) (msgs : list string) (a' : BankAccount.t)
             (t : Transaction.t),
         run_op self o w = (r, committed self a' msgs w)
         /\ returned_or_unprintable r
         /\ BankAccount.transactions a' = (BankAccount.transactions a ++ [t])%list
         /\ Transaction.id t = entropy w (uuid_calls w)
         /\ Transaction.timestamp t = wallclock w (clock_reads w)).
Proof.
  intros E. destruct (BankAccount.is_closed a) eqn:C.
  - left. destruct o as [amount|amount|]; eexists; cbn [run_op].
    + eapply deposit_closed_run; eassumption.
    + eapply withdraw_closed_run; eassumption.
    + eapply close_closed_run; eassumption.
  - right. destruct o as [amount|amount|]; cbn [run_op].
    + destruct (Z_le_gt_dec amount 0) as [Hle|Hpos]; eexists _, _, _, _.
      * split; [apply deposit_rejected_run; eassumption|]. repeat split.
      * split; [apply deposit_accepted_run; [eassumption..|lia]|].
        split; [apply report_result|]. repeat split.
    + destruct (Z_le_gt_dec amount 0) as [Hle|Hpos];
        [|destruct (Z_le_gt_dec amount (BankAccount.balance a)) as [Hok|Hgt]];
        eexists _, _, _, _.
      * split; [apply withdraw_nonpositive_run; eassumption|]. repeat split.
      * split; [apply withdraw_accepted_run; [eassumption..|lia|lia]|].
        split; [apply report_result|]. repeat split.
      * split; [apply withdraw_insufficient_run; [eassumption..|lia|lia]|].
        repeat split.
    + eexists _, _, _, _.
      split; [apply close_open_run; eassumption|]. repeat split.
Qed.

(** The transactions that a sequence of calls appends carry, in order, the
    identifiers and the clock readings that the world hands out from the
    start of the sequence on, one of each per transaction. *)
Lemma run_ops_stamps (os : list op) :
  forall (w : World) (self : ref) (a : BankAccount.t),
    heap w !! self = Some a ->
    exists (r : exn + unit) (w' : World) (a' : BankAccount.t)
           (added : list Transaction.t),
      run_ops self os w = (r, w')
      /\ returned_or_unprintable r
      /\ heap w' !! self = Some a'
      /\ BankAccount.transactions a' = (BankAccount.transactions a ++ added)%list
      /\ Transaction.id <$> added
         = entropy w <$> seq (uuid_calls w) (length added)
      /\ Transaction.timestamp <$> added
         = wallclock w <$> seq (clock_reads w) (length added)
      /\ entropy w' = entropy w /\ wallclock w' = wallclock w.
Proof.
  induction os as [|o os IH]; intros w self a E.
  - exists (inr tt), w, a, []. rewrite app_nil_r. repeat split. exact E.
  - cbn [run_ops].
    destruct (run_op_outcome w self a o E)
      as [(msg & Hrun)|(r1 & msgs & a1 & t & Hrun & Hr1 & Hlog & Hid & Hts)].
    + erewrite bind_run by exact Hrun.
      destruct (IH (with_stdout (stdout w ++ [msg]) w) self a E)
        as (r & w' & a' & added & Hrest & Hr & E' & Hlog' & Hids & Htss & He & Hc).
      exists r, w', a', added. auto 10.
    + destruct r1 as [e|[]].
      * exists (inl e), (committed self a1 msgs w), a1, [t].
        unfold bind. rewrite Hrun.
        split; [reflexivity|]. split; [exact Hr1|].
        split; [eapply committed_lookup, E|]. split; [exact Hlog|].
        cbn. rewrite Hid, Hts. auto.
      * erewrite bind_run by exact Hrun.
        destruct (IH (committed self a1 msgs w) self a1)
          as (r & w' & a' & added & Hrest & Hr & E' & Hlog' & Hids & Htss & He & Hc);
          [eapply committed_lookup, E|].
        exists r, w', a', (t :: added).
        split; [exact Hrest|]. split; [exact Hr|]. split; [exact E'|].
        split; [rewrite Hlog', Hlog, <- app_assoc; reflexivity|].
        cbn [length seq fmap list_fmap]. cbn in Hids, Htss.
        rewrite Hids, Htss, Hid, Hts. auto.
Qed.

(** X5.  When the clock never goes backwards, the transactions that a
    sequence of calls appends to a log, however the sequence ends, are in
    chronological order: an earlier entry never has a later time stamp. *)
Theorem appended_in_chronological_order (os : list op) (w : World) (self : ref)
    (a : BankAccount.t) :
  heap w !! self = Some a ->
  (forall i j : nat, (i <= j)%nat -> wallclock w i <= wallclock w j) ->
  exists (r : exn + unit) (w' : World) (a' : BankAccount.t)
         (added : list Transaction.t),
    run_ops self os w = (r, w')
    /\ returned_or_unprintable r
    /\ heap w' !! self = Some a'
    /\ BankAccount.transactions a' = (BankAccount.transactions a ++ added)%list
    /\ forall (i j : nat) (ti tj : Transaction.t),
         (i <= j)%nat -> added !! i = Some ti -> added !! j = Some tj ->
         Transaction.timestamp ti <= Transaction.timestamp tj.
Proof.
  intros E Hmono.
  destruct (run_ops_stamps os w self a E)
    as (r & w' & a' & added & Hrun & Hr & E' & Hlog & _ & Hts & _).
  exists r, w', a', added. repeat split; try assumption.
  intros i j ti tj Hij Hi Hj.
  assert (Hat : forall k t, added !! k = Some t ->
                Transaction.timestamp t = wallclock w (clock_reads w + k)).
  { intros k t Hk.
    assert (Hk' : (Transaction.timestamp <$> added) !! k
                  = Some (Transaction.timestamp t))
      by (rewrite list_lookup_fmap, Hk; reflexivity).
    rewrite Hts, list_lookup_fmap in Hk'.
    destruct (seq (clock_reads w) (length added) !! k) as [n|] eqn:Hn;
      [|discriminate].
    apply lookup_seq in Hn as [-> _]. cbn in Hk'. congruence. }
  rewrite (Hat i ti Hi), (Hat j tj Hj). apply Hmono. lia.
Qed.

Lemma appended_in_chronological_order_witness :
  exists (r : exn + unit) (w' : World) (a' : BankAccount.t)
         (added : list Transaction.t),
    run_ops 0 [Deposit 50; Withdraw 500; Close] demo_world = (r, w')
    /\ returned_or_unprintable r
    /\ heap w' !! 0%nat = Some a'
    /\ BankAccount.transactions a' = (BankAccount.transactions alice ++ added)%list
    /\ forall (i j : nat) (ti tj : Transaction.t),
         (i <= j)%nat -> added !! i = Some ti -> added !! j = Some tj ->
         Transaction.timestamp ti <= Transaction.timestamp tj.
Proof.
  apply (appended_in_chronological_order _ demo_world 0 alice);
    [reflexivity | intros i j Hij; cbn; lia].
Defined.

(** X6.  When [uuid4] never returns the same identifier twice, the
    transactions that a sequence of calls appends to a log, however the
    sequence ends, have pairwise different identifiers. *)
Theorem appended_ids_distinct (os : list op) (w : World) (self : ref)
    (a : BankAccount.t) :
  heap w !! self = Some a ->
  (forall i j : nat, entropy w i = entropy w j -> i = j) ->
  exists (r : exn + unit) (w' : World) (a' : BankAccount.t)
         (added : list Transaction.t),
    run_ops self os w = (r, w')
    /\ returned_or_unprintable r
    /\ heap w' !! self = Some a'
    /\ BankAccount.transactions a' = (BankAccount.transactions a ++ added)%list
    /\ forall (i j : nat) (ti tj : Transaction.t),
         added !! i = Some ti -> added !! j = Some tj ->
         Transaction.id ti = Transaction.id tj -> i = j.
Proof.
  intros E Hinj.
  destruct (run_ops_stamps os w self a E)
    as (r & w' & a' & added & Hrun & Hr & E' & Hlog & Hids & _).
  exists r, w', a', added. repeat split; try assumption.
  intros i j ti tj Hi Hj Heq.
  assert (Hat : forall k t, added !! k = Some t ->
                Transaction.id t = entropy w (uuid_calls w + k)).
  { intros k t Hk.
    assert (Hk' : (Transaction.id <$> added) !! k = Some (Transaction.id t))
      by (rewrite list_lookup_fmap, Hk; reflexivity).
    rewrite Hids, list_lookup_fmap in Hk'.
    destruct (seq (uuid_calls w) (length added) !! k) as [n|] eqn:Hn;
      [|discriminate].
    apply lookup_seq in Hn as [-> _]. cbn in Hk'. congruence. }
  rewrite (Hat i ti Hi), (Hat j tj Hj) in Heq. apply Hinj in Heq. lia.
Qed.

Lemma appended_ids_distinct_witness :
  exists (r : exn + unit) (w' : World) (a' : BankAccount.t)
         (added : list Transaction.t),
    run_ops 0 [Deposit 50; Withdraw 500; Close] demo_world = (r, w')
    /\ returned_or_unprintable r
    /\ heap w' !! 0%nat = Some a'
    /\ BankAccount.transactions a' = (BankAccount.transactions alice ++ added)%list
    /\ forall (i j : nat) (ti tj : Transaction.t),
         added !! i = Some ti -> added !! j = Some tj ->
         Transaction.id ti = Transaction.id tj -> i = j.
Proof.
  apply (appended_ids_distinct _ demo_world 0 alice);
    [reflexivity | intros i j Hij; cbn in Hij; lia].
Defined.

(** X7.  A sequence of calls on one account, however it ends, leaves every
    other object of the store, the list [accounts] and the input as they
    were. *)
Theorem other_accounts_untouched (os : list op) :
  forall (w : World) (self : ref) (a : BankAccount.t),
    heap w !! self = Some a ->
    exists (r : exn + unit) (w' : World),
      run_ops self os w = (r, w')
      /\ returned_or_unprintable r
      /\ (forall r : ref, r <> self -> heap w' !! r = heap w !! r)
      /\ length (heap w') = length (heap w)
      /\ accounts w' = accounts w
      /\ stdin w' = stdin w.
Proof.
  induction os as [|o os IH]; intros w self a E.
  - exists (inr tt), w. repeat split.
  - destruct (run_op_summary w self a o E) as (r1 & w1 & Hret).
    pose proof (ends_with_lookup _ _ _ _ _ _ _ E Hret) as E1.
    destruct Hret as (Hrun & Hr1 & Hh & Hacc & Hin).
    assert (Hfar : forall r : ref, r <> self -> heap w1 !! r = heap w !! r).
    { intros r Hne. rewrite Hh. apply list_lookup_insert_ne. congruence. }
    assert (Hlen1 : length (heap w1) = length (heap w))
      by (rewrite Hh; apply length_insert).
    cbn [run_ops]. destruct r1 as [e|[]].
    + exists (inl e), w1. unfold bind. rewrite Hrun. auto 10.
    + destruct (IH w1 self _ E1)
        as (r & w' & Hrest & Hr & Hothers & Hlen & Hacc' & Hin').
      exists r, w'. erewrite bind_run by exact Hrun.
      split; [exact Hrest|]. split; [exact Hr|]. split; [|split; [|split]].
      * intros r' Hne. rewrite Hothers by exact Hne. apply Hfar, Hne.
      * congruence.
      * congruence.
      * congruence.
Qed.

Lemma other_accounts_untouched_witness :
  exists (r : exn + unit) (w' : World),
    run_ops 0 [Deposit 50; Withdraw 20; Close] demo_world = (r, w')
    /\ returned_or_unprintable r
    /\ (forall r : ref, r <> 0%nat -> heap w' !! r = heap demo_world !! r)
    /\ length (heap w') = length (heap demo_world)
    /\ accounts w' = accounts demo_world
    /\ stdin w' = stdin demo_world.
Proof.
  apply (other_accounts_untouched _ demo_world 0 alice). reflexivity.
Defined.

(** X8.  On an open account whose balance is not negative, a deposit of a
    positive amount that brings the balance to an integer of at most 4300
    digits, followed by a withdrawal of the same amount, returns, brings
    the balance back to what it was and leaves two more entries in the log,
    both completed. *)
Theorem deposit_then_withdraw (w : World) (self : ref) (a : BankAccount.t)
    (amount : Z) :
  heap w !! self = Some a ->
  BankAccount.is_closed a = false ->
  0 < amount ->
  0 <= BankAccount.balance a ->
  printable (BankAccount.balance a + amount) = true ->
  exists (w' : World) (a' : BankAccount.t) (t1 t2 : Transaction.t),
    (deposit self amount ;; withdraw self amount) w = (inr tt, w')
    /\ heap w' !! self = Some a'
    /\ BankAccount.balance a' = BankAccount.balance a
    /\ BankAccount.transactions a' = (BankAccount.transactions a ++ [t1; t2])%list
    /\ Transaction.type t1 = "deposit" /\ Transaction.status t1 = "completed"
    /\ Transaction.type t2 = "withdraw" /\ Transaction.status t2 = "completed"
    /\ Transaction.amount t1 = amount /\ Transaction.amount t2 = amount.
Proof.
  intros E C Hpos Hnn Hsum.
  assert (Hamount : printable amount = true)
    by (eapply printable_le; [|exact Hsum]; lia).
  assert (Hbal : printable (BankAccount.balance a) = true)
    by (eapply printable_le; [|exact Hsum]; lia).
  pose proof (deposit_accepted_run self a w amount E C Hpos) as Hdep.
  cbv zeta in Hdep. unfold report in Hdep.
  rewrite Hamount, Hsum in Hdep. cbn [andb fst snd] in Hdep.
  erewrite bind_run by exact Hdep.
  erewrite withdraw_accepted_run;
    [| eapply committed_lookup, E | exact C | exact Hpos | cbn; lia].
  cbn [log_one BankAccount.set_transactions BankAccount.set_balance
       BankAccount.balance BankAccount.transactions].
  replace (BankAccount.balance a + amount - amount) with (BankAccount.balance a)
    by lia.
  unfold report. rewrite Hamount, Hbal. cbn [andb fst snd].
  eexists _, _, _, _. split; [reflexivity|].
  split; [eapply committed_lookup, committed_lookup, E|].
  cbn [log_one BankAccount.set_transactions BankAccount.set_balance
       BankAccount.balance BankAccount.transactions].
  rewrite <- app_assoc. repeat split.
Qed.

Lemma deposit_then_withdraw_witness :
  exists (w' : World) (a' : BankAccount.t) (t1 t2 : Transaction.t),
    (deposit 0 75 ;; withdraw 0 75) demo_world = (inr tt, w')
    /\ heap w' !! 0%nat = Some a'
    /\ BankAccount.balance a' = 100
    /\ BankAccount.transactions a' = [t1; t2]
    /\ Transaction.type t1 = "deposit" /\ Transaction.status t1 = "completed"
    /\ Transaction.type t2 = "withdraw" /\ Transaction.status t2 = "completed"
    /\ Transaction.amount t1 = 75 /\ Transaction.amount t2 = 75.
Proof.
  apply (deposit_then_withdraw demo_world 0 alice 75);
    [reflexivity | reflexivity | lia | cbn; lia | reflexivity].
Defined.

(** X24.  The message at the end of an accepted [deposit] or [withdraw] is
    written after the balance and the log are updated.  When the amount or
    the new balance has more than 4300 digits, the call therefore raises
    [ValueError] with nothing printed, the balance changed and a completed
    transaction in the log: the exception does not undo the operation. *)
Theorem report_failure_keeps_the_update (w : World) (self : ref)
    (a : BankAccount.t) (amount : Z) :
  heap w !! self = Some a ->
  BankAccount.is_closed a = false ->
  0 < amount ->
  (printable amount && printable (BankAccount.balance a + amount) = false ->
   exists (w' : World) (a' : BankAccount.t) (t : Transaction.t),
     deposit self amount w = (inl ValueError, w')
     /\ stdout w' = stdout w
     /\ heap w' !! self = Some a'
     /\ BankAccount.balance a' = BankAccount.balance a + amount
     /\ BankAccount.transactions a' = (BankAccount.transactions a ++ [t])%list
     /\ Transaction.type t = "deposit"
     /\ Transaction.status t = "completed")
  /\ (amount <= BankAccount.balance a ->
      printable amount && printable (BankAccount.balance a - amount) = false ->
      exists (w' : World) (a' : BankAccount.t) (t : Transaction.t),
        withdraw self amount w = (inl ValueError, w')
        /\ stdout w' = stdout w
        /\ heap w' !! self = Some a'
        /\ BankAccount.balance a' = BankAccount.balance a - amount
        /\ BankAccount.transactions a' = (BankAccount.transactions a ++ [t])%list
        /\ Transaction.type t = "withdraw"
        /\ Transaction.status t = "completed").
Proof.
  intros E C Hpos. split.
  - intros Hlong. eexists _, _, _. split.
    + rewrite (deposit_accepted_run self a w amount E C Hpos).
      unfold report. rewrite Hlong. reflexivity.
    + split; [cbn; apply app_nil_r|].
      split; [eapply committed_lookup, E|]. cbn. repeat split.
  - intros Hle Hlong. eexists _, _, _. split.
    + rewrite (withdraw_accepted_run self a w amount E C Hpos Hle).
      unfold report. rewrite Hlong. reflexivity.
    + split; [cbn; apply app_nil_r|].
      split; [eapply committed_lookup, E|]. cbn. repeat split.
Qed.

Lemma report_failure_keeps_the_update_witness :
  (exists (w' : World) (a' : BankAccount.t) (t : Transaction.t),
     deposit 0 too_long vault_world = (inl ValueError, w')
     /\ stdout w' = stdout vault_world
     /\ heap w' !! 0%nat = Some a'
     /\ BankAccount.balance a' = BankAccount.balance vault + too_long
     /\ BankAccount.transactions a' = (BankAccount.transactions vault ++ [t])%list
     /\ Transaction.type t = "deposit"
     /\ Transaction.status t = "completed")
  /\ (exists (w' : World) (a' : BankAccount.t) (t : Transaction.t),
        withdraw 0 too_long vault_world = (inl ValueError, w')
        /\ stdout w' = stdout vault_world
        /\ heap w' !! 0%nat = Some a'
        /\ BankAccount.balance a' = BankAccount.balance vault - too_long
        /\ BankAccount.transactions a' = (BankAccount.transactions vault ++ [t])%list
        /\ Transaction.type t = "withdraw"
        /\ Transaction.status t = "completed").
Proof.
  destruct (report_failure_keeps_the_update vault_world 0 vault too_long)
    as [Hdeposit Hwithdraw];
    [reflexivity | reflexivity | exact too_long_pos |].
  split.
  - apply Hdeposit. rewrite too_long_unprintable. reflexivity.
  - apply Hwithdraw; [apply Z.le_refl|].
    rewrite too_long_unprintable. reflexivity.
Defined.

(** * Further properties of account creation *)

Lemma upper_hex_digit (d : N) :
  let n := nat_of_ascii (upper_char (hex_digit d)) in
  (48 <= n <= 57)%nat \/ (65 <= n <= 70)%nat.
Proof.
  destruct d as [|p]; [vm_compute; lia|].
  do 4 (try destruct p as [p|p|]); vm_compute; lia.
Qed.

Lemma upper_hex_text_shorter (s : string) :
  forall m n : nat,
    (m <= n)%nat ->
    upper_hex_text n (upper (substring 0 n s)) ->
    upper_hex_text m (upper (substring 0 m s)).
Proof.
  induction s as [|c s IH]; intros m n Hmn Hn.
  - destruct n as [|n]; [|destruct Hn]. replace m with 0%nat by lia. exact I.
  - destruct m as [|m]; [exact I|]. destruct n as [|n]; [lia|].
    cbn in Hn |- *. destruct Hn as [Hc Hn]. split; [exact Hc|].
    apply (IH m n); [lia | exact Hn].
Qed.

Lemma hex_digits_upper (width : nat) :
  forall (n : N) (low : string) (j : nat),
    upper_hex_text j (upper (substring 0 j low)) ->
    upper_hex_text (width + j)
      (upper (substring 0 (width + j) (hex_digits width n low))).
Proof.
  induction width as [|width IH]; intros n low j Hlow.
  - exact Hlow.
  - cbn [hex_digits]. replace (S width + j)%nat with (width + S j)%nat by lia.
    apply IH. cbn [substring upper upper_hex_text].
    split; [apply upper_hex_digit | exact Hlow].
Qed.

(** The number that [create_account] generates from an identifier. *)
Lemma generated_number_shape (u : UUID) :
  upper_hex_text 10 (upper (substring 0 10 (hex u))).
Proof.
  apply (upper_hex_text_shorter _ 10 32); [lia|].
  apply (hex_digits_upper 32 u "" 0). exact I.
Qed.

(** X9.  When the user leaves the account number empty, the new account gets
    a number of exactly ten characters, each a digit or a capital letter from
    A to F. *)
Theorem generated_account_number (int : string -> option Z)
    (strip : string -> string) (w : World) (line1 line2 good : string)
    (bad rest : list string) (b : Z) :
  stdin w = (line1 :: line2 :: bad ++ good :: rest)%list ->
  Forall (fun line => int line = None) bad ->
  int good = Some b ->
  strip line2 = "" ->
  exists (w' : World) (acc : ref) (a : BankAccount.t),
    create_account int strip w = (inr acc, w')
    /\ heap w' !! acc = Some a
    /\ upper_hex_text 10 (BankAccount.account_number a).
Proof.
  intros Hin Hbad Hgood Hempty.
  destruct (create_account_run int strip w line1 line2 good bad rest b
              Hin Hbad Hgood) as (w' & Hrun & Hh & _).
  eexists w', _, _. split; [exact Hrun|].
  split; [rewrite Hh; apply lookup_new|].
  unfold created_account. cbn [BankAccount.account_number].
  rewrite bool_decide_eq_true_2 by exact Hempty.
  apply generated_number_shape.
Qed.

Lemma generated_account_number_witness :
  exists (w' : World) (acc : ref) (a : BankAccount.t),
    create_account ascii_int ascii_strip creation_world = (inr acc, w')
    /\ heap w' !! acc = Some a
    /\ upper_hex_text 10 (BankAccount.account_number a).
Proof.
  apply (generated_account_number ascii_int ascii_strip creation_world
           "Carol" "" "-50" ["fifty"] [] (-50));
    [reflexivity | repeat constructor | reflexivity | reflexivity].
Defined.

Lemma init_sound (u : UUID) (name number : string) (b : Z) (ts : datetime) :
  b <= 0 -> sound_account (BankAccount.init u name number b ts).
Proof.
  intros Hb. unfold sound_account, closure_recorded_last, unlogged. cbn.
  repeat split; try constructor; try discriminate. lia.
Qed.

Lemma init_deposit_sound (w : World) (u : UUID) (name number : string) (b : Z)
    (ts : datetime) :
  b > 0 ->
  sound_account
    (log_one (next_transaction w "deposit" None (Some name) b "completed")
             (BankAccount.init u name number b ts)).
Proof.
  intros Hb. unfold sound_account, closure_recorded_last, unlogged.
  cbn [log_one BankAccount.init BankAccount.set_transactions
       BankAccount.transactions BankAccount.is_closed BankAccount.balance app].
  split; [discriminate|]. split; [|split].
  - apply Forall_singleton. cbn. discriminate.
  - apply Forall_singleton. regular_now.
  - cbn [ledger_total]. unfold signed_amount, next_transaction.
    cbn [Transaction.status Transaction.type Transaction.amount].
    repeat case_bool_decide; try congruence; lia.
Qed.

Section CreationOutcome.

Variable int : string -> option Z.
Variable strip : string -> string.

Lemma read_initial_balance_outcome (fuel : nat) :
  forall w : World,
    (length (stdin w) < fuel)%nat ->
    heap (read_initial_balance int fuel w).2 = heap w
    /\ accounts (read_initial_balance int fuel w).2 = accounts w
    /\ stdin (read_initial_balance int fuel w).2 `suffix_of` stdin w
    /\ match (read_initial_balance int fuel w).1 with
       | inr _ => True
       | inl e => e = EOFError /\ stdin (read_initial_balance int fuel w).2 = []
       end.
Proof.
  induction fuel as [|fuel IH]; intros w Hfuel; [lia|].
  cbn [read_initial_balance].
  destruct (stdin w) as [|line rest] eqn:Hin.
  - unfold bind, input. cbn [stdin with_stdout]. rewrite ?Hin. cbn.
    rewrite ?Hin. auto.
  - erewrite bind_run by (apply input_run; exact Hin).
    destruct (int line) as [b|].
    + cbn. repeat split. apply suffix_cons_r. reflexivity.
    + run_print.
      destruct (IH (with_stdout
                      ((stdout w ++ ["Initial balance: "]) ++ ["Enter an integer."])
                      (with_stdin rest
                         (with_stdout (stdout w ++ ["Initial balance: "]) w))))
        as (Hh & Hacc & Hsuf & Hres); [cbn in *; lia|].
      cbn [heap accounts stdin stdout with_stdin with_stdout] in Hh, Hacc, Hsuf, Hres |- *.
      split; [exact Hh|]. split; [exact Hacc|]. split; [|exact Hres].
      apply suffix_cons_r. exact Hsuf.
Qed.

Lemma creation_outcome_io (w0 w : World) (out : (exn + ref) * World) :
  heap w0 = heap w -> accounts w0 = accounts w ->
  stdin w0 `suffix_of` stdin w ->
  creation_outcome w0 out -> creation_outcome w out.
Proof.
  unfold creation_outcome. intros Hh Hacc Hsuf (Hsuf' & Hkeep & Hres).
  rewrite Hh, Hacc in *. split; [etrans; eassumption|]. split; assumption.
Qed.

(** The steps of [create_account] from the balance loop on, for a name and
    a number already determined. *)
Lemma create_account_tail_outcome (name number : string) (w0 : World) :
  creation_outcome w0
    ((balance <- (fun w => read_initial_balance int (S (length (stdin w))) w) ;;
      u <- uuid4 ;;
      ts <- now_utc ;;
      acc <- new (BankAccount.init u name number balance ts) ;;
      accounts_append acc ;;
      (if bool_decide (balance > 0) then
         nm <- getattr BankAccount.name acc ;;
         record_transaction acc "deposit" None (Some nm) balance "completed" ;;
         ret tt
       else ret tt) ;;
      num <- getattr BankAccount.account_number acc ;;
      print ("Account " +:+ num +:+ " created successfully.") ;;
      ret acc) w0).
Proof.
  unfold bind at 1. cbv beta.
  destruct (read_initial_balance_outcome (S (length (stdin w0))) w0)
    as (Hh & Hacc & Hsuf & Hres); [lia|].
  destruct (read_initial_balance int (S (length (stdin w0))) w0)
    as [[e|b] w1] eqn:Hloop; cbn [fst snd] in Hh, Hacc, Hsuf, Hres.
  - destruct Hres as [-> Hempty]. unfold creation_outcome. cbn [fst snd].
    rewrite Hh. repeat split; auto.
  - unfold bind at 1; unfold uuid4 at 1.
    unfold bind at 1; unfold now_utc at 1.
    unfold bind at 1; unfold new at 1.
    unfold bind at 1; unfold accounts_append at 1.
    cbn [heap accounts stdin stdout entropy uuid_calls wallclock clock_reads
         with_heap with_accounts with_uuid_calls with_clock_reads].
    rewrite Hh, Hacc.
    assert (Hold : forall (x : BankAccount.t) (r : ref) (a : BankAccount.t),
               heap w0 !! r = Some a -> (heap w0 ++ [x])%list !! r = Some a)
      by (intros x r a Hr; apply lookup_app_l_Some; exact Hr).
    case_bool_decide as Hb.
    + erewrite bind_run
        by (erewrite bind_run
              by (apply getattr_run; cbn; rewrite ?Hh; apply lookup_new);
            erewrite bind_run
              by (apply record_transaction_run; cbn; rewrite ?Hh; apply lookup_new);
            reflexivity).
      erewrite bind_run
        by (apply getattr_run; cbn; rewrite ?Hh, ?insert_new; apply lookup_new).
      run_print. unfold creation_outcome, ret. cbn. rewrite ?Hh, ?insert_new.
      split; [exact Hsuf|]. split; [apply Hold|].
      split; [reflexivity|]. split; [|reflexivity].
      eexists. split; [reflexivity|]. apply init_deposit_sound, Hb.
    + unfold ret at 1. unfold bind at 1.
      erewrite bind_run by (apply getattr_run; cbn; rewrite ?Hh; apply lookup_new).
      run_print. unfold creation_outcome, ret. cbn. rewrite ?Hh.
      split; [exact Hsuf|]. split; [apply Hold|].
      split; [reflexivity|]. split; [|reflexivity].
      eexists. split; [reflexivity|]. apply init_sound. lia.
Qed.

(** However [create_account] ends, what was in the store stays as it was,
    and the call ends in one of the two ways of [creation_outcome]. *)
Lemma create_account_outcome_holds (w : World) :
  creation_outcome w (create_account int strip w).
Proof.
  unfold create_account. run_print.
  destruct (stdin w) as [|line1 [|line2 rest]] eqn:Hin.
  - unfold bind, input. cbn. rewrite Hin.
    unfold creation_outcome. cbn. rewrite ?Hin. repeat split; auto.
  - erewrite bind_run
      by (erewrite bind_run by (apply input_run; cbn; exact Hin); reflexivity).
    unfold bind, input. cbn.
    unfold creation_outcome. cbn. rewrite ?Hin.
    repeat split; auto. apply suffix_cons_r. reflexivity.
  - erewrite bind_run
      by (erewrite bind_run by (apply input_run; cbn; exact Hin); reflexivity).
    erewrite bind_run
      by (erewrite bind_run by (apply input_run; cbn; reflexivity); reflexivity).
    destruct (bool_decide (strip line2 = "")).
    + unfold bind at 1. unfold bind at 1. unfold uuid4 at 1.
      run_print. unfold ret at 1.
      eapply creation_outcome_io; [| | |apply create_account_tail_outcome];
        [reflexivity | reflexivity |].
      cbn. rewrite Hin. do 2 apply suffix_cons_r. reflexivity.
    + unfold ret at 1. unfold bind at 1.
      eapply creation_outcome_io; [| | |apply create_account_tail_outcome];
        [reflexivity | reflexivity |].
      cbn. rewrite Hin. do 2 apply suffix_cons_r. reflexivity.
Qed.

End CreationOutcome.

(** X10.  [create_account] raises nothing but [EOFError], and only when the
    input is used up; nothing has been registered then: the store and the
    list [accounts] are what they were. *)
Theorem create_account_interrupted (int : string -> option Z)
    (strip : string -> string) (w w' : World) (e : exn) :
  create_account int strip w = (inl e, w') ->
  e = EOFError /\ heap w' = heap w /\ accounts w' = accounts w /\ stdin w' = [].
Proof.
  intros Hrun.
  destruct (create_account_outcome_holds int strip w) as (_ & _ & Hres).
  rewrite Hrun in Hres. exact Hres.
Qed.

Lemma outcome_from_fst {A B : Type} (out : A * B) (x : A) :
  out.1 = x -> out = (x, out.2).
Proof. destruct out. cbn. intros ->. reflexivity. Qed.

Lemma create_account_interrupted_witness :
  let out := create_account ascii_int ascii_strip
               (with_stdin ["Eve"; "ACC-7"; "ten"; "a lot"] demo_world) in
  EOFError = EOFError /\ heap out.2 = heap demo_world
  /\ accounts out.2 = accounts demo_world /\ stdin out.2 = [].
Proof.
  intros out.
  assert (Hfst : out.1 = inl EOFError) by (lazy; reflexivity).
  exact (create_account_interrupted ascii_int ascii_strip _ _ EOFError
           (outcome_from_fst out (inl EOFError) Hfst)).
Defined.

(** * The session *)

(** ** Evolution of accounts and worlds *)

Lemma account_evolves_refl (a : BankAccount.t) : account_evolves a a.
Proof.
  unfold account_evolves. repeat split; auto. congruence.
Qed.

Lemma account_evolves_trans (a1 a2 a3 : BankAccount.t) :
  account_evolves a1 a2 -> account_evolves a2 a3 -> account_evolves a1 a3.
Proof.
  unfold account_evolves.
  intros (Hid & Hnum & Hat & Hlog & Hfrozen & Hopen & Hmark & Hun & Hnn)
         (Hid' & Hnum' & Hat' & Hlog' & Hfrozen' & Hopen' & Hmark' & Hun' & Hnn').
  split; [congruence|]. split; [congruence|]. split; [congruence|].
  split; [etrans; eassumption|].
  split; [intros C; rewrite (Hfrozen C) in *; auto|].
  assert (Hback : BankAccount.is_closed a3 = false ->
                  BankAccount.is_closed a2 = false).
  { intros C3. destruct (BankAccount.is_closed a2) eqn:C2; [|reflexivity].
    rewrite (Hfrozen' eq_refl) in C3. congruence. }
  split; [intros C3; rewrite (Hopen' C3); apply Hopen, Hback, C3|].
  split; [|split; [congruence | auto]].
  intros C1 C3. destruct (BankAccount.is_closed a2) eqn:C2.
  - rewrite (Hfrozen' eq_refl). apply Hmark; auto.
  - rewrite (Hmark' eq_refl C3), (Hopen eq_refl). reflexivity.
Qed.

Lemma after_op_evolves (w : World) (a : BankAccount.t) (o : op) :
  account_evolves a (after_op w a o).
Proof.
  destruct (after_op_frame w a o) as (Hid & Hnum & Hat & Hrest).
  unfold account_evolves.
  split; [exact Hid|]. split; [exact Hnum|]. split; [exact Hat|].
  split.
  { destruct (after_op_log w a o) as [->|(t & ->)];
      [reflexivity | apply prefix_app_r; reflexivity]. }
  split; [|split; [|split; [|split]]].
  - intros C. destruct o as [amount|amount|]; cbn [after_op];
      unfold after_deposit, after_withdraw, after_close; rewrite C; reflexivity.
  - destruct o as [amount|amount|]; try (intros _; apply Hrest; discriminate).
    cbn [after_op]. unfold after_close.
    destruct (BankAccount.is_closed a); [reflexivity | discriminate].
  - intros C. destruct o as [amount|amount|].
    + destruct Hrest as [_ Hflag]; [discriminate|]. congruence.
    + destruct Hrest as [_ Hflag]; [discriminate|]. congruence.
    + cbn [after_op]. unfold after_close. rewrite C. reflexivity.
  - apply after_op_unlogged.
  - apply after_op_nonneg.
Qed.

Lemma evolves_refl (w : World) : evolves w w.
Proof.
  unfold evolves. repeat split; try reflexivity.
  intros r a E. exists a. split; [exact E | apply account_evolves_refl].
Qed.

Lemma evolves_trans (w1 w2 w3 : World) :
  evolves w1 w2 -> evolves w2 w3 -> evolves w1 w3.
Proof.
  intros (Hin & Hacc & Hobj) (Hin' & Hacc' & Hobj').
  split; [etrans; eassumption|]. split; [etrans; eassumption|].
  intros r a E. destruct (Hobj r a E) as (a2 & E2 & Hev).
  destruct (Hobj' r a2 E2) as (a3 & E3 & Hev').
  exists a3. split; [exact E3 | eapply account_evolves_trans; eassumption].
Qed.

(** Reading and printing make the world evolve. *)
Lemma evolves_io (w w' : World) :
  heap w' = heap w -> accounts w' = accounts w ->
  stdin w' `suffix_of` stdin w -> evolves w w'.
Proof.
  intros Hh Hacc Hin. split; [exact Hin|]. split; [rewrite Hacc; reflexivity|].
  intros r a E. exists a. rewrite Hh. split; [exact E | apply account_evolves_refl].
Qed.

Lemma valid_evolves (w w' : World) (r : ref) :
  evolves w w' -> valid w r -> valid w' r.
Proof.
  intros (_ & _ & Hobj) [a E]. destruct (Hobj r a E) as (a' & E' & _).
  exists a'. exact E'.
Qed.

Lemma registry_ok_same (w w' : World) :
  (forall r, valid w r -> valid w' r) -> accounts w' = accounts w ->
  registry_ok w -> registry_ok w'.
Proof.
  unfold registry_ok. intros Hv -> Hreg.
  eapply Forall_impl; [exact Hreg | exact Hv].
Qed.

Lemma store_ok_same (w w' : World) :
  heap w' = heap w -> accounts w' = accounts w -> store_ok w -> store_ok w'.
Proof.
  intros Hh Hacc [Hreg Hsound]. split; [|rewrite Hh; exact Hsound].
  eapply registry_ok_same; [|exact Hacc|exact Hreg].
  intros r. unfold valid. rewrite Hh. auto.
Qed.

Lemma after_op_sound (w : World) (a : BankAccount.t) (o : op) :
  sound_account a -> sound_account (after_op w a o).
Proof.
  intros (Hzero & Hlast & Hreg & Hun).
  split; [apply after_op_closed_zero; exact Hzero|].
  split; [apply after_op_closure_last; exact Hlast|].
  split; [apply after_op_regular; exact Hreg|].
  rewrite after_op_unlogged. exact Hun.
Qed.

(** ** Stable conditions *)

Lemma stable_true : stable (fun _ => True).
Proof. intros w w' _ _. exact I. Qed.

Lemma stable_and (P Q : World -> Prop) :
  stable P -> stable Q -> stable (fun w => P w /\ Q w).
Proof. intros HP HQ w w' Hev [Hp Hq]. split; eauto. Qed.

Lemma stable_valid (r : ref) : stable (fun w => valid w r).
Proof. intros w w' Hev Hv. eapply valid_evolves; eassumption. Qed.

Lemma stable_all_valid (l : list ref) : stable (fun w => Forall (valid w) l).
Proof.
  intros w w' Hev Hall. eapply Forall_impl; [exact Hall|].
  intros r. apply valid_evolves, Hev.
Qed.

Lemma stable_found_valid (found : option ref) :
  stable (fun w => forall acc, found = Some acc -> valid w acc).
Proof.
  intros w w' Hev Hv acc Hacc. eapply valid_evolves; eauto.
Qed.

Lemma stable_input_left (n : nat) : stable (fun w => (length (stdin w) < n)%nat).
Proof.
  intros w w' (Hin & _) Hlt. apply suffix_length in Hin. lia.
Qed.

Create HintDb stable.
#[export] Hint Resolve stable_true stable_and stable_valid stable_all_valid
  stable_found_valid stable_input_left : stable.

(** ** Rules for [keeps] *)

Lemma keeps_weaken {A : Type} (pre pre' : World -> Prop) (m : M A)
    (V V' : A -> World -> Prop) :
  (forall w, pre' w -> pre w) ->
  (forall x w, V x w -> V' x w) ->
  keeps pre m V -> keeps pre' m V'.
Proof.
  intros Hpre HV Hm w Hreg Hp.
  destruct (Hm w Hreg (Hpre w Hp)) as (Hev & Hreg' & Hres).
  split; [exact Hev|]. split; [exact Hreg'|].
  destruct (m w).1; [exact Hres | apply HV, Hres].
Qed.

Lemma keeps_ret {A : Type} (pre : World -> Prop) (x : A) (V : A -> World -> Prop) :
  (forall w, pre w -> V x w) -> keeps pre (ret x) V.
Proof.
  intros HV w Hreg Hp. cbn. split; [apply evolves_refl|]. auto.
Qed.

Lemma keeps_bind {A B : Type} (pre : World -> Prop) (m : M A)
    (V : A -> World -> Prop) (k : A -> M B) (V' : B -> World -> Prop) :
  stable pre ->
  keeps pre m V ->
  (forall x, keeps (fun w => pre w /\ V x w) (k x) V') ->
  keeps pre (bind m k) V'.
Proof.
  intros Hst Hm Hk w Hreg Hp.
  destruct (Hm w Hreg Hp) as (Hev & Hreg' & Hres).
  unfold bind. destruct (m w) as [[e|x] w1]; cbn [fst snd] in *.
  - auto.
  - destruct (Hk x w1 Hreg') as (Hev' & Hreg'' & Hres');
      [split; [eapply Hst; eassumption | exact Hres]|].
    split; [eapply evolves_trans; eassumption|]. auto.
Qed.

(** A call that only reads and writes text. *)
Lemma keeps_io {A : Type} (pre : World -> Prop) (m : M A) (V : A -> World -> Prop) :
  (forall w, registry_ok w -> pre w ->
     heap (m w).2 = heap w /\ accounts (m w).2 = accounts w
     /\ stdin (m w).2 `suffix_of` stdin w
     /\ match (m w).1 with
        | inr x => V x (m w).2
        | inl e => e = EOFError \/ e = ValueError
        end) ->
  keeps pre m V.
Proof.
  intros Hio w Hok Hp.
  destruct (Hio w (proj1 Hok) Hp) as (Hh & Hacc & Hin & Hres).
  split; [apply evolves_io; assumption|]. split; [|exact Hres].
  eapply store_ok_same; eassumption.
Qed.

Lemma keeps_print (pre : World -> Prop) (s : string) :
  keeps pre (print s) (fun _ _ => True).
Proof. apply keeps_io. intros w _ _. cbn. auto. Qed.

Lemma keeps_get_accounts (pre : World -> Prop) :
  keeps pre get_accounts (fun accs w => Forall (valid w) accs).
Proof. apply keeps_io. intros w Hreg _. cbn. auto. Qed.

Lemma keeps_input (pre : World -> Prop) (prompt : string) :
  keeps pre (input prompt) (fun _ _ => True).
Proof.
  apply keeps_io. intros w _ _. unfold input. cbn [stdin with_stdout].
  destruct (stdin w) as [|line rest] eqn:Hin; cbn; rewrite ?Hin;
    repeat split; auto. apply suffix_cons_r. reflexivity.
Qed.

(** The first input of a round of the menu uses up one line of the budget. *)
Lemma keeps_input_counted (n : nat) (prompt : string) :
  keeps (fun w => (length (stdin w) < S n)%nat) (input prompt)
        (fun _ w => (length (stdin w) < n)%nat).
Proof.
  apply keeps_io. intros w _ Hlt. unfold input. cbn [stdin with_stdout].
  destruct (stdin w) as [|line rest] eqn:Hin; cbn; rewrite ?Hin;
    repeat split; auto.
  - apply suffix_cons_r. reflexivity.
  - cbn in Hlt. lia.
Qed.

Lemma keeps_load (self : ref) :
  keeps (fun w => valid w self) (load self) (fun _ _ => True).
Proof.
  apply keeps_io. intros w _ [a E]. unfold load. rewrite E. cbn. auto.
Qed.

Lemma keeps_getattr {A : Type} (attr : BankAccount.t -> A) (self : ref) :
  keeps (fun w => valid w self) (getattr attr self) (fun _ _ => True).
Proof.
  apply keeps_io. intros w _ [a E]. rewrite (getattr_run attr self a w E).
  cbn. auto.
Qed.

(** ** The commands that only read *)

Lemma only_prints_bind {A B : Type} (m : M A) (k : A -> M B) (w : World)
    (x : A) (r : exn + B) (lines lines' : list string) :
  only_prints m w (inr x) lines ->
  only_prints (k x) (with_stdout (stdout w ++ lines) w) r lines' ->
  only_prints (bind m k) w r (lines ++ lines').
Proof.
  unfold only_prints. intros Hm Hk. erewrite bind_run by exact Hm.
  rewrite Hk. cbn. rewrite app_assoc. reflexivity.
Qed.

Lemma only_prints_raise {A B : Type} (m : M A) (k : A -> M B) (w : World)
    (e : exn) (lines : list string) :
  only_prints m w (inl e) lines -> only_prints (bind m k) w (inl e) lines.
Proof. unfold only_prints, bind. intros ->. reflexivity. Qed.

Lemma only_prints_nothing {A : Type} (r : exn + A) (w : World) :
  only_prints (fun w => (r, w)) w r [].
Proof. unfold only_prints. rewrite app_nil_r. destruct w; reflexivity. Qed.

Lemma only_prints_getattr {A : Type} (attr : BankAccount.t -> A) (self : ref)
    (a : BankAccount.t) (w : World) :
  heap w !! self = Some a -> only_prints (getattr attr self) w (inr (attr a)) [].
Proof.
  intros E. unfold only_prints. rewrite (getattr_run attr self a w E).
  apply only_prints_nothing.
Qed.

Lemma only_prints_load (self : ref) (a : BankAccount.t) (w : World) :
  heap w !! self = Some a -> only_prints (load self) w (inr a) [].
Proof.
  intros E. unfold only_prints, load. rewrite E.
  apply (only_prints_nothing (inr a)).
Qed.

Lemma only_prints_print (s : string) (w : World) :
  only_prints (print s) w (inr tt) [s].
Proof. reflexivity. Qed.

Lemma only_prints_format (n : Z) (w : World) :
  only_prints (format_int n) w
    (if printable n then inr (str n) else inl ValueError) [].
Proof.
  unfold format_int. destruct (printable n); apply only_prints_nothing.
Qed.

(** A step that writes nothing, in front of a computation that only
    prints. *)
Lemma only_prints_after {A B : Type} (m : M A) (k : A -> M B) (w : World)
    (x : A) (r : exn + B) (lines : list string) :
  only_prints m w (inr x) [] ->
  only_prints (k x) w r lines ->
  only_prints (bind m k) w r lines.
Proof.
  unfold only_prints. intros Hm Hk. erewrite bind_run by exact Hm.
  rewrite app_nil_r.
  replace (with_stdout (stdout w) w) with w by (destruct w; reflexivity).
  exact Hk.
Qed.

Lemma keeps_only_prints {A : Type} (pre : World -> Prop) (m : M A)
    (V : A -> World -> Prop) :
  (forall w, registry_ok w -> pre w ->
     exists (r : exn + A) (lines : list string),
       only_prints m w r lines
       /\ match r with
          | inr x => V x (with_stdout (stdout w ++ lines) w)
          | inl e => e = EOFError \/ e = ValueError
          end) ->
  keeps pre m V.
Proof.
  intros Hm. apply keeps_io. intros w Hreg Hp.
  destruct (Hm w Hreg Hp) as (r & lines & Hrun & HV).
  unfold only_prints in Hrun. rewrite Hrun. cbn [fst snd].
  split; [reflexivity|]. split; [reflexivity|]. split; [reflexivity|exact HV].
Qed.

Lemma returned_or_unprintable_kept {A : Type} (r : exn + A) :
  returned_or_unprintable r ->
  match r with
  | inr _ => True
  | inl e => e = EOFError \/ e = ValueError
  end.
Proof. destruct r as [e|x]; cbn; auto. Qed.

(** A loop whose body, at each turn, prints one line or stops at an integer
    that cannot be written: the loop only prints; it returns exactly when
    no element has such an integer, and has then printed the lines of the
    elements in the order of the list. *)
Lemma for_each_only_prints {A : Type} (body : A -> M unit) (f : A -> string)
    (good : A -> Prop) (l : list A) :
  forall (w : World),
    (forall (x : A) (out : list string), x ∈ l ->
       (good x /\ only_prints (body x) (with_stdout out w) (inr tt) [f x])
       \/ (~ good x
           /\ only_prints (body x) (with_stdout out w) (inl ValueError) [])) ->
    exists (r : exn + unit) (lines : list string),
      only_prints (for_each body l) w r lines
      /\ returned_or_unprintable r
      /\ (r = inr tt <-> Forall good l)
      /\ (r = inr tt -> lines = f <$> l).
Proof.
  induction l as [|x l IH]; intros w Hbody.
  - exists (inr tt), []. split; [apply (only_prints_nothing (inr tt))|].
    split; [exact I|]. split; [|reflexivity]. split; [constructor | reflexivity].
  - assert (Hw : with_stdout (stdout w) w = w) by (destruct w; reflexivity).
    destruct (Hbody x (stdout w)) as [[Hx Hline]|[Hbad Hstop]]; [left| |];
      rewrite Hw in *.
    + destruct (IH (with_stdout (stdout w ++ [f x]) w))
        as (r & lines & Hrest & Hr & Hiff & Hlines).
      { intros y out Hy. apply (Hbody y out). right. exact Hy. }
      exists r, (f x :: lines). split; [|split; [exact Hr|split]].
      * cbn [for_each].
        apply (only_prints_bind _ _ w tt r [f x] lines); assumption.
      * rewrite Forall_cons. tauto.
      * intros Hret. rewrite (Hlines Hret). reflexivity.
    + exists (inl ValueError), []. split; [|split; [reflexivity|split]].
      * cbn [for_each]. apply only_prints_raise, Hstop.
      * rewrite Forall_cons. split; [discriminate | tauto].
      * discriminate.
Qed.

Lemma enumerate_elem {A : Type} (l : list A) :
  forall (k i : nat) (x : A),
    (i, x) ∈ enumerate k l -> x ∈ l /\ (k <= i < k + length l)%nat.
Proof.
  induction l as [|y l IH]; intros k i x Hin; cbn in Hin.
  - inversion Hin.
  - apply elem_of_cons in Hin as [Heq|Hin].
    + injection Heq as -> ->. split; [left | cbn; lia].
    + destruct (IH _ _ _ Hin) as [Hx Hi]. split; [right; exact Hx | cbn; lia].
Qed.

Lemma enumerate_covers {A : Type} (l : list A) :
  forall (k : nat) (x : A), x ∈ l -> exists i : nat, (i, x) ∈ enumerate k l.
Proof.
  induction l as [|y l IH]; intros k x Hin.
  - inversion Hin.
  - apply elem_of_cons in Hin as [->|Hin].
    + exists k. left.
    + destruct (IH (S k) x Hin) as (i & Hi). exists i. right. exact Hi.
Qed.

Lemma enumerate_last {A : Type} (l : list A) :
  forall k : nat,
    l <> [] -> exists x : A, (k + length l - 1, x)%nat ∈ enumerate k l.
Proof.
  induction l as [|y l IH]; intros k Hne; [congruence|].
  destruct l as [|z l].
  - exists y. cbn. replace (k + 1 - 1)%nat with k by lia. left.
  - destruct (IH (S k)) as (x & Hx); [discriminate|].
    exists x. cbn [enumerate]. right.
    replace (k + length (y :: z :: l) - 1)%nat
      with (S k + length (z :: l) - 1)%nat by (cbn; lia).
    exact Hx.
Qed.

Lemma enumerate_length {A : Type} (l : list A) :
  forall k : nat, length (enumerate k l) = length l.
Proof. induction l as [|y l IH]; intros k; cbn; [|rewrite IH]; reflexivity. Qed.

(** [list_accounts_brief] returns exactly when the numbers it has to write
    can be written. *)
Lemma list_accounts_brief_run (w : World) (accs : list ref) :
  Forall (valid w) accs ->
  exists (r : exn + unit) (lines : list string),
    only_prints (list_accounts_brief accs) w r lines
    /\ returned_or_unprintable r
    /\ (r = inr tt <-> listing_printable w accs)
    /\ (accs = [] -> lines = ["No accounts yet."])
    /\ (r = inr tt -> accs <> [] -> length lines = length accs).
Proof.
  intros Hvalid. destruct accs as [|acc accs].
  - exists (inr tt), ["No accounts yet."].
    split; [reflexivity|]. split; [exact I|]. split; [|split; [auto | congruence]].
    split; [|reflexivity]. intros _. split; [reflexivity | constructor].
  - unfold list_accounts_brief.
    destruct (for_each_only_prints
      (fun '(i, acc) =>
         closed <- getattr BankAccount.is_closed acc ;;
         let status := if closed : bool then "CLOSED" else "ACTIVE" in
         shown_i <- format_int (Z.of_nat i) ;;
         nm <- getattr BankAccount.name acc ;;
         num <- getattr BankAccount.account_number acc ;;
         b <- getattr BankAccount.balance acc ;;
         shown_balance <- format_int b ;;
         print (shown_i +:+ ". " +:+ nm +:+ " | No. " +:+ num
                +:+ " | Balance: " +:+ shown_balance +:+ " | " +:+ status))
      (fun '(i, r) => match heap w !! r with
                      | Some a => account_line i a
                      | None => ""
                      end)
      (fun '(i, r) => printable (Z.of_nat i) = true
                      /\ exists a, heap w !! r = Some a
                                   /\ printable (BankAccount.balance a) = true)
      (enumerate 1 (acc :: accs)) w) as (r & lines & Hrun & Hr & Hiff & Hlines).
    { intros [i x] out Hin. apply enumerate_elem in Hin as [Hin _].
      rewrite Forall_forall in Hvalid. destruct (Hvalid x Hin) as [a E].
      rewrite E.
      pose proof (only_prints_format (Z.of_nat i) (with_stdout out w)) as Hi.
      pose proof (only_prints_format (BankAccount.balance a) (with_stdout out w))
        as Hb.
      destruct (printable (Z.of_nat i)) eqn:Pi;
        [destruct (printable (BankAccount.balance a)) eqn:Pb|].
      - left. split; [split; [reflexivity | exists a; auto]|].
        eapply only_prints_after; [apply only_prints_getattr; exact E|].
        eapply only_prints_after; [exact Hi|].
        eapply only_prints_after; [apply only_prints_getattr; exact E|].
        eapply only_prints_after; [apply only_prints_getattr; exact E|].
        eapply only_prints_after; [apply only_prints_getattr; exact E|].
        eapply only_prints_after; [exact Hb|].
        apply only_prints_print.
      - right. split; [intros [_ (a' & E' & Hbal)]; congruence|].
        eapply only_prints_after; [apply only_prints_getattr; exact E|].
        eapply only_prints_after; [exact Hi|].
        eapply only_prints_after; [apply only_prints_getattr; exact E|].
        eapply only_prints_after; [apply only_prints_getattr; exact E|].
        eapply only_prints_after; [apply only_prints_getattr; exact E|].
        apply only_prints_raise, Hb.
      - right. split; [intros [Hpos _]; congruence|].
        eapply only_prints_after; [apply only_prints_getattr; exact E|].
        apply only_prints_raise, Hi. }
    exists r, lines. split; [exact Hrun|]. split; [exact Hr|].
    split; [|split; [discriminate|]].
    + rewrite Hiff. unfold listing_printable. rewrite !Forall_forall. split.
      * intros Hall. split.
        -- destruct (enumerate_last (acc :: accs) 1) as (x & Hx); [discriminate|].
           destruct (Hall _ Hx) as [Hlast _].
           replace (1 + length (acc :: accs) - 1)%nat
             with (length (acc :: accs)) in Hlast by lia.
           exact Hlast.
        -- intros x Hx. destruct (enumerate_covers _ 1 x Hx) as (i & Hi).
           apply (Hall _ Hi).
      * intros [Hlen Hbal] [i x] Hin.
        apply enumerate_elem in Hin as [Hin Hi]. split.
        -- eapply printable_le; [|exact Hlen]. lia.
        -- apply Hbal, Hin.
    + intros Hret _. rewrite (Hlines Hret), length_fmap.
      apply enumerate_length.
Qed.

(** X11.  [list_accounts_brief] only prints, whether it returns or stops at
    a number that cannot be written: the store, the list [accounts] and the
    input are as before.  It returns exactly when the positions and the
    balances of the accounts have at most 4300 digits, and has then printed
    one line per account of the list, or one line when the list is
    empty. *)
Theorem list_accounts_brief_only_prints (w : World) (accs : list ref) :
  Forall (valid w) accs ->
  exists (r : exn + unit) (lines : list string),
    list_accounts_brief accs w = (r, with_stdout (stdout w ++ lines) w)
    /\ returned_or_unprintable r
    /\ (r = inr tt <-> listing_printable w accs)
    /\ (accs = [] -> lines = ["No accounts yet."])
    /\ (r = inr tt -> accs <> [] -> length lines = length accs).
Proof. apply list_accounts_brief_run. Qed.

Lemma list_accounts_brief_only_prints_witness :
  exists lines : list string,
    list_accounts_brief [0%nat; 1%nat] demo_world
    = (inr tt, with_stdout (stdout demo_world ++ lines) demo_world)
    /\ length lines = 2%nat.
Proof.
  destruct (list_accounts_brief_only_prints demo_world [0%nat; 1%nat])
    as (r & lines & Hrun & _ & Hiff & _ & Hlen).
  - repeat constructor; eexists; reflexivity.
  - assert (Hret : r = inr tt).
    { apply Hiff. split; [reflexivity|].
      repeat constructor; eexists; split; reflexivity. }
    exists lines. rewrite <- Hret. split; [exact Hrun|].
    apply Hlen; [exact Hret | discriminate].
Defined.

(** The first element of a list with a property is determined by the
    list. *)
Lemma first_carrier_unique {A : Type} (P : A -> Prop) (before1 : list A) :
  forall (before2 after1 after2 : list A) (x1 x2 : A),
    (before1 ++ x1 :: after1 = before2 ++ x2 :: after2)%list ->
    P x1 -> P x2 ->
    Forall (fun y => ~ P y) before1 ->
    Forall (fun y => ~ P y) before2 ->
    x1 = x2.
Proof.
  induction before1 as [|y before1 IH];
    intros [|z before2] after1 after2 x1 x2 Heq H1 H2 Hno1 Hno2; cbn in Heq.
  - congruence.
  - apply Forall_cons in Hno2 as [Hz _]. exfalso. apply Hz. congruence.
  - apply Forall_cons in Hno1 as [Hy _]. exfalso. apply Hy. congruence.
  - apply Forall_cons in Hno1 as [_ Hno1]. apply Forall_cons in Hno2 as [_ Hno2].
    injection Heq as _ Heq. eapply IH; eassumption.
Qed.

Lemma find_account_by_number_run (w : World) (num : string) (accs : list ref) :
  Forall (valid w) accs ->
  exists found : option ref,
    find_account_by_number num accs w = (inr found, w)
    /\ match found with
       | Some acc =>
           exists before after : list ref,
             accs = (before ++ acc :: after)%list
             /\ has_number w num acc
             /\ Forall (fun r => ~ has_number w num r) before
       | None => Forall (fun r => ~ has_number w num r) accs
       end.
Proof.
  induction accs as [|r accs IH]; intros Hvalid.
  - exists None. split; [reflexivity | constructor].
  - apply Forall_cons in Hvalid as [[a E] Hvalid].
    cbn [find_account_by_number].
    erewrite bind_run by (apply getattr_run; exact E).
    case_bool_decide as Hnum.
    + exists (Some r). split; [reflexivity|].
      exists [], accs. split; [reflexivity|]. split; [|constructor].
      exists a. auto.
    + destruct (IH Hvalid) as (found & Hrun & Hfound).
      exists found. split; [exact Hrun|].
      assert (Hr : ~ has_number w num r).
      { intros (a' & E' & Hnum'). congruence. }
      destruct found as [acc|].
      * destruct Hfound as (before & after & -> & Hacc & Hbefore).
        exists (r :: before), after. split; [reflexivity|].
        split; [exact Hacc | constructor; assumption].
      * constructor; assumption.
Qed.

(** X12.  [find_account_by_number] changes nothing and returns the first
    account of the list that carries the number: no account before it in the
    list does.  It returns [None] exactly when no account of the list
    carries the number. *)
Theorem find_account_by_number_first (w : World) (num : string) (accs : list ref) :
  Forall (valid w) accs ->
  exists found : option ref,
    find_account_by_number num accs w = (inr found, w)
    /\ match found with
       | Some acc =>
           exists before after : list ref,
             accs = (before ++ acc :: after)%list
             /\ has_number w num acc
             /\ Forall (fun r => ~ has_number w num r) before
       | None => Forall (fun r => ~ has_number w num r) accs
       end.
Proof. apply find_account_by_number_run. Qed.

Lemma find_account_by_number_first_witness :
  exists found : option ref,
    find_account_by_number "ACC-2" [0%nat; 1%nat] demo_world = (inr found, demo_world)
    /\ match found with
       | Some acc =>
           exists before after : list ref,
             [0%nat; 1%nat] = (before ++ acc :: after)%list
             /\ has_number demo_world "ACC-2" acc
             /\ Forall (fun r => ~ has_number demo_world "ACC-2" r) before
       | None => Forall (fun r => ~ has_number demo_world "ACC-2" r) [0%nat; 1%nat]
       end.
Proof.
  apply (find_account_by_number_first demo_world "ACC-2" [0%nat; 1%nat]).
  repeat constructor; eexists; reflexivity.
Defined.

(** Looking a number up in a list to which an account with that number was
    added at the end: an earlier account with the number is found first. *)
Lemma find_with_newcomer (w : World) (num : string) (acc : ref) (l : list ref) :
  Forall (valid w) l ->
  has_number w num acc ->
  exists found : ref,
    find_account_by_number num (l ++ [acc]) w = (inr (Some found), w)
    /\ (Exists (has_number w num) l -> found ∈ l /\ has_number w num found)
    /\ (Forall (fun r => ~ has_number w num r) l -> found = acc).
Proof.
  intros Hvalid (a & E & Hnum).
  induction l as [|r l IH].
  - exists acc. cbn [app find_account_by_number].
    erewrite bind_run by (apply getattr_run; exact E).
    rewrite bool_decide_eq_true_2 by exact Hnum.
    split; [reflexivity|]. split; [|reflexivity].
    intros Hex. inversion Hex.
  - apply Forall_cons in Hvalid as [[ar Er] Hvalid].
    cbn [app find_account_by_number].
    erewrite bind_run by (apply getattr_run; exact Er).
    case_bool_decide as Hr.
    + exists r. split; [reflexivity|]. split.
      * intros _. split; [left | exists ar; auto].
      * intros Hnone. apply Forall_cons in Hnone as [Hnot _].
        exfalso. apply Hnot. exists ar. auto.
    + destruct (IH Hvalid) as (found & Hrun & Hold & Hnew).
      exists found. split; [exact Hrun|]. split.
      * intros Hex. apply Exists_cons in Hex as [(a' & E' & Hnum')|Hex];
          [congruence|].
        destruct (Hold Hex) as [Hin Hfound]. split; [right; exact Hin | exact Hfound].
      * intros Hnone. apply Forall_cons in Hnone as [_ Hnone]. auto.
Qed.

(** X13.  Account numbers are not checked when an account is created.  When
    the number typed is already carried by a registered account, looking the
    number up afterwards still finds that earlier account, never the new
    one; when no registered account carries it, the look-up finds the new
    account. *)
Theorem duplicate_number_finds_the_earlier (int : string -> option Z)
    (strip : string -> string) (w : World) (line1 line2 good : string)
    (bad rest : list string) (b : Z) :
  registry_ok w ->
  stdin w = (line1 :: line2 :: bad ++ good :: rest)%list ->
  Forall (fun line => int line = None) bad ->
  int good = Some b ->
  strip line2 <> "" ->
  exists (w' : World) (acc found : ref),
    create_account int strip w = (inr acc, w')
    /\ find_account_by_number (strip line2) (accounts w') w' = (inr (Some found), w')
    /\ (Exists (has_number w (strip line2)) (accounts w) ->
        found <> acc /\ found ∈ accounts w /\ has_number w (strip line2) found)
    /\ (Forall (fun r => ~ has_number w (strip line2) r) (accounts w) ->
        found = acc).
Proof.
  intros Hreg Hin Hbad Hgood Htyped. unfold registry_ok in Hreg.
  destruct (create_account_run int strip w line1 line2 good bad rest b
              Hin Hbad Hgood) as (w' & Hrun & Hh & Hacc & _).
  assert (Hold : forall (r : ref) a, heap w !! r = Some a -> heap w' !! r = Some a)
    by (intros r a Hr; rewrite Hh; apply lookup_app_l_Some; exact Hr).
  assert (Hsame : forall r : ref, valid w r ->
            (has_number w' (strip line2) r <-> has_number w (strip line2) r)).
  { intros r [a E]. pose proof (Hold r a E) as E0.
    split; intros (a' & E' & Hnum); exists a; split; congruence. }
  destruct (find_with_newcomer w' (strip line2) (length (heap w)) (accounts w))
    as (found & Hfind & Hearlier & Hnew).
  - eapply Forall_impl; [exact Hreg|]. intros r [a E]. exists a. apply Hold, E.
  - eexists. split; [rewrite Hh; apply lookup_new|].
    unfold created_account. cbn [BankAccount.account_number].
    rewrite bool_decide_eq_false_2 by exact Htyped. reflexivity.
  - exists w', (length (heap w)), found. split; [exact Hrun|].
    split; [rewrite Hacc; exact Hfind|]. split.
    + intros Hex. destruct Hearlier as [Hin' Hfound].
      { apply Exists_exists in Hex as (r & Hr & Hnum). apply Exists_exists.
        exists r. split; [exact Hr|]. apply Hsame; [|exact Hnum].
        rewrite Forall_forall in Hreg. apply Hreg, Hr. }
      assert (Hv : valid w found) by (rewrite Forall_forall in Hreg; apply Hreg, Hin').
      split; [|split; [exact Hin' | apply Hsame; assumption]].
      destruct Hv as [a E]. apply lookup_lt_Some in E. lia.
    + intros Hnone. apply Hnew.
      rewrite Forall_forall in Hreg, Hnone |- *. intros r Hr Hnum.
      apply (Hnone r Hr). apply Hsame; [apply Hreg, Hr | exact Hnum].
Qed.

Lemma duplicate_number_finds_the_earlier_witness :
  exists (w' : World) (acc found : ref),
    create_account ascii_int ascii_strip
      (with_stdin ["Eve"; " ACC-1 "; "10"] demo_world) = (inr acc, w')
    /\ find_account_by_number "ACC-1" (accounts w') w' = (inr (Some found), w')
    /\ found <> acc
    /\ found ∈ accounts demo_world.
Proof.
  destruct (duplicate_number_finds_the_earlier ascii_int ascii_strip
              (with_stdin ["Eve"; " ACC-1 "; "10"] demo_world)
              "Eve" " ACC-1 " "10" [] [] 10)
    as (w' & acc & found & Hrun & Hfind & Hearlier & _).
  - repeat constructor; eexists; reflexivity.
  - reflexivity.
  - constructor.
  - reflexivity.
  - vm_compute. discriminate.
  - destruct Hearlier as (Hne & Hin & _).
    { apply Exists_cons_hd. exists alice. split; reflexivity. }
    exists w', acc, found. auto.
Defined.

Section ReadingCommands.

Variable lower : string -> string.
Variable upper_text : string -> string.
Variable isoformat : datetime -> string.

Lemma Transaction_str_run (t : Transaction.t) (w : World) :
  only_prints (Transaction_str upper_text isoformat t) w
    (if printable (Transaction.amount t)
     then inr (transaction_line upper_text isoformat t) else inl ValueError) [].
Proof.
  unfold Transaction_str.
  pose proof (only_prints_format (Transaction.amount t) w) as Hfmt.
  destruct (printable (Transaction.amount t)).
  - eapply only_prints_after; [exact Hfmt|]. apply only_prints_nothing.
  - apply only_prints_raise, Hfmt.
Qed.

(** The part of [show_transactions] between the header and the footer. *)
Lemma show_log_run (log : list Transaction.t) (w : World) :
  exists (r : exn + unit) (lines : list string),
    only_prints
      (match log with
       | [] => print "No transactions."
       | _ => for_each (fun t => line <- Transaction_str upper_text isoformat t ;;
                                 print line) log
       end) w r lines
    /\ returned_or_unprintable r
    /\ (r = inr tt
        <-> Forall (fun t => printable (Transaction.amount t) = true) log)
    /\ (r = inr tt ->
        lines = match log with
                | [] => ["No transactions."]
                | _ => transaction_line upper_text isoformat <$> log
                end).
Proof.
  destruct log as [|t log].
  - exists (inr tt), ["No transactions."]. split; [apply only_prints_print|].
    split; [exact I|]. split; [|reflexivity]. split; [constructor | reflexivity].
  - apply for_each_only_prints. intros x out _.
    pose proof (Transaction_str_run x (with_stdout out w)) as Hstr.
    destruct (printable (Transaction.amount x)).
    + left. split; [reflexivity|].
      eapply only_prints_after; [exact Hstr|]. apply only_prints_print.
    + right. split; [discriminate|]. apply only_prints_raise, Hstr.
Qed.

Lemma show_transactions_run (w : World) (self : ref) (a : BankAccount.t) :
  heap w !! self = Some a ->
  exists (r : exn + unit) (lines : list string),
    only_prints (show_transactions upper_text isoformat self) w r lines
    /\ returned_or_unprintable r
    /\ (r = inr tt
        <-> Forall (fun t => printable (Transaction.amount t) = true)
                   (BankAccount.transactions a))
    /\ (r = inr tt ->
        lines
        = (["=== Transactions for " +:+ BankAccount.name a +:+ " ("
              +:+ BankAccount.account_number a +:+ ") ==="]
           ++ match BankAccount.transactions a with
              | [] => ["No transactions."]
              | log => transaction_line upper_text isoformat <$> log
              end
           ++ ["==============================="])%list).
Proof.
  intros E. unfold show_transactions.
  set (header := "=== Transactions for " +:+ BankAccount.name a +:+ " ("
                 +:+ BankAccount.account_number a +:+ ") ===").
  destruct (show_log_run (BankAccount.transactions a)
              (with_stdout (stdout w ++ [header]) w))
    as (r & lines & Hlog & Hr & Hiff & Hlines).
  assert (Hstart : forall (r' : exn + unit) (lines' : list string),
    only_prints
      (log <- getattr BankAccount.transactions self ;;
       match log with
       | [] => print "No transactions."
       | _ => for_each (fun t => line <- Transaction_str upper_text isoformat t ;;
                                 print line) log
       end ;;
       print "===============================")
      (with_stdout (stdout w ++ [header]) w) r' lines' ->
    only_prints (show_transactions upper_text isoformat self) w r'
                ([header] ++ lines')).
  { intros r' lines' Hrest. unfold show_transactions.
    eapply only_prints_after; [apply only_prints_getattr; exact E|].
    eapply only_prints_after; [apply only_prints_getattr; exact E|].
    eapply only_prints_bind; [apply only_prints_print | exact Hrest]. }
  destruct r as [e|[]].
  - exists (inl e), ([header] ++ lines)%list.
    split; [|split; [exact Hr|split]].
    + apply Hstart.
      eapply only_prints_after; [apply only_prints_getattr; exact E|].
      apply only_prints_raise, Hlog.
    + split; [discriminate|]. intros Hall. apply Hiff in Hall. discriminate Hall.
    + discriminate.
  - exists (inr tt), ([header] ++ lines ++ ["==============================="])%list.
    split; [|split; [exact I|split]].
    + apply Hstart.
      eapply only_prints_after; [apply only_prints_getattr; exact E|].
      eapply only_prints_bind; [exact Hlog | apply only_prints_print].
    + split; [intros _; apply Hiff; reflexivity | reflexivity].
    + intros _. rewrite (Hlines eq_refl).
      destruct (BankAccount.transactions a); reflexivity.
Qed.

(** X14.  [show_transactions] only prints, whether it returns or stops at
    an amount that cannot be written: the store, the list [accounts] and
    the input are as before.  It returns exactly when every amount of the
    log has at most 4300 digits, and has then printed a header with the
    name and the number of the account, the transactions of the log in the
    order of the log, one per line (or one line saying that there are
    none), and a footer. *)
Theorem show_transactions_only_prints (w : World) (self : ref) (a : BankAccount.t) :
  heap w !! self = Some a ->
  exists (r : exn + unit) (lines : list string),
    show_transactions upper_text isoformat self w
    = (r, with_stdout (stdout w ++ lines) w)
    /\ returned_or_unprintable r
    /\ (r = inr tt
        <-> Forall (fun t => printable (Transaction.amount t) = true)
                   (BankAccount.transactions a))
    /\ (r = inr tt ->
        lines
        = (["=== Transactions for " +:+ BankAccount.name a +:+ " ("
              +:+ BankAccount.account_number a +:+ ") ==="]
           ++ match BankAccount.transactions a with
              | [] => ["No transactions."]
              | log => transaction_line upper_text isoformat <$> log
              end
           ++ ["==============================="])%list).
Proof. apply show_transactions_run. Qed.

End ReadingCommands.

Lemma show_transactions_only_prints_witness :
  exists lines : list string,
    show_transactions upper str 1 demo_world
    = (inr tt, with_stdout (stdout demo_world ++ lines) demo_world)
    /\ length lines = 4%nat.
Proof.
  destruct (show_transactions_only_prints upper str demo_world 1 bob_closed)
    as (r & lines & Hrun & _ & Hiff & Hlines); [reflexivity|].
  assert (Hret : r = inr tt) by (apply Hiff; repeat constructor).
  exists lines. rewrite <- Hret. split; [exact Hrun|].
  rewrite (Hlines Hret). reflexivity.
Defined.

Lemma is_substring_empty (hay : string) : is_substring "" hay = true.
Proof. destruct hay; reflexivity. Qed.

Section Searching.

Variable lower : string -> string.

(** The search reads the accounts and changes nothing; what it returns is
    taken from the list. *)
Lemma search_accounts_run (term : string) (accs : list ref) :
  forall w : World,
    Forall (valid w) accs ->
    exists found : list ref,
      search_accounts lower term accs w = (inr found, w)
      /\ (forall r : ref, r ∈ found -> r ∈ accs)
      /\ (term = "" -> found = accs).
Proof.
  induction accs as [|acc accs IH]; intros w Hvalid.
  - exists []. repeat split. auto.
  - apply Forall_cons in Hvalid as [[a E] Hvalid].
    destruct (IH w Hvalid) as (found & Hrun & Hsub & Hall).
    cbn [search_accounts].
    erewrite bind_run by (apply getattr_run; exact E).
    erewrite bind_run by (apply getattr_run; exact E).
    erewrite bind_run by exact Hrun.
    destruct (is_substring term (lower (BankAccount.name a))
              || is_substring term (lower (BankAccount.account_number a)))
      eqn:Hmatch.
    + exists (acc :: found). split; [reflexivity|]. split.
      * intros r Hr. apply elem_of_cons in Hr as [->|Hr]; [left | right; auto].
      * intros Hterm. rewrite (Hall Hterm). reflexivity.
    + exists found. split; [reflexivity|]. split.
      * intros r Hr. right. auto.
      * intros ->. rewrite is_substring_empty in Hmatch. discriminate.
Qed.

(** X15.  A search for the empty text returns every account of the list, in
    the order of the list, and changes nothing: the empty text is contained
    in every name. *)
Theorem search_for_nothing_finds_all (accs : list ref) (w : World) :
  Forall (valid w) accs ->
  search_accounts lower "" accs w = (inr accs, w).
Proof.
  intros Hvalid.
  destruct (search_accounts_run "" accs w Hvalid) as (found & Hrun & _ & Hall).
  rewrite Hrun, (Hall eq_refl). reflexivity.
Qed.

End Searching.

Lemma search_for_nothing_finds_all_witness :
  (search_accounts ascii_lower "" [0%nat; 1%nat] demo_world).1 = inr [0%nat; 1%nat].
Proof.
  rewrite (search_for_nothing_finds_all ascii_lower [0%nat; 1%nat] demo_world).
  - reflexivity.
  - repeat constructor; eexists; reflexivity.
Defined.

(** ** What each command keeps *)

Ltac kweak lemma :=
  first
    [ apply lemma
    | eapply keeps_weaken; [ | | apply lemma ];
      [ cbn beta; intros; solve [intuition eauto]
      | cbn beta; intros ? ? HV; exact HV ] ].

Ltac kstep lemma :=
  eapply keeps_bind; [ auto 20 with stable | kweak lemma | cbn beta; intros ? ].

Tactic Notation "kbind" constr(lemma) "as" ident(x) :=
  eapply keeps_bind; [ auto 20 with stable | kweak lemma | cbn beta; intros x ].

Ltac kend lemma :=
  first
    [ apply lemma
    | eapply keeps_weaken; [ | | apply lemma ];
      [ cbn beta; intros; solve [intuition eauto] | cbn beta; intros; exact I ] ].

Lemma keeps_run_op (self : ref) (o : op) :
  keeps (fun w => valid w self) (run_op self o) (fun _ _ => True).
Proof.
  intros w [Hreg Hsound] [a E].
  destruct (run_op_summary w self a o E)
    as (res & w' & Hrun & Hr & Hh & Hacc & Hin).
  rewrite Hrun. cbn [fst snd].
  assert (Hev : evolves w w').
  { split; [rewrite Hin; reflexivity|]. split; [rewrite Hacc; reflexivity|].
    intros r ar Er. rewrite Hh. destruct (decide (r = self)) as [->|Hne].
    - exists (after_op w a o). split; [eapply heap_updated, E|].
      replace ar with a by congruence. apply after_op_evolves.
    - exists ar. rewrite list_lookup_insert_ne by congruence.
      split; [exact Er | apply account_evolves_refl]. }
  split; [exact Hev|]. split; [|apply returned_or_unprintable_kept, Hr]. split.
  - eapply registry_ok_same; [|exact Hacc|exact Hreg].
    intros r. apply valid_evolves, Hev.
  - rewrite Hh. apply Forall_insert; [exact Hsound|].
    apply after_op_sound. rewrite Forall_lookup in Hsound. eapply Hsound, E.
Qed.

Lemma keeps_deposit (self : ref) (amount : Z) :
  keeps (fun w => valid w self) (deposit self amount) (fun _ _ => True).
Proof. apply (keeps_run_op self (Deposit amount)). Qed.

Lemma keeps_withdraw (self : ref) (amount : Z) :
  keeps (fun w => valid w self) (withdraw self amount) (fun _ _ => True).
Proof. apply (keeps_run_op self (Withdraw amount)). Qed.

Lemma keeps_close_account (self : ref) :
  keeps (fun w => valid w self) (close_account self) (fun _ _ => True).
Proof. apply (keeps_run_op self Close). Qed.

Lemma keeps_create_account (int : string -> option Z) (strip : string -> string) :
  keeps (fun _ => True) (create_account int strip) (fun acc w => valid w acc).
Proof.
  intros w Hok _. pose proof Hok as [Hreg Hsound].
  destruct (create_account_outcome_holds int strip w) as (Hin & Hkeep & Hres).
  destruct (create_account int strip w) as [[e|acc] w']; cbn [fst snd] in *.
  - destruct Hres as (-> & Hh & Hacc & _).
    split; [apply evolves_io; assumption|]. split; [|left; reflexivity].
    eapply store_ok_same; eassumption.
  - destruct Hres as (-> & (a & Hh & Ha) & Hacc).
    assert (Hnew : valid w' (length (heap w)))
      by (exists a; rewrite Hh; apply lookup_new).
    split; [|split; [|exact Hnew]].
    + split; [exact Hin|]. split; [rewrite Hacc; apply prefix_app_r; reflexivity|].
      intros r ar Er. exists ar. split; [auto | apply account_evolves_refl].
    + split.
      * unfold registry_ok. rewrite Hacc. apply Forall_app. split.
        -- eapply Forall_impl; [exact Hreg|]. intros r [ar Er]. exists ar. auto.
        -- constructor; [exact Hnew | constructor].
      * rewrite Hh. apply Forall_app. split; [exact Hsound|].
        apply Forall_singleton, Ha.
Qed.

Lemma keeps_list_accounts_brief (accs : list ref) :
  keeps (fun w => Forall (valid w) accs) (list_accounts_brief accs)
        (fun _ _ => True).
Proof.
  apply keeps_only_prints. intros w _ Hvalid.
  destruct (list_accounts_brief_run w accs Hvalid) as (r & lines & Hrun & Hr & _).
  exists r, lines. split; [exact Hrun|].
  apply returned_or_unprintable_kept, Hr.
Qed.

Lemma keeps_find_account_by_number (num : string) (accs : list ref) :
  keeps (fun w => Forall (valid w) accs) (find_account_by_number num accs)
        (fun found w => forall acc, found = Some acc -> valid w acc).
Proof.
  apply keeps_io. intros w _ Hvalid.
  destruct (find_account_by_number_run w num accs Hvalid) as (found & Hrun & Hfound).
  rewrite Hrun. cbn [fst snd].
  split; [reflexivity|]. split; [reflexivity|]. split; [reflexivity|].
  intros acc ->. destruct Hfound as (before & after & _ & (a & E & _) & _).
  exists a. exact E.
Qed.

Lemma keeps_search_accounts (lower : string -> string) (term : string)
    (accs : list ref) :
  keeps (fun w => Forall (valid w) accs) (search_accounts lower term accs)
        (fun found w => Forall (valid w) found).
Proof.
  apply keeps_io. intros w _ Hvalid.
  destruct (search_accounts_run lower term accs w Hvalid) as (found & Hrun & Hsub & _).
  rewrite Hrun. cbn [fst snd].
  split; [reflexivity|]. split; [reflexivity|]. split; [reflexivity|].
  rewrite Forall_forall in Hvalid |- *. auto.
Qed.

Lemma BankAccount_str_run (a : BankAccount.t) (w : World) :
  only_prints (BankAccount_str a) w
    (if printable (BankAccount.balance a)
     then inr (account_text a) else inl ValueError) [].
Proof.
  unfold BankAccount_str.
  pose proof (only_prints_format (BankAccount.balance a) w) as Hfmt.
  destruct (printable (BankAccount.balance a)).
  - eapply only_prints_after; [exact Hfmt|]. apply only_prints_nothing.
  - apply only_prints_raise, Hfmt.
Qed.

Lemma keeps_print_accounts (found : list ref) :
  keeps (fun w => Forall (valid w) found)
        (for_each (fun acc => a <- load acc ;;
                              line <- BankAccount_str a ;; print line) found)
        (fun _ _ => True).
Proof.
  apply keeps_only_prints. intros w _ Hvalid.
  destruct (for_each_only_prints
              (fun acc => a <- load acc ;; line <- BankAccount_str a ;; print line)
              (fun r => match heap w !! r with
                        | Some a => account_text a
                        | None => ""
                        end)
              (fun r => exists a, heap w !! r = Some a
                                  /\ printable (BankAccount.balance a) = true)
              found w)
    as (r & lines & Hrun & Hr & _).
  - intros x out Hx. rewrite Forall_forall in Hvalid.
    destruct (Hvalid x Hx) as [a E]. rewrite E.
    pose proof (BankAccount_str_run a (with_stdout out w)) as Hstr.
    destruct (printable (BankAccount.balance a)) eqn:Hp.
    + left. split; [exists a; auto|].
      eapply only_prints_after; [apply only_prints_load; exact E|].
      eapply only_prints_after; [exact Hstr|]. apply only_prints_print.
    + right. split; [intros (a' & E' & Hp'); congruence|].
      eapply only_prints_after; [apply only_prints_load; exact E|].
      apply only_prints_raise, Hstr.
  - exists r, lines. split; [exact Hrun|].
    apply returned_or_unprintable_kept, Hr.
Qed.

Lemma keeps_show_transactions (upper_text : string -> string)
    (isoformat : datetime -> string) (self : ref) :
  keeps (fun w => valid w self) (show_transactions upper_text isoformat self)
        (fun _ _ => True).
Proof.
  apply keeps_only_prints. intros w _ [a E].
  destruct (show_transactions_run upper_text isoformat w self a E)
    as (r & lines & Hrun & Hr & _).
  exists r, lines. split; [exact Hrun|].
  apply returned_or_unprintable_kept, Hr.
Qed.

Lemma keeps_input_map (pre : World -> Prop) (f : string -> string)
    (prompt : string) :
  stable pre ->
  keeps pre (line <- input prompt ;; ret (f line)) (fun _ _ => True).
Proof.
  intros Hst. eapply keeps_bind; [exact Hst | apply keeps_input |].
  intros line. apply keeps_ret. auto.
Qed.

Lemma keeps_input_map_counted (n : nat) (f : string -> string) (prompt : string) :
  keeps (fun w => (length (stdin w) < S n)%nat)
        (line <- input prompt ;; ret (f line))
        (fun _ w => (length (stdin w) < n)%nat).
Proof.
  eapply keeps_bind; [auto with stable | apply keeps_input_counted |].
  intros line. apply keeps_ret. intros w [_ Hlt]. exact Hlt.
Qed.

Section MenuKeeps.

Variable int : string -> option Z.
Variable strip : string -> string.
Variable lower : string -> string.
Variable upper_text : string -> string.
Variable isoformat : datetime -> string.

Lemma keeps_deactivate_account (pre : World -> Prop) :
  stable pre ->
  keeps pre (deactivate_account strip lower) (fun _ _ => True).
Proof.
  intros Hst. unfold deactivate_account.
  kstep keeps_get_accounts.
  kstep keeps_list_accounts_brief.
  eapply keeps_bind; [auto 20 with stable | apply keeps_input_map; auto 20 with stable |].
  cbn beta. intros acc_num.
  kstep keeps_get_accounts.
  kbind keeps_find_account_by_number as found.
  destruct found as [acc|].
  - kstep (keeps_getattr BankAccount.name acc).
    eapply keeps_bind;
      [auto 20 with stable | apply keeps_input_map; auto 20 with stable |].
    cbn beta. intros confirm.
    case_bool_decide.
    + kend (keeps_close_account acc).
    + kend keeps_print.
  - kend keeps_print.
Qed.

Ltac kinput f :=
  eapply keeps_bind;
  [ auto 20 with stable
  | apply (keeps_input_map _ f); auto 20 with stable
  | cbn beta; intros ? ].

(** Every round of the menu keeps the invariants, whatever the user types;
    the loop is left by [break], by an uncaught [ValueError], of an amount
    that is no integer or of a number too long to be written, or by
    [EOFError], and the budget is never the reason. *)
Lemma keeps_main_menu_loop (fuel : nat) :
  keeps (fun w => (length (stdin w) < fuel)%nat)
        (main_menu_loop int strip lower upper_text isoformat fuel)
        (fun _ _ => True).
Proof.
  induction fuel as [|fuel IH]; [intros w _ Hlt; lia|].
  cbn [main_menu_loop].
  kstep keeps_print.
  eapply keeps_bind;
    [ auto 20 with stable
    | kweak (keeps_input_map_counted fuel strip)
    | cbn beta; intros choice ].
  repeat case_bool_decide.
  - (* 1 *)
    kstep (keeps_create_account int strip). kend IH.
  - (* 2 *)
    kstep keeps_get_accounts. kstep keeps_list_accounts_brief.
    kstep keeps_input. kend IH.
  - (* 3 *)
    kinput (fun l => lower (strip l)).
    kstep keeps_get_accounts.
    kbind keeps_search_accounts as found.
    eapply keeps_bind;
      [ auto 20 with stable
      | destruct found; [kweak keeps_print | kweak keeps_print_accounts]
      | cbn beta; intros ? ].
    kstep keeps_input. kend IH.
  - (* 4 *)
    kstep keeps_get_accounts. kstep keeps_list_accounts_brief.
    kinput strip. kstep keeps_get_accounts.
    kbind keeps_find_account_by_number as found.
    destruct found as [acc|].
    + kbind keeps_input as line. destruct (int line) as [amt|].
      * kstep (keeps_deposit acc amt). kend IH.
      * apply keeps_ret. auto.
    + kstep keeps_print. kend IH.
  - (* 5 *)
    kstep keeps_get_accounts. kstep keeps_list_accounts_brief.
    kinput strip. kstep keeps_get_accounts.
    kbind keeps_find_account_by_number as found.
    destruct found as [acc|].
    + kbind keeps_input as line. destruct (int line) as [amt|].
      * kstep (keeps_withdraw acc amt). kend IH.
      * apply keeps_ret. auto.
    + kstep keeps_print. kend IH.
  - (* 6 *)
    kstep keeps_get_accounts. kstep keeps_list_accounts_brief.
    kinput strip. kstep keeps_get_accounts.
    kbind keeps_find_account_by_number as found.
    destruct found as [acc|].
    + kstep (keeps_show_transactions upper_text isoformat acc).
      kstep keeps_input. kend IH.
    + kstep keeps_print. kend IH.
  - (* 7 *)
    eapply keeps_bind;
      [ auto 20 with stable
      | apply keeps_deactivate_account; auto 20 with stable
      | cbn beta; intros ? ].
    kend IH.
  - (* 8 *)
    kstep keeps_print. apply keeps_ret. auto.
  - (* anything else *)
    kstep keeps_print. kend IH.
Qed.

Lemma main_menu_keeps (w : World) :
  store_ok w ->
  evolves w (main_menu int strip lower upper_text isoformat w).2
  /\ store_ok (main_menu int strip lower upper_text isoformat w).2
  /\ match (main_menu int strip lower upper_text isoformat w).1 with
     | inr _ => True
     | inl e => e = EOFError \/ e = ValueError
     end.
Proof.
  intros Hok. unfold main_menu.
  apply (keeps_main_menu_loop (S (length (stdin w))) w Hok). lia.
Qed.

(** X17.  No session removes or reorders registered accounts: the list
    [accounts] at the start is the beginning of the list at the end, and every
    reference in it designates an object. *)
Theorem session_registry_only_grows (w : World) :
  store_ok w ->
  accounts w `prefix_of` accounts (main_menu int strip lower upper_text isoformat w).2
  /\ registry_ok (main_menu int strip lower upper_text isoformat w).2.
Proof.
  intros Hok. destruct (main_menu_keeps w Hok) as ((_ & Hacc & _) & [Hreg _] & _).
  auto.
Qed.


(** X19.  A closed account is final: whatever the user does in the session,
    the object is afterwards exactly what it was. *)
Theorem session_closed_is_final (w : World) (r : ref) (a : BankAccount.t) :
  store_ok w ->
  heap w !! r = Some a ->
  BankAccount.is_closed a = true ->
  heap (main_menu int strip lower upper_text isoformat w).2 !! r = Some a.
Proof.
  intros Hok E C. destruct (main_menu_keeps w Hok) as ((_ & _ & Hobj) & _).
  destruct (Hobj r a E) as (a' & E' & _ & _ & _ & _ & Hfrozen & _).
  rewrite E', (Hfrozen C). reflexivity.
Qed.

(** X20.  Whatever the user does in a session, every account in the store is
    sound at the end: it is closed only with a zero balance, the closure is
    the last entry of its log and the only one of its type, the entries of
    its log are regular, and its balance is not more than the total of its
    log. *)
Theorem session_store_sound (w : World) :
  store_ok w ->
  forall (r : ref) (a : BankAccount.t),
    heap (main_menu int strip lower upper_text isoformat w).2 !! r = Some a ->
    (BankAccount.is_closed a = true -> BankAccount.balance a = 0)
    /\ closure_recorded_last a
    /\ Forall regular_transaction (BankAccount.transactions a)
    /\ BankAccount.balance a <= ledger_total (BankAccount.transactions a).
Proof.
  intros Hok r a E. destruct (main_menu_keeps w Hok) as (_ & [_ Hsound] & _).
  rewrite Forall_lookup in Hsound.
  destruct (Hsound r a E) as (Hzero & Hlast & Hreg & Hun).
  unfold unlogged in Hun. repeat split; try assumption. lia.
Qed.


(** X23.  [deactivate_account] leaves the list [accounts] as it was.  It
    first lists the accounts: when a position or a balance cannot be written
    it stops there with [ValueError], the store and the input untouched.
    Otherwise it returns.  When no account carries the number typed, the
    store is as it was and the next line of the input is not read, whatever
    it says.  When an account carries it, the first such account of the
    list is the one asked about: the answer is read, and the store is as it
    was unless the answer, lowered, is exactly [yes]; then that first
    account has become what [close_account] makes of it and every other
    object is as it was. *)
Theorem deactivate_only_on_yes (w : World) (line1 line2 : string)
    (rest : list string) :
  registry_ok w ->
  stdin w = line1 :: line2 :: rest ->
  exists (r : exn + unit) (w' : World),
    deactivate_account strip lower w = (r, w')
    /\ accounts w' = accounts w
    /\ (~ listing_printable w (accounts w) ->
        r = inl ValueError /\ heap w' = heap w /\ stdin w' = stdin w)
    /\ (listing_printable w (accounts w) ->
        r = inr tt
        /\ (Forall (fun r => ~ has_number w (strip line1) r) (accounts w) ->
            heap w' = heap w /\ stdin w' = line2 :: rest)
        /\ (forall (before after : list ref) (acc : ref) (a : BankAccount.t),
              accounts w = (before ++ acc :: after)%list ->
              Forall (fun r => ~ has_number w (strip line1) r) before ->
              heap w !! acc = Some a ->
              BankAccount.account_number a = strip line1 ->
              stdin w' = rest
              /\ heap w' = if bool_decide (lower line2 = "yes")
                           then <[acc := after_close w a]> (heap w)
                           else heap w)).
Proof.
  intros Hvalid Hin. unfold registry_ok in Hvalid.
  unfold deactivate_account.
  unfold bind at 1; unfold get_accounts at 1.
  destruct (list_accounts_brief_run w (accounts w) Hvalid)
    as (r0 & lines & Hlist & Hr0 & Hiff & _).
  unfold only_prints in Hlist. destruct r0 as [e|[]].
  { cbn in Hr0. subst e. unfold bind at 1. rewrite Hlist.
    eexists _, _. split; [reflexivity|]. cbn. split; [reflexivity|].
    split; [auto|]. intros Hp. apply Hiff in Hp. discriminate Hp. }
  assert (Hprintable : listing_printable w (accounts w)) by (apply Hiff; reflexivity).
  erewrite bind_run by exact Hlist.
  erewrite bind_run
    by (erewrite bind_run by (apply input_run; cbn; exact Hin); reflexivity).
  unfold bind at 1; unfold get_accounts at 1.
  cbn [accounts with_stdin with_stdout].
  match goal with
  | |- context [bind (find_account_by_number ?num ?accs) _ ?w0] =>
      destruct (find_account_by_number_run w0 num accs Hvalid)
        as (found & Hfind & Hfound);
      erewrite bind_run by exact Hfind
  end.
  destruct found as [acc|].
  - destruct Hfound as (before & after & Hsplit & (a & E & Hnum) & Hfirst).
    erewrite bind_run by (apply getattr_run; exact E).
    erewrite bind_run
      by (erewrite bind_run by (apply input_run; cbn; reflexivity); reflexivity).
    assert (Hnone : ~ Forall (fun r => ~ has_number w (strip line1) r) (accounts w)).
    { intros Hall. rewrite Forall_forall in Hall. apply (Hall acc).
      - rewrite Hsplit. apply elem_of_app. right. left.
      - exists a. auto. }
    assert (Hsame : forall (before' after' : list ref) (acc' : ref)
                           (a' : BankAccount.t),
              accounts w = (before' ++ acc' :: after')%list ->
              Forall (fun r => ~ has_number w (strip line1) r) before' ->
              heap w !! acc' = Some a' ->
              BankAccount.account_number a' = strip line1 ->
              acc' = acc /\ a' = a).
    { intros before' after' acc' a' Hsplit' Hfirst' E' Hnum'.
      assert (acc' = acc) as ->.
      { eapply (first_carrier_unique (has_number w (strip line1)));
          [rewrite <- Hsplit', <- Hsplit; reflexivity
          | exists a'; auto | exists a; auto | exact Hfirst' | exact Hfirst]. }
      cbn [heap with_stdin with_stdout] in E. split; [reflexivity | congruence]. }
    case_bool_decide as Hyes.
    + match goal with
      | |- context [close_account acc ?w0] =>
          destruct (close_summary w0 acc a E)
            as (w' & Hrun & _ & Hh & Hacc & Hstdin)
      end.
      exists (inr tt), w'. split; [exact Hrun|]. split; [exact Hacc|].
      split; [intros Hno; contradiction|]. intros _. split; [reflexivity|].
      split; [intros Hall; contradiction|].
      intros before' after' acc' a' Hsplit' Hfirst' E' Hnum'.
      destruct (Hsame _ _ _ _ Hsplit' Hfirst' E' Hnum') as [-> ->].
      split; [rewrite Hstdin; reflexivity | exact Hh].
    + eexists _, _. split; [reflexivity|]. cbn. split; [reflexivity|].
      split; [intros Hno; contradiction|]. intros _. split; [reflexivity|].
      split; [intros Hall; contradiction|].
      intros before' after' acc' a' Hsplit' Hfirst' E' Hnum'. auto.
  - eexists _, _. split; [reflexivity|]. cbn. split; [reflexivity|].
    split; [intros Hno; contradiction|]. intros _. split; [reflexivity|].
    split; [auto|].
    intros before' after' acc' a' Hsplit' Hfirst' E' Hnum'. exfalso.
    rewrite Forall_forall in Hfound. apply (Hfound acc').
    + rewrite Hsplit'. apply elem_of_app. right. left.
    + exists a'. auto.
Qed.

(** The steps that the deposit, withdraw and view commands share: the
    accounts are listed, a number is read and looked up.  The first goal
    left is the one where the listing stopped. *)
Local Ltac lookup_steps Hvalid Hprintable Hiff Hin Hex lines acc :=
  unfold bind at 1; unfold get_accounts at 1;
  cbn [accounts with_stdin with_stdout];
  match goal with
  | |- context [bind (list_accounts_brief ?accs) _ ?w0] =>
      let r := fresh "r" in
      let Hlist := fresh "Hlist" in
      let Hr := fresh "Hr" in
      destruct (list_accounts_brief_run w0 accs Hvalid)
        as (r & lines & Hlist & Hr & Hiff & _);
      unfold only_prints in Hlist;
      destruct r as [e|[]];
      [ cbn in Hr; subst e; unfold bind at 1; rewrite Hlist
      | assert (Hprintable := proj1 Hiff eq_refl);
        erewrite bind_run by exact Hlist;
        erewrite bind_run
          by (erewrite bind_run by (apply input_run; cbn; reflexivity);
              reflexivity);
        unfold bind at 1; unfold get_accounts at 1;
        cbn [accounts with_stdin with_stdout];
        match goal with
        | |- context [bind (find_account_by_number ?num ?accs') _ ?w1] =>
            let found := fresh "found" in
            let Hfind := fresh "Hfind" in
            let Hfound := fresh "Hfound" in
            destruct (find_account_by_number_run w1 num accs' Hvalid)
              as (found & Hfind & Hfound);
            erewrite bind_run by exact Hfind;
            destruct found as [acc|];
            [ clear Hfound
            | exfalso; apply Exists_exists in Hex as (r' & Hr' & Hnum);
              rewrite Forall_forall in Hfound; exact (Hfound r' Hr' Hnum) ]
        end ]
  end.

(** X22.  At the deposit and withdraw commands the amount is read without
    any check.  The command first lists the accounts, which stops the
    session with [ValueError] when a position or a balance cannot be
    written.  Otherwise, when the account is found and the text typed as
    the amount is no integer, the [ValueError] of [int] ends the session,
    and the rest of the input is never read.  Either way nothing was done
    to the store. *)
Theorem amount_not_integer_ends_session (w : World) (line1 line2 line3 : string)
    (rest : list string) :
  registry_ok w ->
  stdin w = line1 :: line2 :: line3 :: rest ->
  strip line1 = "4" \/ strip line1 = "5" ->
  Exists (has_number w (strip line2)) (accounts w) ->
  int line3 = None ->
  exists (r : exn + ending) (w' : World),
    main_menu int strip lower upper_text isoformat w = (r, w')
    /\ heap w' = heap w
    /\ accounts w' = accounts w
    /\ (listing_printable w (accounts w) ->
        r = inr UncaughtValueError /\ stdin w' = rest)
    /\ (~ listing_printable w (accounts w) ->
        r = inl ValueError /\ stdin w' = line2 :: line3 :: rest).
Proof.
  intros Hvalid Hin Hchoice Hex Hint. unfold registry_ok in Hvalid.
  unfold main_menu. cbn [main_menu_loop].
  run_print.
  erewrite bind_run
    by (erewrite bind_run by (apply input_run; cbn; exact Hin); reflexivity).
  destruct Hchoice as [-> | ->]; repeat (case_bool_decide; [discriminate|]);
    (case_bool_decide; [|congruence]);
    lookup_steps Hvalid Hprintable Hiff Hin Hex lines acc.
  - eexists _, _. split; [reflexivity|]. cbn. split; [reflexivity|].
    split; [reflexivity|]. split; [|auto].
    intros Hp. apply Hiff in Hp. discriminate Hp.
  - erewrite bind_run by (apply input_run; cbn; reflexivity).
    rewrite Hint. eexists _, _. split; [reflexivity|]. cbn.
    split; [reflexivity|]. split; [reflexivity|]. split; [auto|].
    intros Hno. contradiction.
  - eexists _, _. split; [reflexivity|]. cbn. split; [reflexivity|].
    split; [reflexivity|]. split; [|auto].
    intros Hp. apply Hiff in Hp. discriminate Hp.
  - erewrite bind_run by (apply input_run; cbn; reflexivity).
    rewrite Hint. eexists _, _. split; [reflexivity|]. cbn.
    split; [reflexivity|]. split; [reflexivity|]. split; [auto|].
    intros Hno. contradiction.
Qed.

End MenuKeeps.

(** ** The sessions of the examples *)

Lemma session_world_ok : store_ok session_world.
Proof. split; constructor. Qed.

Lemma bob_closed_sound : sound_account bob_closed.
Proof.
  split; [reflexivity|]. split; [|split].
  - exists [Transaction.mk 3%N "deposit" None (Some "Bob") 40 "completed"
                           1700000000000002],
           (Transaction.mk 4%N "close" (Some "Bob") None 40 "completed"
                           1700000000000003).
    split; [reflexivity|]. split; [reflexivity|].
    apply Forall_singleton. cbn. discriminate.
  - apply Forall_cons. split; [regular_now | apply Forall_singleton; regular_now].
  - unfold unlogged, bob_closed.
    cbn [BankAccount.balance BankAccount.transactions ledger_total].
    unfold signed_amount.
    cbn [Transaction.status Transaction.type Transaction.amount].
    repeat case_bool_decide; try congruence; lia.
Qed.

Lemma bob_world_ok : store_ok bob_world.
Proof.
  split.
  - repeat constructor. eexists. reflexivity.
  - apply Forall_singleton, bob_closed_sound.
Qed.

Lemma session_registry_only_grows_witness :
  accounts bob_world
    `prefix_of` accounts (main_menu ascii_int ascii_strip ascii_lower upper str
                            bob_world).2
  /\ registry_ok (main_menu ascii_int ascii_strip ascii_lower upper str bob_world).2.
Proof.
  apply (session_registry_only_grows ascii_int ascii_strip ascii_lower upper str
           bob_world).
  exact bob_world_ok.
Defined.


Lemma session_closed_is_final_witness :
  heap (main_menu ascii_int ascii_strip ascii_lower upper str bob_world).2 !! 0%nat
  = Some bob_closed.
Proof.
  apply (session_closed_is_final ascii_int ascii_strip ascii_lower upper str
           bob_world 0 bob_closed);
    [exact bob_world_ok | reflexivity | reflexivity].
Defined.

Lemma session_store_sound_witness :
  exists a : BankAccount.t,
    heap (main_menu ascii_int ascii_strip ascii_lower upper str session_world).2
      !! 0%nat = Some a
    /\ (BankAccount.is_closed a = true -> BankAccount.balance a = 0)
    /\ closure_recorded_last a
    /\ Forall regular_transaction (BankAccount.transactions a)
    /\ BankAccount.balance a <= ledger_total (BankAccount.transactions a).
Proof.
  destruct (heap (main_menu ascii_int ascii_strip ascii_lower upper str
                    session_world).2 !! 0%nat) as [a|] eqn:E.
  - exists a. split; [reflexivity|].
    exact (session_store_sound ascii_int ascii_strip ascii_lower upper str
             session_world session_world_ok 0%nat a E).
  - lazy in E. discriminate E.
Defined.


Lemma amount_not_integer_ends_session_witness :
  exists w' : World,
    main_menu ascii_int ascii_strip ascii_lower upper str
      (with_stdin [" 4"; "ACC-2"; "ten"; "8"] bob_world)
    = (inr UncaughtValueError, w')
    /\ heap w' = heap bob_world
    /\ accounts w' = accounts bob_world
    /\ stdin w' = ["8"].
Proof.
  destruct (amount_not_integer_ends_session ascii_int ascii_strip ascii_lower
              upper str (with_stdin [" 4"; "ACC-2"; "ten"; "8"] bob_world)
              " 4" "ACC-2" "ten" ["8"])
    as (r & w' & Hrun & Hh & Hacc & Hgood & _).
  - repeat constructor. eexists. reflexivity.
  - reflexivity.
  - left. reflexivity.
  - apply Exists_cons_hd. exists bob_closed. split; reflexivity.
  - reflexivity.
  - destruct Hgood as [Hr Hin].
    { split; [reflexivity|]. repeat constructor. eexists. split; reflexivity. }
    exists w'. rewrite <- Hr. auto.
Defined.

Lemma deactivate_only_on_yes_witness :
  exists w' : World,
    deactivate_account ascii_strip ascii_lower
      (with_stdin ["ACC-1"; "YES"; "8"] demo_world) = (inr tt, w')
    /\ stdin w' = ["8"]
    /\ heap w' = [after_close demo_world alice; bob_closed].
Proof.
  destruct (deactivate_only_on_yes ascii_strip ascii_lower
              (with_stdin ["ACC-1"; "YES"; "8"] demo_world) "ACC-1" "YES" ["8"])
    as (r & w' & Hrun & _ & _ & Hgood).
  - repeat constructor; eexists; reflexivity.
  - reflexivity.
  - destruct Hgood as (Hr & _ & Hfound).
    { split; [reflexivity|]. repeat constructor; eexists; split; reflexivity. }
    exists w'. rewrite <- Hr. split; [exact Hrun|].
    apply (Hfound [] [1%nat] 0%nat alice); [reflexivity | constructor | reflexivity..].
Defined.
